(** * note-maker: the authentication core

    A shallow embedding of the backend of the note-taking service:
    [utils/jwt.ts], [utils/email.ts], [models/User.ts],
    [middleware/auth.ts] and [routes/auth.ts]; then [models/Note.ts] and
    the routes of [routes/notes.ts] that read or write one note.

    Conventions.
    - Instants are milliseconds since the epoch ([Date.now()]), in [Z];
      a request reads the clock once.
    - An optional JavaScript value ([undefined], or an absent environment
      variable or JSON field) is an [option]; strings are ASCII.
    - Third-party packages (Joi, bcryptjs, jsonwebtoken, ms, mongoose,
      the Google client) are not part of the repository.  Their pure
      functions are gathered in the record [Lib]; what the network, the
      clock or the random source decides is read from an [Oracle] that is
      handed to each request.
    - The store answers every operation; the only errors it raises are
      those of the schema: a validator, a cast, a unique index. *)

From Stdlib Require Import ZArith List String Ascii Bool Lia.
From Stdlib Require Import QArith Qround Qpower Qabs Lqa.
Import ListNotations.

Local Open Scope string_scope.
Local Open Scope Z_scope.

(** ** JavaScript values *)

Module JS.

(** [v || d] on an optional string: [undefined] and [''] are falsy. *)
Definition orElse (v : option string) (d : string) : string :=
  match v with
  | Some s => if (s =? "")%string then d else s
  | None => d
  end.

(** [!v] on an optional string. *)
Definition falsy (v : option string) : bool :=
  match v with
  | Some s => (s =? "")%string
  | None => true
  end.

(** [v === s] for an optional string [v] and a string literal [s]. *)
Definition strictEq (v : option string) (s : string) : bool :=
  match v with
  | Some x => (x =? s)%string
  | None => false
  end.

(** [s.startsWith(p)] *)
Fixpoint startsWith (s p : string) {struct p} : bool :=
  match p, s with
  | EmptyString, _ => true
  | String a p', String b s' => Ascii.eqb a b && startsWith s' p'
  | String _ _, EmptyString => false
  end.

(** [s.substring(n)]: the rest of [s] from index [n]. *)
Definition substring (n : nat) (s : string) : string :=
  String.substring n (String.length s - n) s.

Definition lower (c : ascii) : ascii :=
  let n := nat_of_ascii c in
  if ((65 <=? n) && (n <=? 90))%nat then ascii_of_nat (n + 32) else c.

(** [s.toLowerCase()], on the ASCII letters. *)
Fixpoint toLowerCase (s : string) : string :=
  match s with
  | EmptyString => EmptyString
  | String c r => String (lower c) (toLowerCase r)
  end.

Definition isSpace (c : ascii) : bool :=
  let n := nat_of_ascii c in
  ((n =? 32) || ((9 <=? n) && (n <=? 13)))%nat.

Fixpoint trimStart (s : string) : string :=
  match s with
  | EmptyString => EmptyString
  | String c r => if isSpace c then trimStart r else s
  end.

Fixpoint revOnto (s : string) (acc : string) : string :=
  match s with
  | EmptyString => acc
  | String c r => revOnto r (String c acc)
  end.

(** [s.trim()]. *)
Definition trim (s : string) : string :=
  revOnto (trimStart (revOnto (trimStart s) "")) "".

Definition digit (d : Z) : ascii := ascii_of_nat (48 + Z.to_nat d).

Fixpoint digits (fuel : nat) (n : Z) (acc : string) : string :=
  match fuel with
  | O => acc
  | S f =>
      let acc' := String (digit (n mod 10)) acc in
      if n <? 10 then acc' else digits f (n / 10) acc'
  end.

(** [n.toString()] for a non-negative integer [n]: its decimal digits,
    most significant first.  The fuel is more than the number of digits. *)
Definition toString (n : Z) : string :=
  digits (S (Z.to_nat (Z.log2 n))) n "".



End JS.

(** ** process.env *)

Module Env.
Record t := mk {
  JWT_SECRET : option string;
  JWT_EXPIRE : option string;
  NODE_ENV : option string;
  GOOGLE_CLIENT_ID : option string
}.
End Env.

(** ** Session tokens: the jsonwebtoken package *)

(** The claims of a token: the payload of [utils/jwt.ts] and the two
    registered claims the package adds or reads. *)
Module Claims.
Record t := mk {
  userId : string;
  email : string;
  iat : Z;
  exp : option Z
}.
End Claims.

(** A compact token, once its three parts are decoded. *)
Module Jwt.
Record t := mk {
  claims : Claims.t;
  signature : string
}.
End Jwt.

(** The errors [jwt.verify] throws. *)
Inductive JwtError :=
| JsonWebTokenError (message : string)
| TokenExpiredError (expiredAt : Z).

(** The pure functions of the packages the backend imports. *)
Record Lib := mkLib {
  (** Joi: [Joi.string().email()] accepts the string. *)
  joi_email : string -> bool;
  (** bcryptjs: [hash(password, salt)] and [compare(candidate, hash)]. *)
  bcrypt_hash : string -> string -> string;
  bcrypt_compare : string -> string -> bool;
  (** jsonwebtoken: the HS256 signature of the claims under a secret, and
      the compact serialisation of a token. *)
  hs256 : string -> Claims.t -> string;
  jwt_encode : Jwt.t -> string;
  jwt_decode : string -> option Jwt.t;
  (** ms: a time span such as ['7d'] in milliseconds, when it is one. *)
  ms : string -> option Z;
  (** mongoose: the string casts to an ObjectId. *)
  isObjectId : string -> bool
}.

(** Decoding inverts encoding, and no token is the empty string. *)
Definition jwt_codec (L : Lib) : Prop :=
  forall j : Jwt.t,
    jwt_decode L (jwt_encode L j) = Some j /\ jwt_encode L j <> "".

Module jsonwebtoken.
Section WithLib.
Variable L : Lib.

(** [jwt.sign(payload, secret, { expiresIn })] at clock [now]: [iat] is
    the clock in seconds, [exp] is [Math.floor(iat + ms(expiresIn) / 1000)];
    a string that is no time span makes the call throw ([None]). *)
Definition sign (userId email secret expiresIn : string) (now : Z)
    : option string :=
  match ms L expiresIn with
  | None => None
  | Some span =>
      let iat := now / 1000 in
      let c := Claims.mk userId email iat (Some (iat + span / 1000)) in
      Some (jwt_encode L (Jwt.mk c (hs256 L secret c)))
  end.

(** [jwt.verify(token, secret)] at clock [now]. *)
Definition verify (token secret : string) (now : Z) : Claims.t + JwtError :=
  if (token =? "")%string then inr (JsonWebTokenError "jwt must be provided")
  else
    match jwt_decode L token with
    | None => inr (JsonWebTokenError "jwt malformed")
    | Some j =>
        if negb (Jwt.signature j =? hs256 L secret (Jwt.claims j))%string
        then inr (JsonWebTokenError "invalid signature")
        else
          match Claims.exp (Jwt.claims j) with
          | Some e =>
              if e <=? now / 1000 then inr (TokenExpiredError (e * 1000))
              else inl (Jwt.claims j)
          | None => inl (Jwt.claims j)
          end
    end.
End WithLib.
End jsonwebtoken.

(** ** Regular expressions, for the [match] validator of the schema *)

Module Regex.

Inductive t :=
| Nothing
| Eps
| Chr (p : ascii -> bool)
| Cat (a b : t)
| Alt (a b : t)
| Star (a : t).

Definition plus (a : t) : t := Cat a (Star a).
Definition opt (a : t) : t := Alt Eps a.

Fixpoint nullable (r : t) : bool :=
  match r with
  | Nothing => false
  | Eps => true
  | Chr _ => false
  | Cat a b => nullable a && nullable b
  | Alt a b => nullable a || nullable b
  | Star _ => true
  end.

(** Constructors that drop the branches that match nothing. *)
Definition cat (a b : t) : t :=
  match a with
  | Nothing => Nothing
  | Eps => b
  | _ => Cat a b
  end.

Definition alt (a b : t) : t :=
  match a, b with
  | Nothing, _ => b
  | _, Nothing => a
  | _, _ => Alt a b
  end.

(** The derivative of [r] by the character [c]. *)
Fixpoint deriv (c : ascii) (r : t) : t :=
  match r with
  | Nothing => Nothing
  | Eps => Nothing
  | Chr p => if p c then Eps else Nothing
  | Cat a b =>
      if nullable a then alt (cat (deriv c a) b) (deriv c b)
      else cat (deriv c a) b
  | Alt a b => alt (deriv c a) (deriv c b)
  | Star a => cat (deriv c a) (Star a)
  end.

(** [/^r$/.test(s)]. *)
Fixpoint test (r : t) (s : string) : bool :=
  match s with
  | EmptyString => nullable r
  | String c s' => test (deriv c r) s'
  end.

Definition between (lo hi : nat) (c : ascii) : bool :=
  let n := nat_of_ascii c in ((lo <=? n) && (n <=? hi))%nat.

Definition char (x : ascii) (c : ascii) : bool := Ascii.eqb x c.

(** [\w] *)
Definition word : t :=
  Chr (fun c => between 97 122 c || between 65 90 c || between 48 57 c
                || char "_" c).

(** [[.-]] *)
Definition dotDash : t := Chr (fun c => char "." c || char "-" c).

End Regex.

(** ** The User model ([models/User.ts]) *)

Module User.

(** A stored document.  The [createdAt] and [updatedAt] timestamps are
    read by no code of the authentication core and are left out. *)
Record t := mk {
  _id : string;
  email : string;
  password : option string;
  firstName : string;
  lastName : string;
  isEmailVerified : bool;
  googleId : option string;
  profilePicture : string;
  otp : option string;
  otpExpiry : option Z
}.

Definition set_password (v : option string) (u : t) : t :=
  mk (_id u) (email u) v (firstName u) (lastName u) (isEmailVerified u)
     (googleId u) (profilePicture u) (otp u) (otpExpiry u).

Definition set_isEmailVerified (v : bool) (u : t) : t :=
  mk (_id u) (email u) (password u) (firstName u) (lastName u) v
     (googleId u) (profilePicture u) (otp u) (otpExpiry u).

Definition set_googleId (v : option string) (u : t) : t :=
  mk (_id u) (email u) (password u) (firstName u) (lastName u)
     (isEmailVerified u) v (profilePicture u) (otp u) (otpExpiry u).

Definition set_otp (v : option string) (u : t) : t :=
  mk (_id u) (email u) (password u) (firstName u) (lastName u)
     (isEmailVerified u) (googleId u) (profilePicture u) v (otpExpiry u).

Definition set_otpExpiry (v : option Z) (u : t) : t :=
  mk (_id u) (email u) (password u) (firstName u) (lastName u)
     (isEmailVerified u) (googleId u) (profilePicture u) (otp u) v.

(** The [match] pattern of the [email] path:
    [/^\w+([.-]?\w+)*@\w+([.-]?\w+)*(\.\w{2,3})+$/]. *)
Definition emailPattern : Regex.t :=
  let w := Regex.word in
  let name := Regex.Cat (Regex.plus w)
                (Regex.Star (Regex.Cat (Regex.opt Regex.dotDash) (Regex.plus w))) in
  let tld := Regex.Cat (Regex.Chr (Regex.char "."))
               (Regex.Cat w (Regex.Cat w (Regex.opt w))) in
  Regex.Cat name (Regex.Cat (Regex.Chr (Regex.char "@"))
                            (Regex.Cat name (Regex.plus tld))).

(** [new User({ ... })]: the setters of the schema run on the fields that
    are given ([lowercase] on [email], [trim] on the names). *)
Definition create (id email : string) (password : option string)
    (firstName lastName : string) (isEmailVerified : bool)
    (googleId : option string) (profilePicture : string)
    (otp : option string) (otpExpiry : option Z) : t :=
  mk id (JS.toLowerCase email) password (JS.trim firstName) (JS.trim lastName)
     isEmailVerified googleId profilePicture otp otpExpiry.

(** The validators that run when a new document is saved; [None] when all
    pass, otherwise the first path that fails. *)
Definition validate (u : t) : option string :=
  if (email u =? "")%string || negb (Regex.test emailPattern (email u))
  then Some "email"
  else if match password u with
          | Some p => (String.length p <? 6)%nat
          | None => false
          end
  then Some "password"
  else if (firstName u =? "")%string || (50 <? String.length (firstName u))%nat
  then Some "firstName"
  else if (lastName u =? "")%string || (50 <? String.length (lastName u))%nat
  then Some "lastName"
  else None.

(** The three assignments of the verify-otp route:
    [isEmailVerified = true; otp = undefined; otpExpiry = undefined]. *)
Definition markVerified (u : t) : t :=
  set_otpExpiry None (set_otp None (set_isEmailVerified true u)).

(** [pre('save')]: a password that is being set is replaced by its hash. *)
Definition preSave (L : Lib) (salt : string) (u : t) : t :=
  match password u with
  | Some p =>
      if (p =? "")%string then u
      else set_password (Some (bcrypt_hash L p salt)) u
  | None => u
  end.

(** [comparePassword], on a document loaded with its password. *)
Definition comparePassword (L : Lib) (u : t) (candidate : string) : bool :=
  match password u with
  | Some h => if (h =? "")%string then false else bcrypt_compare L candidate h
  | None => false
  end.

(** Projections: [select: false] hides [password], [otp] and [otpExpiry]
    from a query unless the query asks for them. *)
Definition selectDefault (u : t) : t :=
  set_password None (set_otp None (set_otpExpiry None u)).

(** [.select('+password')] *)
Definition selectPassword (u : t) : t :=
  set_otp None (set_otpExpiry None u).

(** [.select('+otp +otpExpiry')] *)
Definition selectOtp (u : t) : t := set_password None u.

(** [.select('-password -otp -otpExpiry')] *)
Definition selectPublic (u : t) : t :=
  set_password None (set_otp None (set_otpExpiry None u)).

End User.

(** ** The world a request runs in *)

(** What a rejected promise or a [throw] carries. *)
Inductive Exn :=
| DuplicateKey (index : string)
| ValidationError (path : string)
| CastError
| SignError
| VerifyError (e : JwtError)
| MailError
| GoogleError.

(** What a request leaves behind besides the stored documents. *)
Inductive Event :=
| Inserted (id : string)
| Updated (id : string)
| MailAttempt (to firstName otp : string)
| GoogleVerify (idToken : string)
| ConsoleError (label : string).

(** The users collection, in its natural order, and the events so far,
    oldest first. *)
Record World := mkWorld {
  users : list User.t;
  events : list Event
}.

Definition emit (e : Event) (w : World) : World :=
  mkWorld (users w) (events w ++ [e]).

Module Google.

(** The fields of the ID token payload that the route reads. *)
Record Payload := mkPayload {
  sub : string;
  email : option string;
  given_name : option string;
  family_name : option string;
  picture : option string
}.

(** [verifyIdToken] throws, or gives a ticket whose [getPayload()] may be
    [undefined]. *)
Inductive Ticket :=
| Throws
| Verified (payload : option Payload).

End Google.

(** What the outside decides during one request: the clock, the random
    source, the salt and the ObjectId that are drawn, whether the mail
    server accepts a message, and Google's verdict on an ID token for an
    audience. *)
Module Oracle.
Record t := mk {
  now : Z;
  random : Q;
  salt : string;
  objectId : string;
  mail : bool;
  google : string -> option string -> Google.Ticket
}.
End Oracle.

(** ** Asynchronous code

    A handler is a tree of effects on the world.  Each [Do] node is one
    indivisible effect: an awaited operation on the store, on the mail
    server or on Google, or a line on the console.  Between two effects of
    one request the event loop may run effects of another request. *)

Inductive Task (A : Type) : Type :=
| Ret (a : A)
| Throw (e : Exn)
| Do (X : Type) (op : World -> X * World) (k : X -> Task A).

Arguments Ret {A} a.
Arguments Throw {A} e.
Arguments Do {A X} op k.

Fixpoint bind {A B : Type} (t : Task A) (f : A -> Task B) : Task B :=
  match t with
  | Ret a => f a
  | Throw e => Throw e
  | Do op k => Do op (fun x => bind (k x) f)
  end.

(** [try { t } catch (e) { h e }] *)
Fixpoint catch {A : Type} (t : Task A) (h : Exn -> Task A) : Task A :=
  match t with
  | Ret a => Ret a
  | Throw e => h e
  | Do op k => Do op (fun x => catch (k x) h)
  end.

(** [await p] for a promise that may reject. *)
Definition await {X : Type} (op : World -> (X + Exn) * World) : Task X :=
  Do op (fun r => match r with inl x => Ret x | inr e => Throw e end).

(** [await p] for a promise that resolves. *)
Definition perform {X : Type} (op : World -> X * World) : Task X :=
  Do op (fun x => Ret x).

Notation "x <- t ;; k" := (bind t (fun x => k))
  (at level 61, t at next level, right associativity).

(** A request that runs alone, to its end. *)
Fixpoint run {A : Type} (t : Task A) (w : World) : (A + Exn) * World :=
  match t with
  | Ret a => (inl a, w)
  | Throw e => (inr e, w)
  | Do op k => let (x, w') := op w in run (k x) w'
  end.

(** One effect of a request. *)
Definition step {A : Type} (t : Task A) (w : World) : Task A * World :=
  match t with
  | Do op k => let (x, w') := op w in (k x, w')
  | _ => (t, w)
  end.

(** Two requests in flight.  The schedule says, effect by effect, which
    request the event loop resumes ([true]: the first); when the schedule
    is used up the first request runs to its end, then the second. *)
Fixpoint race {A B : Type} (schedule : list bool) (t1 : Task A) (t2 : Task B)
    (w : World) : (A + Exn) * (B + Exn) * World :=
  match schedule with
  | [] =>
      let (r1, w1) := run t1 w in
      let (r2, w2) := run t2 w1 in
      (r1, r2, w2)
  | true :: rest => let (t1', w') := step t1 w in race rest t1' t2 w'
  | false :: rest => let (t2', w') := step t2 w in race rest t1 t2' w'
  end.

(** ** The store: mongoose on the users collection *)

Module Db.

(** [User.findOne(filter)]: the first document, in natural order, that the
    filter matches. *)
Definition findOne (filter : User.t -> bool) (w : World)
    : option User.t * World :=
  (find filter (users w), w).

(** [User.findById(id)]; an id that is no ObjectId is a cast error. *)
Definition findById (L : Lib) (id : string) (w : World)
    : (option User.t + Exn) * World :=
  if isObjectId L id
  then (inl (find (fun d => (User._id d =? id)%string) (users w)), w)
  else (inr CastError, w).

(** The insert of a new document: [_id] is unique, and so is [email]
    ([unique: true] in the schema). *)
Definition insertOne (u : User.t) (w : World) : (unit + Exn) * World :=
  if existsb (fun d => (User._id d =? User._id u)%string) (users w)
  then (inr (DuplicateKey "_id"), w)
  else if existsb (fun d => (User.email d =? User.email u)%string) (users w)
  then (inr (DuplicateKey "email"), w)
  else (inl tt, emit (Inserted (User._id u)) (mkWorld (users w ++ [u]) (events w))).

(** [user.save()] on a new document: validation, then the [pre('save')]
    hook, then the insert. *)
Definition saveNew (L : Lib) (salt : string) (u : User.t) (w : World)
    : (unit + Exn) * World :=
  match User.validate u with
  | Some path => (inr (ValidationError path), w)
  | None => insertOne (User.preSave L salt u) w
  end.

(** [user.save()] on a document that was loaded and then assigned to:
    the modified paths are written to the stored document of that [_id]. *)
Definition saveModified (id : string) (assign : User.t -> User.t) (w : World)
    : unit * World :=
  (tt, emit (Updated id)
         (mkWorld (map (fun d => if (User._id d =? id)%string then assign d else d)
                       (users w))
                  (events w))).

End Db.

(** ** [utils/jwt.ts] *)

Definition generateToken (L : Lib) (env : Env.t) (now : Z) (user : User.t)
    : option string :=
  let secret := JS.orElse (Env.JWT_SECRET env) "default-secret" in
  jsonwebtoken.sign L (User._id user) (User.email user) secret
    (JS.orElse (Env.JWT_EXPIRE env) "7d") now.

Definition verifyToken (L : Lib) (env : Env.t) (now : Z) (token : string)
    : Claims.t + JwtError :=
  let secret := JS.orElse (Env.JWT_SECRET env) "default-secret" in
  jsonwebtoken.verify L token secret now.

(** ** [utils/email.ts] *)

(** [Math.floor(100000 + Math.random() * 900000).toString()], for the
    value [r] that [Math.random()] returns, in exact arithmetic. *)
Definition generateOTP (r : Q) : string :=
  JS.toString (Qfloor (inject_Z 100000 + r * inject_Z 900000)).

(** The rationals that are doubles: [m * 2^e] with a mantissa below [2^53]
    and an exponent from -1074 to 971. *)
Definition binary64 (x : Q) : Prop :=
  exists m e : Z,
    Z.abs m < 2 ^ 53 /\ -1074 <= e <= 971 /\ (x == inject_Z m * 2 ^ e)%Q.

(** [v] is a double nearest to [x]: what a product or a sum of doubles is
    rounded to. *)
Definition nearest (x v : Q) : Prop :=
  binary64 v /\ forall w, binary64 w -> (Qabs (v - x) <= Qabs (w - x))%Q.

(** The same expression as the machine computes it: the product and the
    sum are each rounded to a nearest double; [Math.floor] and [toString]
    are exact. *)
Definition generateOTP_binary64 (r : Q) (code : string) : Prop :=
  exists product sum,
    nearest (r * inject_Z 900000) product
    /\ nearest (inject_Z 100000 + product) sum
    /\ code = JS.toString (Qfloor sum).

(** [sendOTPEmail]: [transporter.sendMail] resolves or rejects. *)
Definition sendOTPEmail (accepted : bool) (email firstName otp : string)
    (w : World) : (unit + Exn) * World :=
  (if accepted then inl tt else inr MailError,
   emit (MailAttempt email firstName otp) w).

(** [console.error(label, error)] *)
Definition consoleError (label : string) : Task unit :=
  perform (fun w => (tt, emit (ConsoleError label) w)).

(** ** Request validation: Joi *)

Module Joi.

Inductive Rule :=
| any_required
| string_empty
| string_email
| string_min (n : nat)
| string_max (n : nat)
| string_length (n : nat).

Definition violates (L : Lib) (s : string) (r : Rule) : bool :=
  match r with
  | string_email => negb (joi_email L s)
  | string_min n => (String.length s <? n)%nat
  | string_max n => (n <? String.length s)%nat
  | string_length n => negb (String.length s =? n)%nat
  | any_required | string_empty => false
  end.

(** [Joi.string()...required()] on one key of the body: the value, or the
    first rule it breaks. *)
Definition string (L : Lib) (rules : list Rule) (v : option string)
    : string + Rule :=
  match v with
  | None => inr any_required
  | Some s =>
      if (s =? "")%string then inr string_empty
      else match find (violates L s) rules with
           | Some r => inr r
           | None => inl s
           end
  end.

End Joi.

(** ** Responses *)

(** The [message] of a response: a literal of the route, or the first
    detail of a Joi error (its key and the rule that failed). *)
Inductive Message :=
| Text (s : string)
| Detail (key : string) (rule : Joi.Rule).

(** The [user] object of a response. *)
Module Profile.
Record t := mk {
  id : string;
  email : string;
  firstName : string;
  lastName : string;
  profilePicture : string;
  isEmailVerified : bool
}.
End Profile.

Inductive Data :=
| Registered (email firstName lastName : string) (isEmailVerified : bool)
| Session (token : string) (user : Profile.t)
| Identity (user : Profile.t).

Module Response.
Record t := mk {
  status : Z;
  success : bool;
  message : option Message;
  data : option Data
}.
End Response.

Definition failure (status : Z) (m : Message) : Response.t :=
  Response.mk status false (Some m) None.

Definition profileOf (u : User.t) : Profile.t :=
  Profile.mk (User._id u) (User.email u) (User.firstName u) (User.lastName u)
    (User.profilePicture u) (User.isEmailVerified u).

(** ** [middleware/auth.ts] *)

(** The middleware answers the request itself, or sets [req.user] and
    calls [next()]. *)
Inductive Gate :=
| Rejected (r : Response.t)
| Next (user : User.t).

Definition noToken : Gate :=
  Rejected (failure 401 (Text "Access denied. No token provided.")).

Definition authenticate (L : Lib) (env : Env.t) (o : Oracle.t)
    (authHeader : option string) : Task Gate :=
  catch
    (match authHeader with
     | None => Ret noToken
     | Some header =>
         if (header =? "")%string || negb (JS.startsWith header "Bearer ")
         then Ret noToken
         else
           let token := JS.substring 7 header in
           catch
             (match verifyToken L env (Oracle.now o) token with
              | inr e => Throw (VerifyError e)
              | inl decoded =>
                  found <- await (Db.findById L (Claims.userId decoded)) ;;
                  match found with
                  | None =>
                      Ret (Rejected (failure 401
                             (Text "Token is not valid - user not found.")))
                  | Some user => Ret (Next (User.selectPublic user))
                  end
              end)
             (fun tokenError =>
                Ret (Rejected (failure 401 (Text "Token is not valid."))))
     end)
    (fun error =>
       _ <- consoleError "Authentication middleware error:" ;;
       Ret (Rejected (failure 500 (Text "Server error in authentication.")))).

(** ** [routes/auth.ts] *)

(** The JSON bodies.  A key is absent or holds a string; Joi rejects any
    other value, and the resend route, which has no schema, is modelled on
    strings only. *)
Module Body.
Record Signup := mkSignup {
  s_email : option string;
  s_password : option string;
  s_firstName : option string;
  s_lastName : option string
}.
Record Login := mkLogin {
  l_email : option string;
  l_password : option string
}.
Record Otp := mkOtp {
  o_email : option string;
  o_otp : option string
}.
Record GoogleAuth := mkGoogleAuth {
  g_token : option string
}.
Record Resend := mkResend {
  r_email : option string
}.
End Body.

(** The schemas.  Joi checks the keys in the order of the schema and
    reports the first error. *)
Definition signupSchema (L : Lib) (b : Body.Signup)
    : (string * string * string * string) + Message :=
  match Joi.string L [Joi.string_email] (Body.s_email b) with
  | inr r => inr (Detail "email" r)
  | inl email =>
  match Joi.string L [Joi.string_min 6] (Body.s_password b) with
  | inr r => inr (Detail "password" r)
  | inl password =>
  match Joi.string L [Joi.string_min 1; Joi.string_max 50] (Body.s_firstName b) with
  | inr r => inr (Detail "firstName" r)
  | inl firstName =>
  match Joi.string L [Joi.string_min 1; Joi.string_max 50] (Body.s_lastName b) with
  | inr r => inr (Detail "lastName" r)
  | inl lastName => inl (email, password, firstName, lastName)
  end end end end.

Definition loginSchema (L : Lib) (b : Body.Login) : (string * string) + Message :=
  match Joi.string L [Joi.string_email] (Body.l_email b) with
  | inr r => inr (Detail "email" r)
  | inl email =>
  match Joi.string L [] (Body.l_password b) with
  | inr r => inr (Detail "password" r)
  | inl password => inl (email, password)
  end end.

Definition otpSchema (L : Lib) (b : Body.Otp) : (string * string) + Message :=
  match Joi.string L [Joi.string_email] (Body.o_email b) with
  | inr r => inr (Detail "email" r)
  | inl email =>
  match Joi.string L [Joi.string_length 6] (Body.o_otp b) with
  | inr r => inr (Detail "otp" r)
  | inl otp => inl (email, otp)
  end end.

Definition googleAuthSchema (L : Lib) (b : Body.GoogleAuth) : string + Message :=
  match Joi.string L [] (Body.g_token b) with
  | inr r => inr (Detail "token" r)
  | inl token => inl token
  end.

(** Filters.  Mongoose casts the value of a filter with the setters of the
    path, so an [email] is compared in lower case. *)
Definition byEmail (email : string) (d : User.t) : bool :=
  (User.email d =? JS.toLowerCase email)%string.

Definition optEq (v : option string) (s : string) : bool :=
  match v with
  | Some x => (x =? s)%string
  | None => false
  end.

(** [{ email, otp, otpExpiry: { $gt: now }, isEmailVerified: false }] *)
Definition pendingOtp (email otp : string) (now : Z) (d : User.t) : bool :=
  byEmail email d
  && optEq (User.otp d) otp
  && match User.otpExpiry d with
     | Some expiry => now <? expiry
     | None => false
     end
  && negb (User.isEmailVerified d).

(** [{ $or: [{ email }, { googleId }] }] *)
Definition byEmailOrGoogleId (email googleId : string) (d : User.t) : bool :=
  byEmail email d || optEq (User.googleId d) googleId.

(** [{ email, isEmailVerified: false }] *)
Definition unverified (email : string) (d : User.t) : bool :=
  byEmail email d && negb (User.isEmailVerified d).

(** [generateToken(user)] inside a handler: a [throw] of [jwt.sign] is an
    exception of the handler. *)
Definition issue (L : Lib) (env : Env.t) (o : Oracle.t) (user : User.t)
    : Task string :=
  match generateToken L env (Oracle.now o) user with
  | Some token => Ret token
  | None => Throw SignError
  end.

(** [POST /api/auth/signup] *)
Definition signup (L : Lib) (o : Oracle.t) (body : Body.Signup)
    : Task Response.t :=
  catch
    (match signupSchema L body with
     | inr m => Ret (failure 400 m)
     | inl (email, password, firstName, lastName) =>
         existingUser <- perform (Db.findOne (byEmail email)) ;;
         match existingUser with
         | Some _ =>
             Ret (failure 400 (Text "User already exists with this email"))
         | None =>
             let otp := generateOTP (Oracle.random o) in
             let otpExpiry := Oracle.now o + 10 * 60 * 1000 in
             let user :=
               User.create (Oracle.objectId o) email (Some password)
                 firstName lastName false None "" (Some otp) (Some otpExpiry) in
             _ <- await (Db.saveNew L (Oracle.salt o) user) ;;
             _ <- catch (await (sendOTPEmail (Oracle.mail o) email firstName otp))
                    (fun emailError => consoleError "Email sending failed:") ;;
             Ret (Response.mk 201 true
                    (Some (Text "User registered successfully. Please check your email for OTP verification."))
                    (Some (Registered email firstName lastName false)))
         end
     end)
    (fun error =>
       _ <- consoleError "Signup error:" ;;
       Ret (failure 500 (Text "Server error during signup"))).

(** [POST /api/auth/verify-otp] *)
Definition verifyOtp (L : Lib) (env : Env.t) (o : Oracle.t) (body : Body.Otp)
    : Task Response.t :=
  catch
    (match otpSchema L body with
     | inr m => Ret (failure 400 m)
     | inl (email, otp) =>
         found <- perform (Db.findOne (pendingOtp email otp (Oracle.now o))) ;;
         match found with
         | None => Ret (failure 400 (Text "Invalid or expired OTP"))
         | Some stored =>
             let user := User.markVerified (User.selectOtp stored) in
             _ <- perform (Db.saveModified (User._id user) User.markVerified) ;;
             token <- issue L env o user ;;
             Ret (Response.mk 200 true
                    (Some (Text "Email verified successfully"))
                    (Some (Session token (profileOf user))))
         end
     end)
    (fun error =>
       _ <- consoleError "OTP verification error:" ;;
       Ret (failure 500 (Text "Server error during OTP verification"))).

(** [POST /api/auth/login] *)
Definition login (L : Lib) (env : Env.t) (o : Oracle.t) (body : Body.Login)
    : Task Response.t :=
  catch
    (match loginSchema L body with
     | inr m => Ret (failure 400 m)
     | inl (email, password) =>
         found <- perform (Db.findOne (byEmail email)) ;;
         match found with
         | None => Ret (failure 401 (Text "Invalid credentials"))
         | Some stored =>
             let user := User.selectPassword stored in
             if negb (User.isEmailVerified user)
             then Ret (failure 401
                         (Text "Please verify your email before logging in"))
             else if negb (User.comparePassword L user password)
             then Ret (failure 401 (Text "Invalid credentials"))
             else
               token <- issue L env o user ;;
               Ret (Response.mk 200 true (Some (Text "Login successful"))
                      (Some (Session token (profileOf user))))
         end
     end)
    (fun error =>
       _ <- consoleError "Login error:" ;;
       Ret (failure 500 (Text "Server error during login"))).

(** The lookup, link and creation that both branches of the Google route
    spell out: find by email or Google id; stamp the Google id on an
    account that has none; create the account when none is found. *)
Definition linkOrCreate (L : Lib) (o : Oracle.t)
    (googleId email firstName : string) (lastName picture : option string)
    : Task User.t :=
  found <- perform (Db.findOne (byEmailOrGoogleId email googleId)) ;;
  match found with
  | Some stored =>
      let user := User.selectDefault stored in
      if JS.falsy (User.googleId user)
      then
        let assign u :=
          User.set_isEmailVerified true (User.set_googleId (Some googleId) u) in
        _ <- perform (Db.saveModified (User._id user) assign) ;;
        Ret (assign user)
      else Ret user
  | None =>
      let user :=
        User.create (Oracle.objectId o) email None firstName
          (JS.orElse lastName "") true (Some googleId)
          (JS.orElse picture "") None None in
      _ <- await (Db.saveNew L (Oracle.salt o) user) ;;
      Ret user
  end.

(** The payload of the development branch of the Google route. *)
Definition mockGoogleId : string := "dev_google_id_123".
Definition mockEmail : string := "test@gmail.com".
Definition mockPicture : string :=
  "https://ui-avatars.com/api/?name=Test+User&background=4285f4&color=fff".

Definition mockToken : string := "mock_google_token_for_development".

(** [googleClient.verifyIdToken({ idToken, audience })] *)
Definition verifyIdToken (o : Oracle.t) (idToken : string)
    (audience : option string) (w : World)
    : (option Google.Payload + Exn) * World :=
  (match Oracle.google o idToken audience with
   | Google.Throws => inr GoogleError
   | Google.Verified p => inl p
   end,
   emit (GoogleVerify idToken) w).

(** [POST /api/auth/google].  After [save()] a document is no longer
    [isNew], so the message of the production branch is always the second
    one. *)
Definition google (L : Lib) (env : Env.t) (o : Oracle.t)
    (body : Body.GoogleAuth) : Task Response.t :=
  catch
    (match googleAuthSchema L body with
     | inr m => Ret (failure 400 m)
     | inl googleToken =>
         if (googleToken =? mockToken)%string
            && JS.strictEq (Env.NODE_ENV env) "development"
         then
           user <- linkOrCreate L o mockGoogleId mockEmail "Test"
                     (Some "User") (Some mockPicture) ;;
           jwtToken <- issue L env o user ;;
           Ret (Response.mk 200 true
                  (Some (Text "Development Google login successful"))
                  (Some (Session jwtToken (profileOf user))))
         else
           payload <- await (verifyIdToken o googleToken
                               (Env.GOOGLE_CLIENT_ID env)) ;;
           match payload with
           | None => Ret (failure 401 (Text "Invalid Google token"))
           | Some p =>
               if JS.falsy (Google.email p) || JS.falsy (Google.given_name p)
                  || JS.falsy (Google.family_name p)
               then Ret (failure 400
                           (Text "Incomplete Google profile information"))
               else
                 user <- linkOrCreate L o (Google.sub p)
                           (JS.orElse (Google.email p) "")
                           (JS.orElse (Google.given_name p) "")
                           (Google.family_name p) (Google.picture p) ;;
                 token <- issue L env o user ;;
                 let isNew := false in
                 Ret (Response.mk 200 true
                        (Some (Text (if isNew : bool
                                     then "Account created successfully with Google"
                                     else "Login successful")))
                        (Some (Session token (profileOf user))))
           end
     end)
    (fun error =>
       _ <- consoleError "Google auth error:" ;;
       Ret (failure 500 (Text "Server error during Google authentication"))).

(** [GET /api/auth/me], behind [authenticate]. *)
Definition me (L : Lib) (env : Env.t) (o : Oracle.t)
    (authHeader : option string) : Task Response.t :=
  gate <- authenticate L env o authHeader ;;
  match gate with
  | Rejected r => Ret r
  | Next user => Ret (Response.mk 200 true None (Some (Identity (profileOf user))))
  end.

(** [POST /api/auth/resend-otp] *)
Definition resendOtp (L : Lib) (o : Oracle.t) (body : Body.Resend)
    : Task Response.t :=
  catch
    (if JS.falsy (Body.r_email body)
     then Ret (failure 400 (Text "Email is required"))
     else
       let email := JS.orElse (Body.r_email body) "" in
       found <- perform (Db.findOne (unverified email)) ;;
       match found with
       | None => Ret (failure 404 (Text "User not found or already verified"))
       | Some stored =>
           let user := User.selectDefault stored in
           let otp := generateOTP (Oracle.random o) in
           let otpExpiry := Oracle.now o + 10 * 60 * 1000 in
           let assign u :=
             User.set_otpExpiry (Some otpExpiry) (User.set_otp (Some otp) u) in
           _ <- perform (Db.saveModified (User._id user) assign) ;;
           catch
             (_ <- await (sendOTPEmail (Oracle.mail o) email
                            (User.firstName user) otp) ;;
              Ret (Response.mk 200 true (Some (Text "OTP sent successfully")) None))
             (fun emailError =>
                _ <- consoleError "Email sending failed:" ;;
                Ret (failure 500 (Text "Failed to send OTP email")))
       end)
    (fun error =>
       _ <- consoleError "Resend OTP error:" ;;
       Ret (failure 500 (Text "Server error while resending OTP"))).

(** ** A small instance of the packages, to run the handlers on examples *)

Module Toy.

(** A token serialisation that can be read back: a string is written as
    its characters, each after a colon, and closed by a full stop; a
    number as its binary digits. *)
Fixpoint putString (s : string) (rest : string) : string :=
  match s with
  | EmptyString => String "." rest
  | String c s' => String ":" (String c (putString s' rest))
  end.

Fixpoint getString (s : string) : option (string * string) :=
  match s with
  | String "." rest => Some (EmptyString, rest)
  | String ":" (String c s') =>
      match getString s' with
      | Some (v, rest) => Some (String c v, rest)
      | None => None
      end
  | _ => None
  end.

Fixpoint putPositive (p : positive) (rest : string) : string :=
  match p with
  | xH => String "H" rest
  | xO q => String "O" (putPositive q rest)
  | xI q => String "I" (putPositive q rest)
  end.

Fixpoint getPositive (s : string) : option (positive * string) :=
  match s with
  | String "H" rest => Some (xH, rest)
  | String "O" s' =>
      match getPositive s' with
      | Some (q, rest) => Some (xO q, rest)
      | None => None
      end
  | String "I" s' =>
      match getPositive s' with
      | Some (q, rest) => Some (xI q, rest)
      | None => None
      end
  | _ => None
  end.

Definition putZ (z : Z) (rest : string) : string :=
  match z with
  | Z0 => String "0" rest
  | Zpos p => String "+" (putPositive p rest)
  | Zneg p => String "-" (putPositive p rest)
  end.

Definition getZ (s : string) : option (Z * string) :=
  match s with
  | String "0" rest => Some (Z0, rest)
  | String "+" s' =>
      match getPositive s' with
      | Some (p, rest) => Some (Zpos p, rest)
      | None => None
      end
  | String "-" s' =>
      match getPositive s' with
      | Some (p, rest) => Some (Zneg p, rest)
      | None => None
      end
  | _ => None
  end.

Definition putExp (e : option Z) (rest : string) : string :=
  match e with
  | None => String "n" rest
  | Some z => String "e" (putZ z rest)
  end.

Definition getExp (s : string) : option (option Z * string) :=
  match s with
  | String "n" rest => Some (None, rest)
  | String "e" s' =>
      match getZ s' with
      | Some (z, rest) => Some (Some z, rest)
      | None => None
      end
  | _ => None
  end.

Definition encode (j : Jwt.t) : string :=
  let c := Jwt.claims j in
  putString (Claims.userId c)
    (putString (Claims.email c)
       (putZ (Claims.iat c)
          (putExp (Claims.exp c)
             (putString (Jwt.signature j) "")))).

Definition decode (s : string) : option Jwt.t :=
  match getString s with
  | None => None
  | Some (userId, s1) =>
  match getString s1 with
  | None => None
  | Some (email, s2) =>
  match getZ s2 with
  | None => None
  | Some (iat, s3) =>
  match getExp s3 with
  | None => None
  | Some (exp, s4) =>
  match getString s4 with
  | Some (signature, EmptyString) =>
      Some (Jwt.mk (Claims.mk userId email iat exp) signature)
  | _ => None
  end end end end end.

Definition hasAt (s : string) : bool :=
  match String.index 0 "@" s with
  | Some _ => true
  | None => false
  end.

Definition span (s : string) : option Z :=
  if (s =? "7d")%string then Some 604800000
  else if (s =? "1h")%string then Some 3600000
  else None.

Definition lib : Lib :=
  mkLib hasAt
    (fun password salt => salt ++ "$" ++ password)
    (fun candidate hash =>
       match String.index 0 "$" hash with
       | Some n => (JS.substring (S n) hash =? candidate)%string
       | None => false
       end)
    (fun secret c => secret ++ "/" ++ Claims.userId c ++ "/" ++ Claims.email c)
    encode decode span
    (fun id => negb (id =? "")%string).

Definition env : Env.t := Env.mk None None None None.

Definition development : Env.t := Env.mk None None (Some "development") None.

Definition oracle (now : Z) (objectId : string) (mail : bool) : Oracle.t :=
  Oracle.mk now (1 # 2) "salt" objectId mail (fun _ _ => Google.Throws).

Definition empty : World := mkWorld [] [].

End Toy.

(** ** The ways a token fails, in the words of the Token Service *)




(** ** Example accounts and stores *)

Module Sample.

(** A verified account with a password. *)
Definition alice : User.t :=
  User.mk "u1" "a@x.com" (Some "salt$secret1") "A" "B" true None "" None None.

(** An account that waits for its code, issued at instant 100000. *)
Definition bob : User.t :=
  User.mk "u2" "b@x.com" (Some "salt$secret2") "Bo" "B" false None ""
    (Some "123456") (Some 700000).

Definition world : World := mkWorld [alice; bob] [].

(** A token of [alice], issued at instant 5000 by an unconfigured process. *)
Definition aliceToken : string :=
  Toy.encode (Jwt.mk (Claims.mk "u1" "a@x.com" 5 (Some 604805))
                "default-secret/u1/a@x.com").

End Sample.

(** ** The conditions of the OTP Issuer, in the words of the spec *)



(** The document that the signup route builds for a validated body. *)
Definition signupDocument (o : Oracle.t) (email password firstName lastName : string)
    : User.t :=
  User.create (Oracle.objectId o) email (Some password) firstName lastName
    false None "" (Some (generateOTP (Oracle.random o)))
    (Some (Oracle.now o + 10 * 60 * 1000)).

Definition registered (email firstName lastName : string) : Response.t :=
  Response.mk 201 true
    (Some (Text "User registered successfully. Please check your email for OTP verification."))
    (Some (Registered email firstName lastName false)).

(** ** Example requests *)

Module Scenario.

Definition carol : Body.Signup :=
  Body.mkSignup (Some "c@x.com") (Some "secret3") (Some "Carol") (Some "C").

(** Two signup requests for the same email, in flight together. *)
Definition firstSignup : Task Response.t :=
  signup Toy.lib (Toy.oracle 1000 "u3" true) carol.

Definition secondSignup : Task Response.t :=
  signup Toy.lib (Toy.oracle 1001 "u4" true) carol.

(** A request to the Google route whose ID token Google verifies with the
    given payload. *)
Definition googleLogin (now : Z) (objectId : string) (p : Google.Payload)
    : Task Response.t :=
  google Toy.lib Toy.env
    (Oracle.mk now (1 # 2) "salt" objectId true
       (fun _ _ => Google.Verified (Some p)))
    (Body.mkGoogleAuth (Some "id-token")).

(** The Google subject [g1], first with the address [d@x.com], then with
    the address [c@x.com]. *)
Definition g1_at_d : Google.Payload :=
  Google.mkPayload "g1" (Some "d@x.com") (Some "Dee") (Some "Doe") None.

Definition g1_at_c : Google.Payload :=
  Google.mkPayload "g1" (Some "c@x.com") (Some "Dee") (Some "Doe") None.

End Scenario.



(** ** Invariants of the store *)

(** No two accounts have the same email. *)
Definition emailsUnique (w : World) : Prop :=
  NoDup (map User.email (users w)).

(** Every effect of the task keeps the invariant [I]. *)
Fixpoint keeps {A : Type} (I : World -> Prop) (t : Task A) : Prop :=
  match t with
  | Ret _ => True
  | Throw _ => True
  | Do op k => (forall w, I w -> I (snd (op w))) /\ forall x, keeps I (k x)
  end.

(** The store holds an account with this [_id] and this email. *)
Definition holds (id email : string) (w : World) : Prop :=
  exists d, In d (users w) /\ User._id d = id /\ User.email d = email.

(** The task cannot return a [good] result before one of its effects has
    made [Q] true. *)
Fixpoint guarded {A : Type} (good : A -> Prop) (Q : World -> Prop)
    (t : Task A) : Prop :=
  match t with
  | Ret a => ~ good a
  | Throw _ => True
  | Do op k => forall w, Q (snd (op w)) \/ guarded good Q (k (fst (op w)))
  end.

(** The email an account gets from a signup body. *)
Definition signupEmail (body : Body.Signup) : string :=
  JS.toLowerCase (JS.orElse (Body.s_email body) "").

Definition created (r : Response.t) : Prop := Response.status r = 201.

(** ** The routes of the authentication router *)

(** A request to one of the routes that [routes/auth.ts] registers. *)
Inductive Request :=
| PostSignup (body : Body.Signup)
| PostVerifyOtp (body : Body.Otp)
| PostLogin (body : Body.Login)
| PostGoogle (body : Body.GoogleAuth)
| GetMe (authHeader : option string)
| PostResendOtp (body : Body.Resend).

Definition handle (L : Lib) (env : Env.t) (o : Oracle.t) (r : Request)
    : Task Response.t :=
  match r with
  | PostSignup body => signup L o body
  | PostVerifyOtp body => verifyOtp L env o body
  | PostLogin body => login L env o body
  | PostGoogle body => google L env o body
  | GetMe authHeader => me L env o authHeader
  | PostResendOtp body => resendOtp L o body
  end.

(** ** What the routes do to the accounts *)

(** Every effect of the task takes a world to one that [R] relates to it. *)
Fixpoint effects {A : Type} (R : World -> World -> Prop) (t : Task A) : Prop :=
  match t with
  | Ret _ => True
  | Throw _ => True
  | Do op k => (forall w, R w (snd (op w))) /\ forall x, effects R (k x)
  end.

(** The assignments that a route saves on an account it has loaded. *)
Inductive Assigned (o : Oracle.t) : (User.t -> User.t) -> Prop :=
| assigned_verified : Assigned o User.markVerified
| assigned_google (googleId : string) :
    Assigned o (fun u => User.set_isEmailVerified true
                           (User.set_googleId (Some googleId) u))
| assigned_otp :
    Assigned o (fun u => User.set_otpExpiry (Some (Oracle.now o + 10 * 60 * 1000))
                           (User.set_otp (Some (generateOTP (Oracle.random o))) u)).

(** The two kinds of document that a route creates: the pending account of
    a signup, and the account of a first Google login. *)
Definition newAccount (o : Oracle.t) (u : User.t) : Prop :=
  ((exists p, User.password u = Some p)
   /\ User.isEmailVerified u = false
   /\ User.googleId u = None
   /\ User.otp u = Some (generateOTP (Oracle.random o))
   /\ User.otpExpiry u = Some (Oracle.now o + 10 * 60 * 1000))
  \/ (User.password u = None
      /\ User.isEmailVerified u = true
      /\ (exists g, User.googleId u = Some g)
      /\ User.otp u = None
      /\ User.otpExpiry u = None).

(** One effect of a request on the users collection: nothing, the insert
    of a valid new account under a free email, or one of the assignments on
    the account of an [_id]. *)
Inductive Change (L : Lib) (o : Oracle.t) (l : list User.t)
    : list User.t -> Prop :=
| change_none : Change L o l l
| change_insert (u : User.t) :
    User.validate u = None ->
    (forall d, In d l -> User.email d <> User.email u) ->
    newAccount o u ->
    Change L o l (l ++ [User.preSave L (Oracle.salt o) u])
| change_update (id : string) (f : User.t -> User.t) :
    Assigned o f ->
    Change L o l (map (fun d => if (User._id d =? id)%string then f d else d) l).

(** The fields of an account that no route assigns after its creation. *)
Definition identity (d : User.t)
    : string * string * option string * string * string * string :=
  (User._id d, User.email d, User.password d, User.firstName d,
   User.lastName d, User.profilePicture d).

(** [d'] is a later state of the account [d]: the same identity, and still
    verified if [d] was. *)
Definition evolves (d d' : User.t) : Prop :=
  identity d = identity d'
  /\ (User.isEmailVerified d = true -> User.isEmailVerified d' = true).

(** The accounts of [l] are all in [l'], in their order and each in a
    later state; [l'] may hold new accounts after them. *)
Definition extends (l l' : list User.t) : Prop :=
  exists l1 news, l' = (l1 ++ news)%list /\ Forall2 evolves l l1.

(** A code is stored with its expiry, and an expiry with its code. *)
Definition otpPaired (w : World) : Prop :=
  forall d, In d (users w) -> (User.otp d = None <-> User.otpExpiry d = None).

(** Every stored password is a bcrypt hash of a password of six characters
    or more. *)
Definition passwordsHashed (L : Lib) (w : World) : Prop :=
  forall d h, In d (users w) -> User.password d = Some h ->
    exists p salt, h = bcrypt_hash L p salt /\ (6 <= String.length p)%nat.

(** An account without a password is verified and carries a Google id. *)
Definition passwordlessAreGoogle (w : World) : Prop :=
  forall d, In d (users w) -> User.password d = None ->
    User.isEmailVerified d = true /\ exists g, User.googleId d = Some g.

(** The session of a response was issued, by a request at [o], for an
    account that the world [w] stores with the profile of the response. *)
Definition issuedFor (L : Lib) (env : Env.t) (o : Oracle.t) (w : World)
    (token : string) (profile : Profile.t) : Prop :=
  exists user stored,
    generateToken L env (Oracle.now o) user = Some token
    /\ profile = profileOf user
    /\ In stored (users w)
    /\ User._id stored = User._id user
    /\ profileOf stored = profileOf user.

(** ** The Note model ([models/Note.ts]) *)

Module Note.

Record t := mk {
  _id : string;
  title : string;
  content : string;
  userId : string;
  tags : list string;
  isPinned : bool;
  backgroundColor : string;
  createdAt : Z;
  updatedAt : Z
}.

(** [[A-Fa-f0-9]] *)
Definition isHex (c : ascii) : bool :=
  Regex.between 65 70 c || Regex.between 97 102 c || Regex.between 48 57 c.

Definition hex : Regex.t := Regex.Chr isHex.

(** The [match] pattern of [backgroundColor], which is also the pattern of
    the Joi schemas: [/^#([A-Fa-f0-9]{6}|[A-Fa-f0-9]{3})$/]. *)
Definition colorPattern : Regex.t :=
  let three := Regex.Cat hex (Regex.Cat hex hex) in
  Regex.Cat (Regex.Chr (Regex.char "#"))
    (Regex.Alt (Regex.Cat three three) three).

(** [new Note({ title, content, tags, backgroundColor, userId })], saved at
    [now]: [trim] runs on the title and on each tag, [isPinned] takes its
    default, and the timestamps are those of the save. *)
Definition create (id title content userId : string) (tags : list string)
    (backgroundColor : string) (now : Z) : t :=
  mk id (JS.trim title) content userId (map JS.trim tags) false
     backgroundColor now now.

(** The validators of the schema; [None] when all pass, otherwise the
    first path that fails.  [required] fails on the empty string;
    [maxlength] and [match] pass on it.  The routes always set [userId],
    from [req.user], so that its [required] has nothing to refuse. *)
Definition validTitle (s : string) : bool :=
  negb (s =? "")%string && (String.length s <=? 200)%nat.

Definition validContent (s : string) : bool :=
  negb (s =? "")%string && (String.length s <=? 10000)%nat.

Definition validTags (l : list string) : bool :=
  forallb (fun tag => (String.length tag <=? 30)%nat) l.

Definition validColor (s : string) : bool :=
  (s =? "")%string || Regex.test colorPattern s.

Definition validate (n : t) : option string :=
  if negb (validTitle (title n)) then Some "title"
  else if negb (validContent (content n)) then Some "content"
  else if negb (validTags (tags n)) then Some "tags"
  else if negb (validColor (backgroundColor n)) then Some "backgroundColor"
  else None.

(** The paths that an update sets, as Joi hands them over. *)
Record Update := mkUpdate {
  u_title : option string;
  u_content : option string;
  u_tags : option (list string);
  u_backgroundColor : option string;
  u_isPinned : option bool
}.

Definition orKeep {A : Type} (v : option A) (old : A) : A :=
  match v with
  | Some x => x
  | None => old
  end.

(** [{ $set: { ...value, updatedAt } }] on a stored note; the setters of
    the schema run on the values of an update as they do on a new
    document. *)
Definition assign (u : Update) (now : Z) (n : t) : t :=
  mk (_id n)
     (orKeep (option_map JS.trim (u_title u)) (title n))
     (orKeep (u_content u) (content n))
     (userId n)
     (orKeep (option_map (map JS.trim) (u_tags u)) (tags n))
     (orKeep (u_isPinned u) (isPinned n))
     (orKeep (u_backgroundColor u) (backgroundColor n))
     (createdAt n)
     now.

Definition checks {A : Type} (valid : A -> bool) (v : option A) : bool :=
  match v with
  | Some x => valid x
  | None => true
  end.

(** [runValidators: true]: the validators of the paths that the update
    sets, on the values after the setters. *)
Definition validateUpdate (u : Update) : option string :=
  if negb (checks validTitle (option_map JS.trim (u_title u))) then Some "title"
  else if negb (checks validContent (u_content u)) then Some "content"
  else if negb (checks validTags (option_map (map JS.trim) (u_tags u)))
  then Some "tags"
  else if negb (checks validColor (u_backgroundColor u))
  then Some "backgroundColor"
  else None.

(** [note.isPinned = !note.isPinned], saved at [now]. *)
Definition toggle (now : Z) (n : t) : t :=
  mk (_id n) (title n) (content n) (userId n) (tags n) (negb (isPinned n))
     (backgroundColor n) (createdAt n) now.

End Note.

(** The two collections, and the console. *)
Record Store := mkStore {
  accounts : World;
  notes : list Note.t
}.

(** ** [routes/notes.ts]

    The five routes that read or write one note.  The list route and the
    statistics route rest on the text index, the sort order and the
    aggregation pipeline of MongoDB, and are not part of this model. *)

Module Notes.

(** The path of a Joi error: a key of the body, or an item of an array. *)
Inductive Key :=
| Field (name : string)
| Item (name : string) (index : nat).

Inductive Issue :=
| Broken (rule : Joi.Rule)
| string_pattern_base
| object_min (n : nat).

Inductive Message :=
| Text (s : string)
| Detail (key : Key) (issue : Issue).

Record Response := mk {
  status : Z;
  success : bool;
  message : option Message;
  data : option Note.t
}.

Definition failure (status : Z) (text : string) : Response :=
  mk status false (Some (Text text)) None.

Definition rejected (key : Key) (issue : Issue) : Response :=
  mk 400 false (Some (Detail key issue)) None.

(** The JSON bodies: a key is absent or holds a value of the type that its
    schema names. *)
Record CreateBody := mkCreateBody {
  c_title : option string;
  c_content : option string;
  c_tags : option (list string);
  c_backgroundColor : option string
}.

Record UpdateBody := mkUpdateBody {
  p_title : option string;
  p_content : option string;
  p_tags : option (list string);
  p_backgroundColor : option string;
  p_isPinned : option bool
}.

(** A key that is not required: absent, or a string that keeps the rules. *)
Definition optional (L : Lib) (rules : list Joi.Rule) (v : option string)
    : option string + Joi.Rule :=
  match v with
  | None => inl None
  | Some s =>
      match Joi.string L rules (Some s) with
      | inl x => inl (Some x)
      | inr r => inr r
      end
  end.

(** [Joi.array().items(Joi.string().max(30))]: the first item that breaks
    a rule, with its index. *)
Fixpoint items (L : Lib) (rules : list Joi.Rule) (index : nat)
    (l : list string) : option (nat * Joi.Rule) :=
  match l with
  | [] => None
  | x :: rest =>
      match Joi.string L rules (Some x) with
      | inr r => Some (index, r)
      | inl _ => items L rules (S index) rest
      end
  end.

Definition tagList (L : Lib) (v : option (list string))
    : option (list string) + Response :=
  match v with
  | None => inl None
  | Some l =>
      match items L [Joi.string_max 30] 0 l with
      | Some (i, r) => inr (rejected (Item "tags" i) (Broken r))
      | None => inl (Some l)
      end
  end.

(** [Joi.string().pattern(...)] *)
Definition color (L : Lib) (v : option string) : option string + Response :=
  match optional L [] v with
  | inr r => inr (rejected (Field "backgroundColor") (Broken r))
  | inl None => inl None
  | inl (Some s) =>
      if Regex.test Note.colorPattern s then inl (Some s)
      else inr (rejected (Field "backgroundColor") string_pattern_base)
  end.

(** The schemas.  Joi checks the keys in the order of the schema, then the
    rules of the object, and reports the first error. *)
Definition createNoteSchema (L : Lib) (b : CreateBody)
    : (string * string * list string * string) + Response :=
  match Joi.string L [Joi.string_min 1; Joi.string_max 200] (c_title b) with
  | inr r => inr (rejected (Field "title") (Broken r))
  | inl title =>
  match Joi.string L [Joi.string_min 1; Joi.string_max 10000] (c_content b) with
  | inr r => inr (rejected (Field "content") (Broken r))
  | inl content =>
  match tagList L (c_tags b) with
  | inr response => inr response
  | inl tags =>
  match color L (c_backgroundColor b) with
  | inr response => inr response
  | inl backgroundColor =>
      inl (title, content, Note.orKeep tags [],
           Note.orKeep backgroundColor "#ffffff")
  end end end end.

Definition updateNoteSchema (L : Lib) (b : UpdateBody)
    : Note.Update + Response :=
  match optional L [Joi.string_min 1; Joi.string_max 200] (p_title b) with
  | inr r => inr (rejected (Field "title") (Broken r))
  | inl title =>
  match optional L [Joi.string_min 1; Joi.string_max 10000] (p_content b) with
  | inr r => inr (rejected (Field "content") (Broken r))
  | inl content =>
  match tagList L (p_tags b) with
  | inr response => inr response
  | inl tags =>
  match color L (p_backgroundColor b) with
  | inr response => inr response
  | inl backgroundColor =>
      match title, content, tags, backgroundColor, p_isPinned b with
      | None, None, None, None, None =>
          inr (rejected (Field "value") (object_min 1))
      | _, _, _, _, _ =>
          inl (Note.mkUpdate title content tags backgroundColor (p_isPinned b))
      end
  end end end end.

(** [{ _id: id, userId }] *)
Definition owned (id userId : string) (n : Note.t) : bool :=
  (Note._id n =? id)%string && (Note.userId n =? userId)%string.

(** [Note.findOne({ _id: id, userId })]; an id that is no ObjectId is a
    cast error. *)
Definition findOne (L : Lib) (id userId : string) (l : list Note.t)
    : option Note.t + Exn :=
  if isObjectId L id then inl (find (owned id userId) l) else inr CastError.

(** The write of an update or of a delete goes to the first document that
    the filter matches. *)
Fixpoint updateFirst (f : Note.t -> bool) (g : Note.t -> Note.t)
    (l : list Note.t) : list Note.t :=
  match l with
  | [] => []
  | n :: rest => if f n then g n :: rest else n :: updateFirst f g rest
  end.

Fixpoint removeFirst (f : Note.t -> bool) (l : list Note.t) : list Note.t :=
  match l with
  | [] => []
  | n :: rest => if f n then rest else n :: removeFirst f rest
  end.

(** [note.save()] on a new note: validation, then the insert under the
    unique index of [_id]. *)
Definition saveNew (n : Note.t) (l : list Note.t) : list Note.t + Exn :=
  match Note.validate n with
  | Some path => inr (ValidationError path)
  | None =>
      if existsb (fun d => (Note._id d =? Note._id n)%string) l
      then inr (DuplicateKey "_id")
      else inl (l ++ [n])%list
  end.

(** [console.error(label, error)] *)
Definition log (label : string) (s : Store) : Store :=
  mkStore (emit (ConsoleError label) (accounts s)) (notes s).

(** The [catch] block of the routes that take an id: a cast error is
    answered 400, any other error 500. *)
Definition caught (label serverError : string) (e : Exn) (s : Store)
    : Response * Store :=
  (match e with
   | CastError => failure 400 "Invalid note ID"
   | _ => failure 500 serverError
   end,
   log label s).

Definition notFound : Response := failure 404 "Note not found".

(** [GET /api/notes/:id] *)
Definition getNote (L : Lib) (user : User.t) (id : string) (s : Store)
    : Response * Store :=
  match findOne L id (User._id user) (notes s) with
  | inr e => caught "Get note error:" "Server error while fetching note" e s
  | inl None => (notFound, s)
  | inl (Some note) => (mk 200 true None (Some note), s)
  end.

(** [POST /api/notes] *)
Definition createNote (L : Lib) (o : Oracle.t) (user : User.t)
    (body : CreateBody) (s : Store) : Response * Store :=
  match createNoteSchema L body with
  | inr response => (response, s)
  | inl (title, content, tags, backgroundColor) =>
      let note :=
        Note.create (Oracle.objectId o) title content (User._id user) tags
          backgroundColor (Oracle.now o) in
      match saveNew note (notes s) with
      | inr e =>
          (failure 500 "Server error while creating note",
           log "Create note error:" s)
      | inl stored =>
          (mk 201 true (Some (Text "Note created successfully")) (Some note),
           mkStore (accounts s) stored)
      end
  end.

(** [PUT /api/notes/:id].  [findOneAndUpdate] casts the filter, then runs
    the validators of the update, then writes to the first note that the
    filter matches and resolves to that note as written. *)
Definition updateNote (L : Lib) (o : Oracle.t) (user : User.t) (id : string)
    (body : UpdateBody) (s : Store) : Response * Store :=
  match updateNoteSchema L body with
  | inr response => (response, s)
  | inl value =>
      let label := "Update note error:" in
      let serverError := "Server error while updating note" in
      if negb (isObjectId L id) then caught label serverError CastError s
      else
        match Note.validateUpdate value with
        | Some path => caught label serverError (ValidationError path) s
        | None =>
            match find (owned id (User._id user)) (notes s) with
            | None => (notFound, s)
            | Some note =>
                (mk 200 true (Some (Text "Note updated successfully"))
                   (Some (Note.assign value (Oracle.now o) note)),
                 mkStore (accounts s)
                   (updateFirst (owned id (User._id user))
                      (Note.assign value (Oracle.now o)) (notes s)))
            end
        end
  end.

(** [DELETE /api/notes/:id] *)
Definition deleteNote (L : Lib) (user : User.t) (id : string) (s : Store)
    : Response * Store :=
  match findOne L id (User._id user) (notes s) with
  | inr e => caught "Delete note error:" "Server error while deleting note" e s
  | inl None => (notFound, s)
  | inl (Some _) =>
      (mk 200 true (Some (Text "Note deleted successfully")) None,
       mkStore (accounts s) (removeFirst (owned id (User._id user)) (notes s)))
  end.

(** [PATCH /api/notes/:id/pin].  The note is loaded, toggled and saved:
    [save()] validates the document and writes the modified path, with the
    timestamp, to the stored note of that [_id]. *)
Definition togglePin (L : Lib) (o : Oracle.t) (user : User.t) (id : string)
    (s : Store) : Response * Store :=
  let label := "Toggle pin error:" in
  let serverError := "Server error while toggling pin status" in
  match findOne L id (User._id user) (notes s) with
  | inr e => caught label serverError e s
  | inl None => (notFound, s)
  | inl (Some loaded) =>
      let note := Note.toggle (Oracle.now o) loaded in
      match Note.validate note with
      | Some path => caught label serverError (ValidationError path) s
      | None =>
          (mk 200 true
             (Some (Text ("Note " ++ (if Note.isPinned note then "pinned"
                                      else "unpinned") ++ " successfully")))
             (Some note),
           mkStore (accounts s)
             (updateFirst (fun d => (Note._id d =? Note._id note)%string)
                (Note.toggle (Oracle.now o)) (notes s)))
      end
  end.

(** A request to one of these routes, once [authenticate] has let it
    through. *)
Inductive Request :=
| GetNote (id : string)
| PostNote (body : CreateBody)
| PutNote (id : string) (body : UpdateBody)
| DeleteNote (id : string)
| PatchPin (id : string).




End Notes.





(** A string of hex digits. *)
Fixpoint allHex (s : string) : bool :=
  match s with
  | EmptyString => true
  | String c rest => Note.isHex c && allHex rest
  end.

(** The note [n] with its [updatedAt] set to [now], and nothing else
    changed. *)
Definition touched (now : Z) (n : Note.t) : Note.t :=
  Note.mk (Note._id n) (Note.title n) (Note.content n) (Note.userId n)
    (Note.tags n) (Note.isPinned n) (Note.backgroundColor n)
    (Note.createdAt n) now.

(** Example notes: one of [alice], one of [bob]. *)
Module Desk.

Definition groceries : Note.t :=
  Note.mk "n1" "Groceries" "milk, eggs" "u1" ["home"] false "#ffffff"
    1000 1000.

Definition plans : Note.t :=
  Note.mk "n2" "Plans" "a surprise" "u2" [] true "#abc" 2000 2000.

Definition store : Store := mkStore Sample.world [groceries; plans].

End Desk.

(** * Properties *)

(** ** Strings *)

Lemma substring_all (s : string) : String.substring 0 (String.length s) s = s.
Proof. induction s as [|c s IH]; simpl; [reflexivity | now rewrite IH]. Qed.

Lemma bearer_token (token : string) :
  JS.startsWith ("Bearer " ++ token) "Bearer " = true
  /\ JS.substring 7 ("Bearer " ++ token) = token.
Proof.
  split; [reflexivity |].
  unfold JS.substring. simpl. rewrite Nat.sub_0_r. apply substring_all.
Qed.

(** ** The toy serialisation reads back what it writes *)

Lemma getString_putString (s rest : string) :
  Toy.getString (Toy.putString s rest) = Some (s, rest).
Proof. induction s as [|c s IH]; simpl; [reflexivity | now rewrite IH]. Qed.

Lemma getPositive_putPositive (p : positive) (rest : string) :
  Toy.getPositive (Toy.putPositive p rest) = Some (p, rest).
Proof. induction p as [q IH|q IH|]; simpl; try rewrite IH; reflexivity. Qed.

Lemma getZ_putZ (z : Z) (rest : string) : Toy.getZ (Toy.putZ z rest) = Some (z, rest).
Proof. destruct z; simpl; try rewrite getPositive_putPositive; reflexivity. Qed.

Lemma getExp_putExp (e : option Z) (rest : string) :
  Toy.getExp (Toy.putExp e rest) = Some (e, rest).
Proof. destruct e; simpl; try rewrite getZ_putZ; reflexivity. Qed.

Lemma toy_codec : jwt_codec Toy.lib.
Proof.
  intros [[userId email iat exp] signature]; split.
  - simpl. unfold Toy.decode, Toy.encode. simpl.
    rewrite !getString_putString, getZ_putZ, getExp_putExp, getString_putString.
    reflexivity.
  - simpl. unfold Toy.encode. simpl. destruct userId; discriminate.
Defined.

(** ** Tokens *)

Lemma before_expiry (t e : Z) : (e <=? t / 1000) = false <-> t < 1000 * e.
Proof.
  rewrite Z.leb_gt. split; intros H.
  - apply Z.nle_gt; intros Hle. apply Z.div_le_lower_bound in Hle; lia.
  - apply Z.div_lt_upper_bound; lia.
Qed.

Lemma verify_sign (L : Lib) (userId email secret expiresIn token : string)
    (issued span t : Z) :
  jwt_codec L ->
  ms L expiresIn = Some span ->
  jsonwebtoken.sign L userId email secret expiresIn issued = Some token ->
  let e := issued / 1000 + span / 1000 in
  jsonwebtoken.verify L token secret t =
    if e <=? t / 1000 then inr (TokenExpiredError (e * 1000))
    else inl (Claims.mk userId email (issued / 1000) (Some e)).
Proof.
  intros Hcodec Hspan Hsign. unfold jsonwebtoken.sign in Hsign.
  rewrite Hspan in Hsign. injection Hsign as <-.
  unfold jsonwebtoken.verify.
  destruct (Hcodec (Jwt.mk (Claims.mk userId email (issued / 1000)
                             (Some (issued / 1000 + span / 1000)))
                      (hs256 L secret (Claims.mk userId email (issued / 1000)
                             (Some (issued / 1000 + span / 1000))))))
    as [Hdec Hne].
  apply String.eqb_neq in Hne. rewrite Hne, Hdec. simpl.
  rewrite String.eqb_refl. reflexivity.
Qed.





(** C10.  With [JWT_SECRET] unset, [generateToken] signs and [verifyToken]
    checks with the literal ['default-secret'], so every token of such a
    process carries the signature that literal gives, and whoever knows
    the literal can sign claims of their choice that [verifyToken] accepts.
    Under every environment the two functions read the secret through the
    same expression, so they agree on it. *)
Theorem default_secret_fallback (L : Lib) (env : Env.t) :
  Env.JWT_SECRET env = None ->
  (forall (now : Z) (user : User.t),
      generateToken L env now user
      = jsonwebtoken.sign L (User._id user) (User.email user) "default-secret"
          (JS.orElse (Env.JWT_EXPIRE env) "7d") now)
  /\ (forall (now : Z) (token : string),
        verifyToken L env now token
        = jsonwebtoken.verify L token "default-secret" now)
  /\ (forall (now : Z) (user : User.t) (token : string),
        generateToken L env now user = Some token ->
        exists c, token = jwt_encode L (Jwt.mk c (hs256 L "default-secret" c)))
  /\ (forall (now : Z) (c : Claims.t),
        jwt_codec L ->
        Claims.exp c = None ->
        verifyToken L env now
          (jwt_encode L (Jwt.mk c (hs256 L "default-secret" c)))
        = inl c)
  /\ (forall env' : Env.t,
        exists secret,
          (forall (now : Z) (user : User.t),
              generateToken L env' now user
              = jsonwebtoken.sign L (User._id user) (User.email user) secret
                  (JS.orElse (Env.JWT_EXPIRE env') "7d") now)
          /\ (forall (now : Z) (token : string),
                verifyToken L env' now token
                = jsonwebtoken.verify L token secret now)).
Proof.
  intros Hunset. unfold generateToken, verifyToken. rewrite Hunset. simpl.
  split; [reflexivity |]. split; [reflexivity |]. split; [| split].
  - intros now user token. unfold jsonwebtoken.sign.
    destruct (ms L _) as [span|]; [| discriminate].
    intros [= <-]. eexists; reflexivity.
  - intros now c Hcodec Hexp. unfold jsonwebtoken.verify.
    destruct (Hcodec (Jwt.mk c (hs256 L "default-secret" c))) as [Hdec Hne].
    apply String.eqb_neq in Hne. rewrite Hne, Hdec. simpl.
    rewrite String.eqb_refl, Hexp. reflexivity.
  - intros env'. exists (JS.orElse (Env.JWT_SECRET env') "default-secret").
    split; reflexivity.
Qed.

Lemma default_secret_fallback_witness :
  (forall (now : Z) (user : User.t),
      generateToken Toy.lib Toy.env now user
      = jsonwebtoken.sign Toy.lib (User._id user) (User.email user)
          "default-secret" (JS.orElse (Env.JWT_EXPIRE Toy.env) "7d") now)
  /\ (forall (now : Z) (token : string),
        verifyToken Toy.lib Toy.env now token
        = jsonwebtoken.verify Toy.lib token "default-secret" now)
  /\ (forall (now : Z) (user : User.t) (token : string),
        generateToken Toy.lib Toy.env now user = Some token ->
        exists c,
          token = jwt_encode Toy.lib (Jwt.mk c (hs256 Toy.lib "default-secret" c)))
  /\ (forall (now : Z) (c : Claims.t),
        jwt_codec Toy.lib ->
        Claims.exp c = None ->
        verifyToken Toy.lib Toy.env now
          (jwt_encode Toy.lib (Jwt.mk c (hs256 Toy.lib "default-secret" c)))
        = inl c).
Proof.
  destruct (default_secret_fallback Toy.lib Toy.env eq_refl)
    as (Hsign & Hverify & Hconstant & Hforge & _).
  auto.
Defined.

(** ** The gate *)

Lemma authenticate_reads_only (L : Lib) (env : Env.t) (o : Oracle.t)
    (authHeader : option string) (w : World) :
  exists g, run (authenticate L env o authHeader) w = (inl g, w).
Proof.
  unfold authenticate. destruct authHeader as [header|]; [| eexists; reflexivity].
  destruct (_ || _); [eexists; reflexivity |].
  destruct (verifyToken _ _ _ _) as [decoded|e]; [| eexists; reflexivity].
  simpl. unfold Db.findById.
  destruct (isObjectId L _); [| eexists; reflexivity].
  destruct (find _ _); eexists; reflexivity.
Qed.

(** C5.  For a request whose bearer token verifies: when no account has
    the identity of the claims the gate answers 401; when one has, the
    gate attaches that account without its password hash, its otp and its
    otp expiry; and whatever the header, the gate returns the world as it
    found it. *)
Theorem gate_resolves_account (L : Lib) (env : Env.t) (o : Oracle.t)
    (token : string) (decoded : Claims.t) (w : World) :
  verifyToken L env (Oracle.now o) token = inl decoded ->
  ((forall d, In d (users w) -> User._id d <> Claims.userId decoded) ->
   exists r, run (authenticate L env o (Some ("Bearer " ++ token))) w
             = (inl (Rejected r), w)
             /\ Response.status r = 401)
  /\ (forall stored,
        isObjectId L (Claims.userId decoded) = true ->
        find (fun d => (User._id d =? Claims.userId decoded)%string) (users w)
        = Some stored ->
        run (authenticate L env o (Some ("Bearer " ++ token))) w
        = (inl (Next (User.selectPublic stored)), w)
        /\ User._id (User.selectPublic stored) = Claims.userId decoded
        /\ User.password (User.selectPublic stored) = None
        /\ User.otp (User.selectPublic stored) = None
        /\ User.otpExpiry (User.selectPublic stored) = None)
  /\ (forall authHeader,
        snd (run (authenticate L env o authHeader) w) = w).
Proof.
  intros Hv. destruct (bearer_token token) as [Hp Hs].
  assert (Hhead : ("Bearer " ++ token =? "")%string = false) by reflexivity.
  split; [| split].
  - intros Hnone. unfold authenticate. rewrite Hhead, Hp, Hs, Hv. simpl.
    unfold Db.findById.
    destruct (isObjectId L _); [| eexists; split; reflexivity].
    destruct (find _ (users w)) as [d|] eqn:Hf;
      [| eexists; split; reflexivity].
    apply find_some in Hf. destruct Hf as [Hin Heq].
    apply String.eqb_eq in Heq. elim (Hnone d Hin Heq).
  - intros stored Hid Hf. unfold authenticate. rewrite Hhead, Hp, Hs, Hv. simpl.
    unfold Db.findById. rewrite Hid, Hf. split; [reflexivity |].
    apply find_some in Hf. destruct Hf as [_ Heq].
    apply String.eqb_eq in Heq. auto.
  - intros authHeader.
    destruct (authenticate_reads_only L env o authHeader w) as [g ->].
    reflexivity.
Qed.

Lemma gate_resolves_account_witness :
  ((forall d, In d (users Sample.world) -> User._id d <> "u1") ->
   exists r,
     run (authenticate Toy.lib Toy.env (Toy.oracle 6000 "u9" true)
            (Some ("Bearer " ++ Sample.aliceToken))) Sample.world
     = (inl (Rejected r), Sample.world)
     /\ Response.status r = 401)
  /\ (forall stored,
        isObjectId Toy.lib "u1" = true ->
        find (fun d => (User._id d =? "u1")%string) (users Sample.world)
        = Some stored ->
        run (authenticate Toy.lib Toy.env (Toy.oracle 6000 "u9" true)
               (Some ("Bearer " ++ Sample.aliceToken))) Sample.world
        = (inl (Next (User.selectPublic stored)), Sample.world)
        /\ User._id (User.selectPublic stored) = "u1"
        /\ User.password (User.selectPublic stored) = None
        /\ User.otp (User.selectPublic stored) = None
        /\ User.otpExpiry (User.selectPublic stored) = None)
  /\ (forall authHeader,
        snd (run (authenticate Toy.lib Toy.env (Toy.oracle 6000 "u9" true)
                    authHeader) Sample.world)
        = Sample.world).
Proof.
  apply (gate_resolves_account Toy.lib Toy.env (Toy.oracle 6000 "u9" true)
           Sample.aliceToken (Claims.mk "u1" "a@x.com" 5 (Some 604805))
           Sample.world).
  reflexivity.
Defined.

(** ** Queries *)

Lemma find_absent {A : Type} (f : A -> bool) (l : list A) :
  (forall x, In x l -> f x = false) -> find f l = None.
Proof.
  induction l as [|a l IH]; simpl; intros H; [reflexivity |].
  rewrite (H a (or_introl eq_refl)). apply IH. intros x Hx. apply H. now right.
Qed.


Lemma byEmail_true (email : string) (d : User.t) :
  byEmail email d = true <-> User.email d = JS.toLowerCase email.
Proof. unfold byEmail. apply String.eqb_eq. Qed.



(** ** Verification of a code *)




(** The same store accepts the right code once. *)
Example verifyOtp_accepts :
  exists token w',
    run (verifyOtp Toy.lib Toy.env (Toy.oracle 200000 "u9" true)
           (Body.mkOtp (Some "B@x.com") (Some "123456"))) Sample.world
    = (inl (Response.mk 200 true (Some (Text "Email verified successfully"))
              (Some (Session token
                       (Profile.mk "u2" "b@x.com" "Bo" "B" "" true)))), w')
    /\ users w' = [Sample.alice;
                   User.mk "u2" "b@x.com" (Some "salt$secret2") "Bo" "B" true
                     None "" None None]
    /\ run (verifyOtp Toy.lib Toy.env (Toy.oracle 200001 "u9" true)
              (Body.mkOtp (Some "B@x.com") (Some "123456"))) w'
       = (inl (failure 400 (Text "Invalid or expired OTP")), w').
Proof. do 2 eexists. split; [reflexivity |]. split; reflexivity. Qed.

(** ** Login *)

(** C2, as the code has it.  For a request that passes the schema of the
    route, the three failures are all answered with 401 and leave the
    world unchanged.  An email that no account has and a wrong password
    for a verified account get the same body, 'Invalid credentials'; an
    account that is not verified gets its own message, whatever the
    password. *)
Theorem login_failures (L : Lib) (env : Env.t) (o : Oracle.t)
    (email password : string) (w : World) :
  loginSchema L (Body.mkLogin (Some email) (Some password))
  = inl (email, password) ->
  ((forall d, In d (users w) -> User.email d <> JS.toLowerCase email) ->
   run (login L env o (Body.mkLogin (Some email) (Some password))) w
   = (inl (failure 401 (Text "Invalid credentials")), w))
  /\ (forall stored,
        find (byEmail email) (users w) = Some stored ->
        User.isEmailVerified stored = true ->
        User.comparePassword L (User.selectPassword stored) password = false ->
        run (login L env o (Body.mkLogin (Some email) (Some password))) w
        = (inl (failure 401 (Text "Invalid credentials")), w))
  /\ (forall stored,
        find (byEmail email) (users w) = Some stored ->
        User.isEmailVerified stored = false ->
        run (login L env o (Body.mkLogin (Some email) (Some password))) w
        = (inl (failure 401 (Text "Please verify your email before logging in")),
           w))
  /\ Response.status (failure 401 (Text "Invalid credentials"))
     = Response.status
         (failure 401 (Text "Please verify your email before logging in")).
Proof.
  intros Hvalid. unfold login. rewrite Hvalid. simpl. unfold Db.findOne.
  split; [| split; [| split]].
  - intros Hnone. rewrite find_absent; [reflexivity |].
    intros d Hin. apply not_true_is_false. intros Hd.
    apply byEmail_true in Hd. exact (Hnone d Hin Hd).
  - intros stored -> Hv Hc. simpl in *. rewrite Hv, Hc. reflexivity.
  - intros stored -> Hv. simpl in *. rewrite Hv. reflexivity.
  - reflexivity.
Qed.

Lemma login_failures_witness :
  loginSchema Toy.lib (Body.mkLogin (Some "a@x.com") (Some "guess"))
  = inl ("a@x.com", "guess")
  /\ (find (byEmail "a@x.com") (users Sample.world) = Some Sample.alice ->
      User.isEmailVerified Sample.alice = true ->
      User.comparePassword Toy.lib (User.selectPassword Sample.alice) "guess"
      = false ->
      run (login Toy.lib Toy.env (Toy.oracle 200000 "u9" true)
             (Body.mkLogin (Some "a@x.com") (Some "guess"))) Sample.world
      = (inl (failure 401 (Text "Invalid credentials")), Sample.world)).
Proof.
  split; [reflexivity |].
  apply (login_failures Toy.lib Toy.env (Toy.oracle 200000 "u9" true)
           "a@x.com" "guess" Sample.world).
  reflexivity.
Defined.

(** C2 as stated fails: the account that is not verified, with its right
    password, and the email that no account has are both answered with
    401, but not with the same body. *)
Lemma login_unverified_distinguishable :
  User.comparePassword Toy.lib (User.selectPassword Sample.bob) "secret2" = true
  /\ run (login Toy.lib Toy.env (Toy.oracle 200000 "u9" true)
            (Body.mkLogin (Some "b@x.com") (Some "secret2"))) Sample.world
     = (inl (failure 401 (Text "Please verify your email before logging in")),
        Sample.world)
  /\ run (login Toy.lib Toy.env (Toy.oracle 200000 "u9" true)
            (Body.mkLogin (Some "nobody@x.com") (Some "secret2"))) Sample.world
     = (inl (failure 401 (Text "Invalid credentials")), Sample.world)
  /\ failure 401 (Text "Please verify your email before logging in")
     <> failure 401 (Text "Invalid credentials").
Proof. repeat split; try reflexivity. discriminate. Qed.

(** ** One-time codes *)








(** ** The code under the rounding of doubles *)





Lemma binary64_exact (m e : Z) :
  Z.abs m < 2 ^ 53 -> -1074 <= e <= 971 -> binary64 (inject_Z m * 2 ^ e).
Proof. intros Hm He. exists m, e. repeat split; try lia. Qed.

Lemma binary64_eq (x y : Q) : (x == y)%Q -> binary64 x -> binary64 y.
Proof.
  intros Hxy (m & e & Hm & He & Hx). exists m, e. repeat split; try lia.
  rewrite <- Hxy. exact Hx.
Qed.


Lemma binary64_eq_nearest (v x : Q) : (x == v)%Q -> binary64 v -> nearest x v.
Proof.
  intros Hxv Hv. split; [exact Hv |]. intros w _.
  setoid_replace (v - x)%Q with 0%Q by (rewrite Hxv; ring). apply Qabs_nonneg.
Qed.

Example generateOTP_binary64_half : generateOTP_binary64 (1 # 2) "550000".
Proof.
  exists (450000 # 1)%Q, (550000 # 1)%Q. split; [| split; [| reflexivity]].
  - apply (binary64_eq_nearest (450000 # 1)); [reflexivity |].
    apply (binary64_eq (inject_Z 450000 * 2 ^ 0)); [reflexivity |].
    apply binary64_exact; lia.
  - apply (binary64_eq_nearest (550000 # 1)); [reflexivity |].
    apply (binary64_eq (inject_Z 550000 * 2 ^ 0)); [reflexivity |].
    apply binary64_exact; lia.
Qed.

Example generateOTP_half : generateOTP (1 # 2) = "550000".
Proof. reflexivity. Qed.

Example generateOTP_least : generateOTP 0 = "100000".
Proof. reflexivity. Qed.

Example generateOTP_most : generateOTP (899999 # 900000) = "999999".
Proof. reflexivity. Qed.

(** ** Signup *)

Arguments generateOTP : simpl never.


Lemma preSave_keeps (L : Lib) (salt : string) (u : User.t) :
  User._id (User.preSave L salt u) = User._id u
  /\ User.email (User.preSave L salt u) = User.email u
  /\ User.isEmailVerified (User.preSave L salt u) = User.isEmailVerified u
  /\ User.googleId (User.preSave L salt u) = User.googleId u
  /\ User.otp (User.preSave L salt u) = User.otp u
  /\ User.otpExpiry (User.preSave L salt u) = User.otpExpiry u.
Proof.
  unfold User.preSave. destruct (User.password u) as [p|]; [| auto 6].
  destruct (p =? "")%string; auto 6.
Qed.


Lemma byEmail_absent (email : string) (l : list User.t) :
  find (byEmail email) l = None ->
  forall d, In d l -> User.email d <> JS.toLowerCase email.
Proof.
  intros Hf d Hin Heq. apply byEmail_true in Heq.
  rewrite (find_none _ _ Hf d Hin) in Heq. discriminate.
Qed.


(** The signup route answers 201 only after it has created the account. *)
Lemma signup_201 (L : Lib) (o : Oracle.t) (body : Body.Signup) (w w' : World)
    (r : Response.t) :
  run (signup L o body) w = (inl r, w') ->
  Response.status r = 201 ->
  exists email password firstName lastName,
    signupSchema L body = inl (email, password, firstName, lastName)
    /\ find (byEmail email) (users w) = None
    /\ r = registered email firstName lastName
    /\ users w'
       = (users w ++ [User.preSave L (Oracle.salt o)
                        (signupDocument o email password firstName lastName)])%list.
Proof.
  unfold signup.
  destruct (signupSchema L body) as [[[[email password] firstName] lastName]|m];
    simpl; [| intros [= <- _]; discriminate].
  unfold Db.findOne.
  destruct (find (byEmail email) (users w)) eqn:Hfind; simpl;
    [intros [= <- _]; discriminate |].
  unfold Db.saveNew.
  change (User.create (Oracle.objectId o) email (Some password) firstName
            lastName false None "" (Some (generateOTP (Oracle.random o)))
            (Some (Oracle.now o + 600000)))
    with (signupDocument o email password firstName lastName).
  destruct (User.validate _); simpl; [intros [= <- _]; discriminate |].
  unfold Db.insertOne.
  destruct (existsb _ _); simpl; [intros [= <- _]; discriminate |].
  destruct (existsb _ _); simpl; [intros [= <- _]; discriminate |].
  unfold sendOTPEmail. destruct (Oracle.mail o); simpl;
    intros [= <- <-] _; exists email, password, firstName, lastName;
    repeat split; (exact Hfind || reflexivity).
Qed.



(** ** The mail server *)




(** ** Running a composed task *)

Lemma run_bind {A B : Type} (t : Task A) (f : A -> Task B) (w : World) :
  run (bind t f) w
  = match run t w with
    | (inl a, w1) => run (f a) w1
    | (inr e, w1) => (inr e, w1)
    end.
Proof.
  revert w. induction t as [a|e|X op k IH]; intros w; simpl.
  - reflexivity.
  - reflexivity.
  - destruct (op w) as [x w1]. apply IH.
Qed.

Lemma run_catch {A : Type} (t : Task A) (h : Exn -> Task A) (w : World) :
  run (catch t h) w
  = match run t w with
    | (inl a, w1) => (inl a, w1)
    | (inr e, w1) => run (h e) w1
    end.
Proof.
  revert w. induction t as [a|e|X op k IH]; intros w; simpl.
  - reflexivity.
  - reflexivity.
  - destruct (op w) as [x w1]. apply IH.
Qed.

(** ** Link or create *)

Arguments User.validate : simpl never.


Lemma linkOrCreate_linked (L : Lib) (o : Oracle.t)
    (googleId email firstName : string) (lastName picture : option string)
    (w : World) (stored : User.t) :
  find (byEmailOrGoogleId email googleId) (users w) = Some stored ->
  JS.falsy (User.googleId stored) = false ->
  run (linkOrCreate L o googleId email firstName lastName picture) w
  = (inl (User.selectDefault stored), w).
Proof.
  intros Hfind Hlinked. unfold linkOrCreate. simpl. unfold Db.findOne.
  rewrite Hfind. simpl. rewrite Hlinked. reflexivity.
Qed.

Lemma linkOrCreate_links (L : Lib) (o : Oracle.t)
    (googleId email firstName : string) (lastName picture : option string)
    (w : World) (stored : User.t) :
  find (byEmailOrGoogleId email googleId) (users w) = Some stored ->
  JS.falsy (User.googleId stored) = true ->
  run (linkOrCreate L o googleId email firstName lastName picture) w
  = (inl (User.set_isEmailVerified true
            (User.set_googleId (Some googleId) (User.selectDefault stored))),
     mkWorld
       (map (fun d =>
               if (User._id d =? User._id stored)%string
               then User.set_isEmailVerified true
                      (User.set_googleId (Some googleId) d)
               else d)
            (users w))
       (events w ++ [Updated (User._id stored)])).
Proof.
  intros Hfind Hunlinked. unfold linkOrCreate. simpl. unfold Db.findOne.
  rewrite Hfind. simpl. rewrite Hunlinked. reflexivity.
Qed.



Lemma generateToken_signs (L : Lib) (env : Env.t) (now span : Z) (user : User.t) :
  ms L (JS.orElse (Env.JWT_EXPIRE env) "7d") = Some span ->
  exists token, generateToken L env now user = Some token.
Proof.
  intros Hspan. unfold generateToken, jsonwebtoken.sign. rewrite Hspan.
  eexists; reflexivity.
Qed.

(** ** The development token of the Google route *)

Lemma strictEq_true (v : option string) (s : string) :
  JS.strictEq v s = true <-> v = Some s.
Proof.
  destruct v as [x|]; simpl; [| split; discriminate].
  rewrite String.eqb_eq. split; congruence.
Qed.


Opaque linkOrCreate.


Lemma issued_token_verifies (L : Lib) (env : Env.t) (user : User.t)
    (issued span t : Z) (token : string) :
  jwt_codec L ->
  ms L (JS.orElse (Env.JWT_EXPIRE env) "7d") = Some span ->
  generateToken L env issued user = Some token ->
  t < 1000 * (issued / 1000 + span / 1000) ->
  verifyToken L env t token
  = inl (Claims.mk (User._id user) (User.email user) (issued / 1000)
           (Some (issued / 1000 + span / 1000))).
Proof.
  intros Hcodec Hspan Hgen Ht. unfold verifyToken.
  rewrite (verify_sign L _ _ _ _ _ issued span t Hcodec Hspan Hgen).
  apply before_expiry in Ht. rewrite Ht. reflexivity.
Qed.

Lemma in_saveModified (id : string) (assign : User.t -> User.t)
    (l : list User.t) (stored : User.t) :
  In stored l -> User._id stored = id ->
  In (assign stored)
     (map (fun d => if (User._id d =? id)%string then assign d else d) l).
Proof.
  intros Hin Hid.
  apply in_map_iff. exists stored. split; [| exact Hin].
  rewrite Hid, String.eqb_refl. reflexivity.
Qed.




(** ** Repeated requests *)

Transparent linkOrCreate.

Lemma find_app_absent {A : Type} (f : A -> bool) (l1 l2 : list A) :
  (forall x, In x l1 -> f x = false) -> find f (l1 ++ l2) = find f l2.
Proof.
  induction l1 as [|a l1 IH]; simpl; intros H; [reflexivity |].
  rewrite (H a (or_introl eq_refl)). apply IH. intros x Hx. apply H. now right.
Qed.

Lemma find_split {A : Type} (f : A -> bool) (l : list A) (x : A) :
  find f l = Some x ->
  exists l1 l2, l = (l1 ++ x :: l2)%list /\ forall y, In y l1 -> f y = false.
Proof.
  induction l as [|a l IH]; simpl; [discriminate |].
  destruct (f a) eqn:Ha.
  - intros [= ->]. exists [], l. split; [reflexivity | intros y []].
  - intros Hf. destruct (IH Hf) as (l1 & l2 & -> & Hl1).
    exists (a :: l1), l2. split; [reflexivity |].
    intros y [<- | Hy]; [exact Ha | exact (Hl1 y Hy)].
Qed.

(** One after the other, the second signup for an email is answered with
    400, and stores nothing. *)
Lemma signup_twice_conflict (L : Lib) (o1 o2 : Oracle.t) (body : Body.Signup)
    (w w1 : World) (r : Response.t) :
  run (signup L o1 body) w = (inl r, w1) ->
  Response.status r = 201 ->
  run (signup L o2 body) w1
  = (inl (failure 400 (Text "User already exists with this email")), w1).
Proof.
  intros Hrun Hstatus.
  destruct (signup_201 L o1 body w w1 r Hrun Hstatus)
    as (email & password & firstName & lastName & Hs & _ & _ & Husers).
  unfold signup. rewrite Hs. simpl. unfold Db.findOne. rewrite Husers.
  destruct (find (byEmail email) (users w ++ _)) eqn:Hfind; [reflexivity |].
  exfalso.
  pose proof (find_none _ _ Hfind
                (User.preSave L (Oracle.salt o1)
                   (signupDocument o1 email password firstName lastName))) as Hd.
  destruct (preSave_keeps L (Oracle.salt o1)
              (signupDocument o1 email password firstName lastName))
    as (_ & Hemail & _).
  unfold byEmail in Hd. rewrite Hemail in Hd. simpl in Hd.
  rewrite String.eqb_refl in Hd.
  assert (true = false); [| discriminate].
  apply Hd. apply in_or_app. right. left. reflexivity.
Qed.

Lemma map_unchanged {A : Type} (f : A -> A) (l : list A) :
  (forall x, In x l -> f x = x) -> map f l = l.
Proof.
  induction l as [|a l IH]; simpl; intros H; [reflexivity |].
  rewrite (H a (or_introl eq_refl)), IH; [reflexivity |].
  intros x Hx. apply H. now right.
Qed.

(** Link-or-create, twice with the same profile: the second call returns
    the account of the first and leaves the stored documents as they are. *)
Lemma linkOrCreate_idempotent (L : Lib) (o1 o2 : Oracle.t)
    (googleId email firstName : string) (lastName picture : option string)
    (w w1 : World) (u : User.t) :
  NoDup (map User._id (users w)) ->
  run (linkOrCreate L o1 googleId email firstName lastName picture) w
  = (inl u, w1) ->
  exists w2,
    run (linkOrCreate L o2 googleId email firstName lastName picture) w1
    = (inl u, w2)
    /\ users w2 = users w1.
Proof.
  intros Hids Hrun.
  set (link := fun d => User.set_isEmailVerified true
                          (User.set_googleId (Some googleId) d)).
  destruct (find (byEmailOrGoogleId email googleId) (users w))
    as [stored|] eqn:Hfind.
  - destruct (JS.falsy (User.googleId stored)) eqn:Hg.
    + (* the account is found and gets the Google id *)
      rewrite (linkOrCreate_links L o1 _ _ _ _ _ w stored Hfind Hg) in Hrun.
      injection Hrun as <- <-.
      destruct (find_split _ _ _ Hfind) as (l1 & l2 & Hl & Hl1).
      pose proof (find_some _ _ Hfind) as [_ Hmatch].
      assert (Hfresh : forall y, In y l1 -> User._id y <> User._id stored).
      { rewrite Hl, map_app in Hids. simpl in Hids.
        apply NoDup_remove_2 in Hids. intros y Hy Heq. apply Hids.
        apply in_or_app. left. rewrite <- Heq. now apply in_map. }
      assert (Hfind' :
        find (byEmailOrGoogleId email googleId)
          (map (fun d => if (User._id d =? User._id stored)%string
                         then link d else d) (users w))
        = Some (link stored)).
      { rewrite Hl, map_app. simpl. rewrite String.eqb_refl.
        rewrite map_unchanged.
        - rewrite find_app_absent by exact Hl1. simpl.
          replace (byEmailOrGoogleId email googleId (link stored)) with true;
            [reflexivity |].
          unfold byEmailOrGoogleId, link. simpl.
          rewrite String.eqb_refl, orb_true_r. reflexivity.
        - intros y Hy. apply Hfresh in Hy. apply String.eqb_neq in Hy.
          now rewrite Hy. }
      set (w1 := mkWorld
                   (map (fun d => if (User._id d =? User._id stored)%string
                                  then link d else d) (users w))
                   (events w ++ [Updated (User._id stored)])).
      change (find (byEmailOrGoogleId email googleId) (users w1)
              = Some (link stored)) in Hfind'.
      destruct (JS.falsy (User.googleId (link stored))) eqn:Hg'.
      * rewrite (linkOrCreate_links L o2 _ _ _ _ _ w1 (link stored) Hfind' Hg').
        eexists. split; [reflexivity |]. simpl.
        rewrite map_map. apply map_ext. intros d. simpl.
        destruct (User._id d =? User._id stored)%string eqn:Hd; simpl.
        -- rewrite Hd. reflexivity.
        -- rewrite Hd. reflexivity.
      * rewrite (linkOrCreate_linked L o2 _ _ _ _ _ w1 (link stored) Hfind' Hg').
        eexists. split; reflexivity.
    + (* the account is found and has a Google id already *)
      rewrite (linkOrCreate_linked L o1 _ _ _ _ _ w stored Hfind Hg) in Hrun.
      injection Hrun as <- <-.
      rewrite (linkOrCreate_linked L o2 _ _ _ _ _ w stored Hfind Hg).
      eexists. split; reflexivity.
  - (* no account is found: the first call creates it *)
    set (user := User.create (Oracle.objectId o1) email None firstName
                   (JS.orElse lastName "") true (Some googleId)
                   (JS.orElse picture "") None None) in *.
    assert (Hcreated : users w1 = (users w ++ [user])%list /\ u = user
                       /\ forall d, In d (users w) -> User._id d <> User._id user).
    { revert Hrun. unfold linkOrCreate. simpl. unfold Db.findOne.
      rewrite Hfind. simpl. unfold Db.saveNew. fold user.
      destruct (User.validate user); simpl; [discriminate |].
      change (User.preSave L (Oracle.salt o1) user) with user.
      unfold Db.insertOne. simpl.
      destruct (existsb (fun d => (User._id d =? Oracle.objectId o1)%string)
                  (users w)) eqn:Hid; simpl; [discriminate |].
      destruct (existsb (fun d => (User.email d =? JS.toLowerCase email)%string)
                  (users w)); simpl; [discriminate |].
      intros [= <- <-]. repeat split.
      intros d Hin Heq.
      assert (Hex : existsb
                (fun d0 => (User._id d0 =? Oracle.objectId o1)%string) (users w)
              = true).
      { apply existsb_exists. exists d. split; [exact Hin |].
        now apply String.eqb_eq. }
      rewrite Hex in Hid. discriminate. }
    destruct Hcreated as (Husers & -> & Hfresh).
    assert (Hfind' :
      find (byEmailOrGoogleId email googleId) (users w1) = Some user).
    { rewrite Husers, find_app_absent by exact (find_none _ _ Hfind). simpl.
      unfold byEmailOrGoogleId, byEmail, user. simpl.
      rewrite String.eqb_refl. reflexivity. }
    destruct (JS.falsy (User.googleId user)) eqn:Hg.
    + rewrite (linkOrCreate_links L o2 _ _ _ _ _ w1 user Hfind' Hg).
      eexists. split; [reflexivity |]. simpl.
      apply map_unchanged. intros d Hd.
      destruct (User._id d =? Oracle.objectId o1)%string eqn:Heq; [| reflexivity].
      rewrite Husers in Hd. apply in_app_or in Hd. destruct Hd as [Hd | [<- | []]].
      * apply String.eqb_eq in Heq. elim (Hfresh d Hd Heq).
      * reflexivity.
    + rewrite (linkOrCreate_linked L o2 _ _ _ _ _ w1 user Hfind' Hg).
      eexists. split; reflexivity.
Qed.

(** ** One Google subject, two accounts *)

(** C7.  From the empty store: a signup for [c@x.com]; a Google login of
    subject [g1] with the address [d@x.com], which creates a second
    account; a Google login of the same subject with the address
    [c@x.com], which finds the first account by its email and stamps [g1]
    on it.  The store then holds two accounts for the subject [g1].  A
    repeat of the last login returns the same account and stores nothing
    new. *)
Theorem google_subject_on_two_accounts :
  exists r1 w1 r2 w2 token3 user3 w3 w4,
    run Scenario.firstSignup Toy.empty = (inl r1, w1)
    /\ run (Scenario.googleLogin 2000 "u4" Scenario.g1_at_d) w1 = (inl r2, w2)
    /\ Response.status r2 = 200
    /\ map (fun d => (User._id d, User.email d, User.googleId d)) (users w2)
       = [("u3", "c@x.com", None); ("u4", "d@x.com", Some "g1")]
    /\ run (Scenario.googleLogin 3000 "u5" Scenario.g1_at_c) w2
       = (inl (Response.mk 200 true (Some (Text "Login successful"))
                 (Some (Session token3 user3))), w3)
    /\ Profile.id user3 = "u3"
    /\ map (fun d => (User._id d, User.email d, User.googleId d)) (users w3)
       = [("u3", "c@x.com", Some "g1"); ("u4", "d@x.com", Some "g1")]
    /\ run (Scenario.googleLogin 3000 "u6" Scenario.g1_at_c) w3
       = (inl (Response.mk 200 true (Some (Text "Login successful"))
                 (Some (Session token3 user3))), w4)
    /\ users w4 = users w3.
Proof.
  do 8 eexists.
  split; [reflexivity |]. split; [reflexivity |]. split; [reflexivity |].
  split; [reflexivity |]. split; [reflexivity |]. split; [reflexivity |].
  split; [reflexivity |]. split; reflexivity.
Qed.

(** ** The unique index on [email], under any schedule *)

Lemma keeps_bind {A B : Type} (I : World -> Prop) (t : Task A) (f : A -> Task B) :
  keeps I t -> (forall a, keeps I (f a)) -> keeps I (bind t f).
Proof.
  intros Ht Hf. induction t as [a|e|X op k IH]; simpl in *.
  - apply Hf.
  - exact Logic.I.
  - destruct Ht as [Hop Hk]. split; [exact Hop |].
    intros x. apply IH, Hk.
Qed.

Lemma keeps_catch {A : Type} (I : World -> Prop) (t : Task A) (h : Exn -> Task A) :
  keeps I t -> (forall e, keeps I (h e)) -> keeps I (catch t h).
Proof.
  intros Ht Hh. induction t as [a|e|X op k IH]; simpl in *.
  - exact Logic.I.
  - apply Hh.
  - destruct Ht as [Hop Hk]. split; [exact Hop |].
    intros x. apply IH, Hk.
Qed.

Lemma keeps_perform {X : Type} (I : World -> Prop) (op : World -> X * World) :
  (forall w, I w -> I (snd (op w))) -> keeps I (perform op).
Proof. intros H. simpl. split; [exact H | intros x; exact Logic.I]. Qed.

Lemma keeps_await {X : Type} (I : World -> Prop)
    (op : World -> (X + Exn) * World) :
  (forall w, I w -> I (snd (op w))) -> keeps I (await op).
Proof.
  intros H. simpl. split; [exact H |]. intros [x|e]; exact Logic.I.
Qed.

Lemma keeps_run {A : Type} (I : World -> Prop) (t : Task A) (w : World) :
  keeps I t -> I w -> I (snd (run t w)).
Proof.
  revert w. induction t as [a|e|X op k IH]; simpl; intros w Ht Hw.
  - exact Hw.
  - exact Hw.
  - destruct Ht as [Hop Hk]. specialize (Hop w Hw).
    destruct (op w) as [x w1]. apply IH; [apply Hk | exact Hop].
Qed.

Lemma keeps_step_task {A : Type} (I : World -> Prop) (t : Task A) (w : World) :
  keeps I t -> keeps I (fst (step t w)).
Proof.
  destruct t as [a|e|X op k]; simpl; intros Ht; [exact Ht | exact Ht |].
  destruct Ht as [_ Hk]. destruct (op w) as [x w1]. apply Hk.
Qed.

Lemma keeps_step {A : Type} (I : World -> Prop) (t : Task A) (w : World) :
  keeps I t -> I w -> keeps I (fst (step t w)) /\ I (snd (step t w)).
Proof.
  intros Ht Hw. split; [apply keeps_step_task; exact Ht |].
  destruct t as [a|e|X op k]; simpl; [exact Hw | exact Hw |].
  destruct Ht as [Hop _]. specialize (Hop w Hw).
  destruct (op w) as [x w1]. exact Hop.
Qed.

Lemma keeps_race {A B : Type} (I : World -> Prop) (schedule : list bool)
    (t1 : Task A) (t2 : Task B) (w : World) :
  keeps I t1 -> keeps I t2 -> I w -> I (snd (race schedule t1 t2 w)).
Proof.
  revert t1 t2 w. induction schedule as [|first rest IH]; intros t1 t2 w H1 H2 Hw.
  - simpl. pose proof (keeps_run I t1 w H1 Hw) as Hw1.
    destruct (run t1 w) as [r1 w1]. simpl in Hw1.
    pose proof (keeps_run I t2 w1 H2 Hw1) as Hw2.
    destruct (run t2 w1) as [r2 w2]. exact Hw2.
  - destruct first; simpl.
    + destruct (keeps_step I t1 w H1 Hw) as [H1' Hw'].
      destruct (step t1 w) as [t1' w']. apply IH; assumption.
    + destruct (keeps_step I t2 w H2 Hw) as [H2' Hw'].
      destruct (step t2 w) as [t2' w']. apply IH; assumption.
Qed.

Lemma emailsUnique_saveNew (L : Lib) (salt : string) (u : User.t) (w : World) :
  emailsUnique w -> emailsUnique (snd (Db.saveNew L salt u w)).
Proof.
  intros Hw. unfold Db.saveNew. destruct (User.validate u); [exact Hw |].
  unfold Db.insertOne.
  destruct (existsb _ (users w)); [exact Hw |].
  destruct (existsb _ (users w)) eqn:Hemail; [exact Hw |].
  unfold emailsUnique. simpl. rewrite map_app. simpl.
  apply NoDup_app; [exact Hw | | ].
  - constructor; [intros [] | constructor].
  - intros e Hin [<- | []].
    apply in_map_iff in Hin. destruct Hin as (d & Hd & Hin).
    assert (Hex : existsb
              (fun d0 => (User.email d0 =? User.email (User.preSave L salt u))%string)
              (users w) = true).
    { apply existsb_exists. exists d. split; [exact Hin |].
      now apply String.eqb_eq. }
    rewrite Hex in Hemail. discriminate.
Qed.

Lemma emailsUnique_saveModified (id : string) (assign : User.t -> User.t)
    (w : World) :
  (forall d, User.email (assign d) = User.email d) ->
  emailsUnique w -> emailsUnique (snd (Db.saveModified id assign w)).
Proof.
  intros Hassign Hw. unfold emailsUnique. simpl. rewrite map_map.
  rewrite (map_ext _ User.email); [exact Hw |].
  intros d. destruct (User._id d =? id)%string; [apply Hassign | reflexivity].
Qed.

Lemma emailsUnique_map (f : User.t -> User.t) (e : Event) (w : World) :
  (forall d, User.email (f d) = User.email d) ->
  emailsUnique w ->
  emailsUnique (emit e (mkWorld (map f (users w)) (events w))).
Proof.
  intros Hf Hw. unfold emailsUnique. simpl. rewrite map_map.
  rewrite (map_ext _ User.email); [exact Hw | exact Hf].
Qed.

Ltac keeps_step_tac :=
  match goal with
  | |- True => exact Logic.I
  | |- _ /\ _ => split
  | |- forall _, _ => intro
  | H : emailsUnique ?w |- emailsUnique ?w => exact H
  | |- emailsUnique (snd (Db.saveNew _ _ _ _)) =>
      apply emailsUnique_saveNew; assumption
  | |- emailsUnique (snd (Db.saveModified _ _ _)) =>
      apply emailsUnique_saveModified; [intros; reflexivity | assumption]
  | |- emailsUnique (emit _ (mkWorld (map _ _) _)) =>
      apply emailsUnique_map;
      [intros d; destruct (_ =? _)%string; reflexivity | assumption]
  | |- emailsUnique _ => assumption
  | |- keeps _ ?t =>
      match t with
      | context [match ?x with _ => _ end] => destruct x
      end
  end.

Ltac keeps_tac := repeat (first [keeps_step_tac | progress simpl]).

Lemma signup_keeps_emails (L : Lib) (o : Oracle.t) (body : Body.Signup) :
  keeps emailsUnique (signup L o body).
Proof. unfold signup. keeps_tac. Qed.

Lemma verifyOtp_keeps_emails (L : Lib) (env : Env.t) (o : Oracle.t)
    (body : Body.Otp) :
  keeps emailsUnique (verifyOtp L env o body).
Proof. unfold verifyOtp, issue. keeps_tac. Qed.

Lemma resendOtp_keeps_emails (L : Lib) (o : Oracle.t) (body : Body.Resend) :
  keeps emailsUnique (resendOtp L o body).
Proof. unfold resendOtp. keeps_tac. Qed.

Opaque User.validate.

Lemma google_keeps_emails (L : Lib) (env : Env.t) (o : Oracle.t)
    (body : Body.GoogleAuth) :
  keeps emailsUnique (google L env o body).
Proof. unfold google, linkOrCreate, issue. keeps_tac. Qed.

Transparent User.validate.

(** Two signups in flight, under any schedule, never leave two accounts
    with one email. *)
Lemma signup_race_keeps_emails (L : Lib) (o1 o2 : Oracle.t)
    (body1 body2 : Body.Signup) (schedule : list bool) (w : World) :
  emailsUnique w ->
  emailsUnique (snd (race schedule (signup L o1 body1) (signup L o2 body2) w)).
Proof.
  apply keeps_race; apply signup_keeps_emails.
Qed.

(** ** At most one of two signups for one email is answered with 201 *)

Lemma run_guarded {A : Type} (good : A -> Prop) (Q : World -> Prop)
    (t : Task A) (w w' : World) (a : A) :
  guarded good Q t \/ Q w -> keeps Q t ->
  run t w = (inl a, w') -> good a -> Q w'.
Proof.
  revert w. induction t as [b|e|X op k IH]; simpl; intros w Hg Hk Hrun Hgood.
  - injection Hrun as <- <-. destruct Hg as [Hg | Hq]; [elim (Hg Hgood) | exact Hq].
  - discriminate.
  - destruct Hk as [Hop Hk]. specialize (Hop w).
    assert (Hnext : guarded good Q (k (fst (op w))) \/ Q (snd (op w))).
    { destruct Hg as [Hg | Hq]; [| right; exact (Hop Hq)].
      destruct (Hg w) as [Hq | Hg']; [right | left]; assumption. }
    destruct (op w) as [x w1]. simpl in Hnext.
    exact (IH x w1 Hnext (Hk x) Hrun Hgood).
Qed.

(** When the first of two requests in flight returns a [good] result, [Q]
    holds at the end: one of its effects made [Q] true, and no later
    effect of either request undoes it. *)
Lemma race_guarded_first {A B : Type} (good : A -> Prop) (Q : World -> Prop)
    (schedule : list bool) (t1 : Task A) (t2 : Task B) (w w' : World)
    (a : A) (r2 : B + Exn) :
  guarded good Q t1 \/ Q w -> keeps Q t1 -> keeps Q t2 ->
  race schedule t1 t2 w = (inl a, r2, w') -> good a -> Q w'.
Proof.
  revert t1 t2 w.
  induction schedule as [|first rest IH]; intros t1 t2 w Hg H1 H2 Hrace Hgood.
  - simpl in Hrace. destruct (run t1 w) as [r1 w1] eqn:Hrun1.
    pose proof (keeps_run Q t2 w1 H2) as Hkeep.
    destruct (run t2 w1) as [r2' w2]. injection Hrace as -> _ <-.
    apply Hkeep. exact (run_guarded good Q t1 w w1 a Hg H1 Hrun1 Hgood).
  - destruct first; simpl in Hrace.
    + destruct t1 as [b|e|X op k]; simpl in Hrace.
      * exact (IH _ _ _ Hg H1 H2 Hrace Hgood).
      * exact (IH _ _ _ Hg H1 H2 Hrace Hgood).
      * simpl in H1. destruct H1 as [Hop Hk]. specialize (Hop w).
        assert (Hnext : guarded good Q (k (fst (op w))) \/ Q (snd (op w))).
        { destruct Hg as [Hg | Hq]; [| right; exact (Hop Hq)].
          simpl in Hg. destruct (Hg w) as [Hq | Hg']; [right | left]; assumption. }
        destruct (op w) as [x w1]. simpl in Hnext.
        exact (IH _ _ _ Hnext (Hk x) H2 Hrace Hgood).
    + pose proof (keeps_step_task Q t2 w H2) as Hk2.
      pose proof (keeps_step Q t2 w H2) as Hstep.
      destruct (step t2 w) as [t2' w1]. simpl in Hk2, Hstep.
      destruct Hg as [Hg | Hq].
      * exact (IH _ _ _ (or_introl Hg) H1 Hk2 Hrace Hgood).
      * destruct (Hstep Hq) as [_ Hq1].
        exact (IH _ _ _ (or_intror Hq1) H1 Hk2 Hrace Hgood).
Qed.

Lemma race_guarded_second {A B : Type} (good : B -> Prop) (Q : World -> Prop)
    (schedule : list bool) (t1 : Task A) (t2 : Task B) (w w' : World)
    (b : B) (r1 : A + Exn) :
  guarded good Q t2 \/ Q w -> keeps Q t1 -> keeps Q t2 ->
  race schedule t1 t2 w = (r1, inl b, w') -> good b -> Q w'.
Proof.
  revert t1 t2 w.
  induction schedule as [|first rest IH]; intros t1 t2 w Hg H1 H2 Hrace Hgood.
  - simpl in Hrace. pose proof (keeps_run Q t1 w H1) as Hkeep.
    destruct (run t1 w) as [r1' w1].
    destruct (run t2 w1) as [r2 w2] eqn:Hrun2. injection Hrace as _ -> <-.
    apply (run_guarded good Q t2 w1 w2 b); try assumption.
    destruct Hg as [Hg | Hq]; [left; exact Hg | right; exact (Hkeep Hq)].
  - destruct first; simpl in Hrace.
    + pose proof (keeps_step_task Q t1 w H1) as Hk1.
      pose proof (keeps_step Q t1 w H1) as Hstep.
      destruct (step t1 w) as [t1' w1]. simpl in Hk1, Hstep.
      destruct Hg as [Hg | Hq].
      * exact (IH _ _ _ (or_introl Hg) Hk1 H2 Hrace Hgood).
      * destruct (Hstep Hq) as [_ Hq1].
        exact (IH _ _ _ (or_intror Hq1) Hk1 H2 Hrace Hgood).
    + destruct t2 as [c|e|X op k]; simpl in Hrace.
      * exact (IH _ _ _ Hg H1 H2 Hrace Hgood).
      * exact (IH _ _ _ Hg H1 H2 Hrace Hgood).
      * simpl in H2. destruct H2 as [Hop Hk]. specialize (Hop w).
        assert (Hnext : guarded good Q (k (fst (op w))) \/ Q (snd (op w))).
        { destruct Hg as [Hg | Hq]; [| right; exact (Hop Hq)].
          simpl in Hg. destruct (Hg w) as [Hq | Hg']; [right | left]; assumption. }
        destruct (op w) as [x w1]. simpl in Hnext.
        exact (IH _ _ _ Hnext H1 (Hk x) Hrace Hgood).
Qed.

Lemma signupSchema_email (L : Lib) (body : Body.Signup)
    (email password firstName lastName : string) :
  signupSchema L body = inl (email, password, firstName, lastName) ->
  signupEmail body = JS.toLowerCase email.
Proof.
  unfold signupSchema, signupEmail, Joi.string.
  destruct (Body.s_email body) as [e|]; [| discriminate].
  destruct (e =? "")%string eqn:He; [discriminate |].
  destruct (find _ _); [discriminate |].
  destruct (Body.s_password body) as [p|]; [| discriminate].
  destruct (p =? "")%string; [discriminate |].
  destruct (find _ _); [discriminate |].
  destruct (Body.s_firstName body) as [f|]; [| discriminate].
  destruct (f =? "")%string; [discriminate |].
  destruct (find _ _); [discriminate |].
  destruct (Body.s_lastName body) as [l|]; [| discriminate].
  destruct (l =? "")%string; [discriminate |].
  destruct (find _ _); [discriminate |].
  intros [= <- _ _ _]. simpl. rewrite He. reflexivity.
Qed.

(** A signup is answered with 201 only after its own insert. *)
Lemma signup_guarded (L : Lib) (o : Oracle.t) (body : Body.Signup) :
  guarded created (holds (Oracle.objectId o) (signupEmail body))
    (signup L o body).
Proof.
  unfold signup.
  destruct (signupSchema L body)
    as [[[[email password] firstName] lastName]|m] eqn:Hs; simpl.
  2:{ unfold created. simpl. discriminate. }
  rewrite (signupSchema_email L body _ _ _ _ Hs).
  intros w. right. unfold Db.findOne. simpl.
  destruct (find (byEmail email) (users w)); simpl.
  { unfold created. simpl. discriminate. }
  intros w1. unfold Db.saveNew.
  change (User.create (Oracle.objectId o) email (Some password) firstName
            lastName false None "" (Some (generateOTP (Oracle.random o)))
            (Some (Oracle.now o + 600000)))
    with (signupDocument o email password firstName lastName).
  destruct (preSave_keeps L (Oracle.salt o)
              (signupDocument o email password firstName lastName))
    as (Hid & Hemail & _).
  destruct (User.validate _); simpl.
  { right. intros w2. right. unfold created. simpl. discriminate. }
  unfold Db.insertOne.
  destruct (existsb _ (users w1)); simpl.
  { right. intros w2. right. unfold created. simpl. discriminate. }
  destruct (existsb _ (users w1)); simpl.
  { right. intros w2. right. unfold created. simpl. discriminate. }
  left. eexists. split; [apply in_or_app; right; left; reflexivity |].
  rewrite Hid, Hemail. split; reflexivity.
Qed.

Lemma holds_grows (id email : string) (w : World) (u : User.t) (evs : list Event) :
  holds id email w -> holds id email (mkWorld (users w ++ [u]) evs).
Proof.
  intros (d & Hin & Hd). exists d. split; [| exact Hd].
  simpl. apply in_or_app. left. exact Hin.
Qed.

Lemma signup_keeps_holds (L : Lib) (o : Oracle.t) (body : Body.Signup)
    (id email : string) :
  keeps (holds id email) (signup L o body).
Proof.
  unfold signup.
  destruct (signupSchema L body) as [[[[e password] firstName] lastName]|m];
    simpl; [| exact Logic.I].
  split; [intros w Hw; exact Hw |]. intros found.
  destruct found; simpl; [exact Logic.I |].
  split.
  - intros w Hw. unfold Db.saveNew. destruct (User.validate _); [exact Hw |].
    unfold Db.insertOne.
    destruct (existsb _ (users w)); [exact Hw |].
    destruct (existsb _ (users w)); [exact Hw |].
    simpl. apply holds_grows. exact Hw.
  - intros [saved|e1]; simpl.
    + split; [intros w Hw; exact Hw |].
      intros [sent|e2]; simpl; [exact Logic.I |].
      split; [intros w Hw; exact Hw | intros _; exact Logic.I].
    + split; [intros w Hw; exact Hw | intros _; exact Logic.I].
Qed.

Lemma emailsUnique_one (w : World) (d1 d2 : User.t) :
  emailsUnique w -> In d1 (users w) -> In d2 (users w) ->
  User.email d1 = User.email d2 -> d1 = d2.
Proof.
  unfold emailsUnique. induction (users w) as [|a l IH]; simpl; [intros _ [] |].
  intros Hnd [-> | H1] [-> | H2] He.
  - reflexivity.
  - apply NoDup_cons_iff in Hnd. destruct Hnd as [Hnot _]. elim Hnot.
    rewrite He. now apply in_map.
  - apply NoDup_cons_iff in Hnd. destruct Hnd as [Hnot _]. elim Hnot.
    rewrite <- He. now apply in_map.
  - apply NoDup_cons_iff in Hnd. destruct Hnd as [_ Hnd]. exact (IH Hnd H1 H2 He).
Qed.

(** Two signups for one email, in flight together with two distinct
    ObjectIds: under no schedule are both answered with 201. *)
Lemma signup_race_one_winner (L : Lib) (o1 o2 : Oracle.t) (body : Body.Signup)
    (schedule : list bool) (w w' : World) (r1 r2 : Response.t) :
  emailsUnique w ->
  Oracle.objectId o1 <> Oracle.objectId o2 ->
  race schedule (signup L o1 body) (signup L o2 body) w = (inl r1, inl r2, w') ->
  ~ (created r1 /\ created r2).
Proof.
  intros Hunique Hids Hrace [Hc1 Hc2].
  assert (Hw' : emailsUnique w').
  { pose proof (signup_race_keeps_emails L o1 o2 body body schedule w Hunique) as H.
    rewrite Hrace in H. exact H. }
  assert (Hone : holds (Oracle.objectId o1) (signupEmail body) w').
  { apply (race_guarded_first created _ schedule (signup L o1 body)
             (signup L o2 body) w w' r1 (inl r2));
      [left; apply signup_guarded | apply signup_keeps_holds
      | apply signup_keeps_holds | exact Hrace | exact Hc1]. }
  assert (Htwo : holds (Oracle.objectId o2) (signupEmail body) w').
  { apply (race_guarded_second created _ schedule (signup L o1 body)
             (signup L o2 body) w w' r2 (inl r1));
      [left; apply signup_guarded | apply signup_keeps_holds
      | apply signup_keeps_holds | exact Hrace | exact Hc2]. }
  destruct Hone as (d1 & Hin1 & Hid1 & He1).
  destruct Htwo as (d2 & Hin2 & Hid2 & He2).
  assert (Heq : d1 = d2).
  { apply (emailsUnique_one w'); try assumption. congruence. }
  apply Hids. congruence.
Qed.

(** ** Two signups for one email *)

(** C3.  One after the other, the second signup for an email is answered
    with 400 'User already exists with this email'.  When the event loop
    runs the lookup of both requests before the save of either, the second
    save hits the unique index of [email]: no second account is stored,
    but the answer is 500 'Server error during signup', not 400. *)
Theorem signup_race_answers_500 :
  (exists w,
      race [] Scenario.firstSignup Scenario.secondSignup Toy.empty
      = (inl (registered "c@x.com" "Carol" "C"),
         inl (failure 400 (Text "User already exists with this email")), w)
      /\ map User.email (users w) = ["c@x.com"])
  /\ (exists w,
        race [true; false] Scenario.firstSignup Scenario.secondSignup Toy.empty
        = (inl (registered "c@x.com" "Carol" "C"),
           inl (failure 500 (Text "Server error during signup")), w)
        /\ map User.email (users w) = ["c@x.com"]
        /\ events w = [Inserted "u3"; MailAttempt "c@x.com" "Carol" "550000";
                       ConsoleError "Signup error:"]).
Proof.
  split; eexists; (split; [reflexivity |]); repeat split; reflexivity.
Qed.

(** ** Two scenarios, end to end *)

(** A signup, the verification of its code, and a request for the current
    identity with the token that the verification returned. *)
Example signup_verify_me :
  exists w1 token w2,
    run Scenario.firstSignup Toy.empty
    = (inl (registered "c@x.com" "Carol" "C"), w1)
    /\ map User.isEmailVerified (users w1) = [false]
    /\ run (verifyOtp Toy.lib Toy.env (Toy.oracle 2000 "u9" true)
              (Body.mkOtp (Some "c@x.com") (Some "550000"))) w1
       = (inl (Response.mk 200 true (Some (Text "Email verified successfully"))
                 (Some (Session token
                          (Profile.mk "u3" "c@x.com" "Carol" "C" "" true)))),
          w2)
    /\ run (me Toy.lib Toy.env (Toy.oracle 3000 "u9" true)
              (Some ("Bearer " ++ token))) w2
       = (inl (Response.mk 200 true None
                 (Some (Identity
                          (Profile.mk "u3" "c@x.com" "Carol" "C" "" true)))),
          w2).
Proof. do 3 eexists. repeat split; reflexivity. Qed.

(** A login before the verification is answered with 401. *)
Example login_before_verification :
  exists w1,
    run Scenario.firstSignup Toy.empty
    = (inl (registered "c@x.com" "Carol" "C"), w1)
    /\ run (login Toy.lib Toy.env (Toy.oracle 2000 "u9" true)
              (Body.mkLogin (Some "c@x.com") (Some "secret3"))) w1
       = (inl (failure 401 (Text "Please verify your email before logging in")),
          w1).
Proof. eexists. split; reflexivity. Qed.

(** ** Effects of the routes *)

Lemma effects_bind {A B : Type} (R : World -> World -> Prop) (t : Task A)
    (f : A -> Task B) :
  effects R t -> (forall a, effects R (f a)) -> effects R (bind t f).
Proof.
  intros Ht Hf. induction t as [a|e|X op k IH]; simpl.
  - apply Hf.
  - exact I.
  - destruct Ht as [Hop Hk]. split; [exact Hop |]. intros x. apply IH, Hk.
Qed.

Lemma effects_catch {A : Type} (R : World -> World -> Prop) (t : Task A)
    (h : Exn -> Task A) :
  effects R t -> (forall e, effects R (h e)) -> effects R (catch t h).
Proof.
  intros Ht Hh. induction t as [a|e|X op k IH]; simpl.
  - exact I.
  - apply Hh.
  - destruct Ht as [Hop Hk]. split; [exact Hop |]. intros x. apply IH, Hk.
Qed.

Lemma effects_keeps {A : Type} (R : World -> World -> Prop) (I : World -> Prop)
    (t : Task A) :
  (forall w w', I w -> R w w' -> I w') -> effects R t -> keeps I t.
Proof.
  intros HR. induction t as [a|e|X op k IH]; simpl; try exact (fun _ => Logic.I).
  intros [Hop Hk]. split.
  - intros w Hw. exact (HR _ _ Hw (Hop w)).
  - intros x. apply IH, Hk.
Qed.

Lemma change_saveNew (L : Lib) (o : Oracle.t) (u : User.t) (w : World) :
  newAccount o u ->
  Change L o (users w) (users (snd (Db.saveNew L (Oracle.salt o) u w))).
Proof.
  intros Hnew. unfold Db.saveNew.
  destruct (User.validate u) eqn:Hvalid; [apply change_none |].
  unfold Db.insertOne.
  destruct (existsb _ (users w)); [apply change_none |].
  destruct (existsb _ (users w)) eqn:Hemail; [apply change_none |].
  simpl. apply change_insert; try assumption.
  intros d Hd Heq.
  assert (Hex : existsb
                  (fun d => (User.email d =? User.email (User.preSave L (Oracle.salt o) u))%string)
                  (users w) = true).
  { apply existsb_exists. exists d. split; [exact Hd |].
    apply String.eqb_eq. rewrite Heq. symmetry. apply (preSave_keeps L (Oracle.salt o) u). }
  rewrite Hex in Hemail. discriminate.
Qed.

Lemma change_saveModified (L : Lib) (o : Oracle.t) (id : string)
    (f : User.t -> User.t) (w : World) :
  Assigned o f ->
  Change L o (users w) (users (snd (Db.saveModified id f w))).
Proof. intros Hf. simpl. apply change_update. exact Hf. Qed.

Lemma change_findById (L : Lib) (o : Oracle.t) (id : string) (w : World) :
  Change L o (users w) (users (snd (Db.findById L id w))).
Proof. unfold Db.findById. destruct (isObjectId L id); apply change_none. Qed.

Ltac effects_step_tac :=
  match goal with
  | |- True => exact Logic.I
  | |- _ /\ _ => split
  | |- forall _, _ => intro
  | |- Change _ _ ?l ?l => apply change_none
  | |- Change _ _ (users ?w) (users (snd (Db.saveNew _ _ _ ?w))) =>
      apply change_saveNew
  | |- Change _ _ (users ?w) (users (snd (Db.saveModified _ _ ?w))) =>
      apply change_saveModified
  | |- Change _ _ (users ?w) (users (snd (Db.findById _ _ ?w))) =>
      apply change_findById
  | |- Assigned _ _ => first [ apply assigned_verified | apply assigned_google
                              | apply assigned_otp ]
  | |- effects _ ?t =>
      match t with
      | context [match ?x with _ => _ end] => destruct x
      end
  end.

Opaque User.validate Db.saveNew Db.saveModified Db.findById.

Lemma signup_effects (L : Lib) (o : Oracle.t) (body : Body.Signup) :
  effects (fun w w' => Change L o (users w) (users w')) (signup L o body).
Proof.
  unfold signup. repeat (first [effects_step_tac | progress simpl]).
  left. simpl. repeat split; eauto.
Qed.

Ltac effects_tac := repeat (first [effects_step_tac | progress simpl]).

Lemma authenticate_effects (L : Lib) (env : Env.t) (o : Oracle.t)
    (authHeader : option string) :
  effects (fun w w' => Change L o (users w) (users w'))
    (authenticate L env o authHeader).
Proof. unfold authenticate. effects_tac. Qed.

Lemma linkOrCreate_effects (L : Lib) (o : Oracle.t)
    (googleId email firstName : string) (lastName picture : option string) :
  effects (fun w w' => Change L o (users w) (users w'))
    (linkOrCreate L o googleId email firstName lastName picture).
Proof.
  unfold linkOrCreate. effects_tac.
  right. simpl. repeat split; eauto.
Qed.

Lemma handle_effects (L : Lib) (env : Env.t) (o : Oracle.t) (r : Request) :
  effects (fun w w' => Change L o (users w) (users w')) (handle L env o r).
Proof.
  destruct r as [body|body|body|body|authHeader|body]; simpl.
  - apply signup_effects.
  - unfold verifyOtp, issue. effects_tac.
  - unfold login, issue. effects_tac.
  - unfold google, linkOrCreate, issue. effects_tac;
      right; simpl; repeat split; eauto.
  - unfold me. apply effects_bind; [apply authenticate_effects |].
    intros [r|user]; exact Logic.I.
  - unfold resendOtp. effects_tac.
Qed.

Transparent User.validate Db.saveNew Db.saveModified Db.findById.

(** ** Invariants of the users collection under any two requests *)

Lemma handle_keeps (L : Lib) (env : Env.t) (o : Oracle.t) (r : Request)
    (I : World -> Prop) :
  (forall o w w', I w -> Change L o (users w) (users w') -> I w') ->
  keeps I (handle L env o r).
Proof.
  intros HI.
  apply (effects_keeps (fun w w' => Change L o (users w) (users w'))).
  - intros w w' Hw HR. exact (HI o w w' Hw HR).
  - apply handle_effects.
Qed.

Lemma handle_race_keeps (L : Lib) (env : Env.t) (o1 o2 : Oracle.t)
    (r1 r2 : Request) (schedule : list bool) (I : World -> Prop) (w : World) :
  (forall o w w', I w -> Change L o (users w) (users w') -> I w') ->
  I w ->
  I (snd (race schedule (handle L env o1 r1) (handle L env o2 r2) w)).
Proof.
  intros HI Hw. apply keeps_race; [apply handle_keeps | apply handle_keeps |];
    assumption.
Qed.

Lemma assigned_evolves (o : Oracle.t) (f : User.t -> User.t) (d : User.t) :
  Assigned o f -> evolves d (f d).
Proof. intros [|g|]; split; simpl; auto. Qed.

Lemma evolves_refl (d : User.t) : evolves d d.
Proof. split; auto. Qed.

Lemma evolves_trans (a b c : User.t) : evolves a b -> evolves b c -> evolves a c.
Proof.
  intros [H1 H2] [H3 H4]. split; [congruence | auto].
Qed.

Lemma Forall2_evolves_refl (l : list User.t) : Forall2 evolves l l.
Proof. induction l; constructor; [apply evolves_refl | assumption]. Qed.

Lemma Forall2_evolves_trans (l1 l2 l3 : list User.t) :
  Forall2 evolves l1 l2 -> Forall2 evolves l2 l3 -> Forall2 evolves l1 l3.
Proof.
  intros H12. revert l3. induction H12 as [|a b l1 l2 Hab _ IH]; intros l3 H23.
  - inversion H23. constructor.
  - inversion H23 as [|b' c l2' l3' Hbc Hrest]; subst.
    constructor; [exact (evolves_trans _ _ _ Hab Hbc) | apply IH, Hrest].
Qed.

Lemma extends_refl (l : list User.t) : extends l l.
Proof.
  exists l, []. split; [now rewrite app_nil_r | apply Forall2_evolves_refl].
Qed.

Lemma extends_trans (l1 l2 l3 : list User.t) :
  extends l1 l2 -> extends l2 l3 -> extends l1 l3.
Proof.
  intros (a & n1 & -> & H1) (b & n2 & -> & H2).
  apply Forall2_app_inv_l in H2 as (b1 & b2 & Hb1 & Hb2 & ->).
  exists b1, (b2 ++ n2)%list. split; [now rewrite app_assoc |].
  exact (Forall2_evolves_trans _ _ _ H1 Hb1).
Qed.

Lemma change_extends (L : Lib) (o : Oracle.t) (l l' : list User.t) :
  Change L o l l' -> extends l l'.
Proof.
  intros [|u _ _ _|id f Hf].
  - apply extends_refl.
  - exists l, [User.preSave L (Oracle.salt o) u].
    split; [reflexivity | apply Forall2_evolves_refl].
  - exists (map (fun d => if (User._id d =? id)%string then f d else d) l), [].
    split; [now rewrite app_nil_r |].
    induction l as [|d l IH]; simpl; constructor; [| exact IH].
    destruct (User._id d =? id)%string;
      [exact (assigned_evolves o f d Hf) | apply evolves_refl].
Qed.

(** X1.  Whatever two requests to the authentication routes do, and however
    the event loop interleaves them, every account that was stored is still
    stored afterwards, at its place, with the same [_id], email, password
    hash, names and picture, and still verified if it was: no route deletes
    an account, changes a password or takes a verification back. *)
Theorem accounts_persist (L : Lib) (env : Env.t) (o1 o2 : Oracle.t)
    (r1 r2 : Request) (schedule : list bool) (w : World) :
  extends (users w)
    (users (snd (race schedule (handle L env o1 r1) (handle L env o2 r2) w))).
Proof.
  apply (handle_race_keeps L env o1 o2 r1 r2 schedule
           (fun w' => extends (users w) (users w'))).
  - intros o w1 w2 H1 H12.
    exact (extends_trans _ _ _ H1 (change_extends L o _ _ H12)).
  - apply extends_refl.
Qed.

Lemma assigned_email (o : Oracle.t) (f : User.t -> User.t) (d : User.t) :
  Assigned o f -> User.email (f d) = User.email d.
Proof. intros [|g|]; reflexivity. Qed.

Lemma change_emailsUnique (L : Lib) (o : Oracle.t) (w w' : World) :
  emailsUnique w -> Change L o (users w) (users w') -> emailsUnique w'.
Proof.
  unfold emailsUnique. intros Hw Hc. destruct w' as [l' ev']. simpl in *.
  destruct Hc as [|u Hvalid Hfresh Hnew|id f Hf].
  - exact Hw.
  - rewrite map_app. simpl.
    apply NoDup_app; [exact Hw | | ].
    + constructor; [intros [] | constructor].
    + intros e Hin [<- | []].
      apply in_map_iff in Hin. destruct Hin as (d & Hd & Hin).
      apply (Hfresh d Hin). rewrite Hd.
      apply (preSave_keeps L (Oracle.salt o) u).
  - rewrite map_map. rewrite (map_ext _ User.email); [exact Hw |].
    intros d. destruct (User._id d =? id)%string;
      [exact (assigned_email o f d Hf) | reflexivity].
Qed.

(** X2.  If no two accounts share an email, then no two share one after
    any two requests to the authentication routes, under every schedule of
    the event loop. *)
Theorem emails_stay_unique (L : Lib) (env : Env.t) (o1 o2 : Oracle.t)
    (r1 r2 : Request) (schedule : list bool) (w : World) :
  emailsUnique w ->
  emailsUnique
    (snd (race schedule (handle L env o1 r1) (handle L env o2 r2) w)).
Proof.
  apply handle_race_keeps. intros o w1 w2. apply change_emailsUnique.
Qed.

Lemma emails_stay_unique_witness :
  emailsUnique Sample.world
  /\ emailsUnique
       (snd (race [true; false; true]
               (handle Toy.lib Toy.env (Toy.oracle 1000 "u3" true)
                  (PostSignup Scenario.carol))
               (handle Toy.lib Toy.env (Toy.oracle 1001 "u4" true)
                  (PostSignup Scenario.carol))
               Sample.world)).
Proof.
  assert (H : emailsUnique Sample.world).
  { unfold emailsUnique. simpl. constructor.
    - intros [H | []]. discriminate H.
    - constructor; [intros [] | constructor]. }
  split; [exact H | apply emails_stay_unique; exact H].
Defined.

Lemma change_otpPaired (L : Lib) (o : Oracle.t) (w w' : World) :
  otpPaired w -> Change L o (users w) (users w') -> otpPaired w'.
Proof.
  unfold otpPaired. intros Hw Hc. destruct w' as [l' ev']. simpl in *.
  destruct Hc as [|u Hvalid Hfresh Hnew|id f Hf]; intros d Hd.
  - exact (Hw d Hd).
  - apply in_app_or in Hd. destruct Hd as [Hd | [<- | []]].
    + exact (Hw d Hd).
    + destruct (preSave_keeps L (Oracle.salt o) u)
        as (_ & _ & _ & _ & Hotp & Hexp).
      rewrite Hotp, Hexp.
      destruct Hnew as [(_ & _ & _ & -> & ->) | (_ & _ & _ & -> & ->)];
        split; intros H; try discriminate H; reflexivity.
  - apply in_map_iff in Hd. destruct Hd as (d0 & <- & Hd0).
    destruct (User._id d0 =? id)%string; [| exact (Hw d0 Hd0)].
    destruct Hf as [|g|]; simpl.
    + split; reflexivity.
    + exact (Hw d0 Hd0).
    + split; intros H; discriminate H.
Qed.

(** X3.  A stored code always comes with its expiry and an expiry with its
    code: if that holds of every account, it holds after any two requests
    to the authentication routes, under every schedule. *)
Theorem otp_fields_stay_paired (L : Lib) (env : Env.t) (o1 o2 : Oracle.t)
    (r1 r2 : Request) (schedule : list bool) (w : World) :
  otpPaired w ->
  otpPaired (snd (race schedule (handle L env o1 r1) (handle L env o2 r2) w)).
Proof.
  apply handle_race_keeps. intros o w1 w2. apply change_otpPaired.
Qed.

Lemma otp_fields_stay_paired_witness :
  otpPaired Sample.world
  /\ otpPaired
       (snd (race [false; true]
               (handle Toy.lib Toy.env (Toy.oracle 200000 "u8" true)
                  (PostVerifyOtp (Body.mkOtp (Some "b@x.com") (Some "123456"))))
               (handle Toy.lib Toy.env (Toy.oracle 200001 "u9" false)
                  (PostResendOtp (Body.mkResend (Some "b@x.com"))))
               Sample.world)).
Proof.
  assert (H : otpPaired Sample.world).
  { intros d [<- | [<- | []]]; simpl; split; intros H;
      first [reflexivity | discriminate H]. }
  split; [exact H | apply otp_fields_stay_paired; exact H].
Defined.

Lemma assigned_password (o : Oracle.t) (f : User.t -> User.t) (d : User.t) :
  Assigned o f -> User.password (f d) = User.password d.
Proof. intros [|g|]; reflexivity. Qed.

Lemma validate_password (u : User.t) (p : string) :
  User.validate u = None -> User.password u = Some p ->
  (6 <= String.length p)%nat.
Proof.
  unfold User.validate. intros Hvalid Hp. rewrite Hp in Hvalid.
  destruct (_ || _); [discriminate |].
  destruct (String.length p <? 6)%nat eqn:Hlen; [discriminate |].
  apply Nat.ltb_ge in Hlen. exact Hlen.
Qed.

Lemma preSave_password (L : Lib) (salt : string) (u : User.t) (h : string) :
  User.validate u = None ->
  User.password (User.preSave L salt u) = Some h ->
  exists p, h = bcrypt_hash L p salt /\ (6 <= String.length p)%nat.
Proof.
  intros Hvalid. unfold User.preSave.
  destruct (User.password u) as [p|] eqn:Hp; [| rewrite Hp; discriminate].
  pose proof (validate_password u p Hvalid Hp) as Hlen.
  destruct (p =? "")%string eqn:He.
  - apply String.eqb_eq in He. subst p. simpl in Hlen. lia.
  - simpl. intros [= <-]. exists p. split; [reflexivity | exact Hlen].
Qed.

Lemma change_passwordsHashed (L : Lib) (o : Oracle.t) (w w' : World) :
  passwordsHashed L w -> Change L o (users w) (users w') ->
  passwordsHashed L w'.
Proof.
  unfold passwordsHashed. intros Hw Hc. destruct w' as [l' ev']. simpl in *.
  destruct Hc as [|u Hvalid Hfresh Hnew|id f Hf]; intros d h Hd Hh.
  - exact (Hw d h Hd Hh).
  - apply in_app_or in Hd. destruct Hd as [Hd | [<- | []]].
    + exact (Hw d h Hd Hh).
    + destruct (preSave_password L (Oracle.salt o) u h Hvalid Hh) as (p & Hp & Hlen).
      exists p, (Oracle.salt o). split; assumption.
  - apply in_map_iff in Hd. destruct Hd as (d0 & <- & Hd0).
    destruct (User._id d0 =? id)%string; [| exact (Hw d0 h Hd0 Hh)].
    rewrite (assigned_password o f d0 Hf) in Hh. exact (Hw d0 h Hd0 Hh).
Qed.

(** X4.  No route stores a password as it was typed: if every stored
    password is a bcrypt hash of a password of six characters or more, the
    same holds after any two requests, under every schedule. *)
Theorem passwords_stay_hashed (L : Lib) (env : Env.t) (o1 o2 : Oracle.t)
    (r1 r2 : Request) (schedule : list bool) (w : World) :
  passwordsHashed L w ->
  passwordsHashed L
    (snd (race schedule (handle L env o1 r1) (handle L env o2 r2) w)).
Proof.
  apply handle_race_keeps. intros o w1 w2. apply change_passwordsHashed.
Qed.

Lemma passwords_stay_hashed_witness :
  passwordsHashed Toy.lib Sample.world
  /\ passwordsHashed Toy.lib
       (snd (race [true; true; false]
               (handle Toy.lib Toy.env (Toy.oracle 1000 "u3" true)
                  (PostSignup Scenario.carol))
               (handle Toy.lib Toy.env (Toy.oracle 1001 "u4" true)
                  (PostLogin (Body.mkLogin (Some "a@x.com") (Some "secret1"))))
               Sample.world)).
Proof.
  assert (H : passwordsHashed Toy.lib Sample.world).
  { intros d h [<- | [<- | []]] [= <-].
    - exists "secret1", "salt". split; [reflexivity | simpl; lia].
    - exists "secret2", "salt". split; [reflexivity | simpl; lia]. }
  split; [exact H | apply passwords_stay_hashed; exact H].
Defined.

Lemma preSave_password_none (L : Lib) (salt : string) (u : User.t) :
  User.password (User.preSave L salt u) = None -> User.password u = None.
Proof.
  unfold User.preSave. destruct (User.password u) as [p|] eqn:Hp; [| reflexivity].
  destruct (p =? "")%string; simpl; [rewrite Hp |]; discriminate.
Qed.

Lemma change_passwordlessAreGoogle (L : Lib) (o : Oracle.t) (w w' : World) :
  passwordlessAreGoogle w -> Change L o (users w) (users w') ->
  passwordlessAreGoogle w'.
Proof.
  unfold passwordlessAreGoogle. intros Hw Hc. destruct w' as [l' ev']. simpl in *.
  destruct Hc as [|u Hvalid Hfresh Hnew|id f Hf]; intros d Hd Hp.
  - exact (Hw d Hd Hp).
  - apply in_app_or in Hd. destruct Hd as [Hd | [<- | []]].
    + exact (Hw d Hd Hp).
    + apply preSave_password_none in Hp.
      destruct (preSave_keeps L (Oracle.salt o) u)
        as (_ & _ & Hverified & Hgoogle & _).
      rewrite Hverified, Hgoogle.
      destruct Hnew as [((p & Hsome) & _) | (_ & Hv & Hg & _)];
        [rewrite Hsome in Hp; discriminate | split; assumption].
  - apply in_map_iff in Hd. destruct Hd as (d0 & <- & Hd0).
    destruct (User._id d0 =? id)%string; [| exact (Hw d0 Hd0 Hp)].
    rewrite (assigned_password o f d0 Hf) in Hp.
    destruct (Hw d0 Hd0 Hp) as [Hv Hg].
    destruct Hf as [|g|]; simpl; split; eauto.
Qed.

(** X5.  An account without a password is a Google account: if every
    account that has no password is verified and carries a Google id, the
    same holds after any two requests, under every schedule. *)
Theorem passwordless_stay_google (L : Lib) (env : Env.t) (o1 o2 : Oracle.t)
    (r1 r2 : Request) (schedule : list bool) (w : World) :
  passwordlessAreGoogle w ->
  passwordlessAreGoogle
    (snd (race schedule (handle L env o1 r1) (handle L env o2 r2) w)).
Proof.
  apply handle_race_keeps. intros o w1 w2. apply change_passwordlessAreGoogle.
Qed.

Lemma passwordless_stay_google_witness :
  passwordlessAreGoogle Sample.world
  /\ passwordlessAreGoogle
       (snd (race [true; false]
               (handle Toy.lib Toy.development (Toy.oracle 1000 "u3" true)
                  (PostGoogle (Body.mkGoogleAuth (Some mockToken))))
               (handle Toy.lib Toy.development (Toy.oracle 1001 "u4" true)
                  (PostGoogle (Body.mkGoogleAuth (Some mockToken))))
               Sample.world)).
Proof.
  assert (H : passwordlessAreGoogle Sample.world).
  { intros d [<- | [<- | []]] Hp; discriminate Hp. }
  split; [exact H | apply passwordless_stay_google; exact H].
Defined.

(** ** The gate, read backwards *)

Lemma startsWith_app (s p : string) :
  JS.startsWith s p = true -> exists rest, s = p ++ rest.
Proof.
  revert s. induction p as [|a p IH]; intros s H.
  - exists s. reflexivity.
  - destruct s as [|b s]; simpl in H; [discriminate |].
    apply andb_true_iff in H. destruct H as [Hab Hrest].
    apply Ascii.eqb_eq in Hab. subst b.
    destruct (IH s Hrest) as [rest ->]. exists rest. reflexivity.
Qed.

Lemma authenticate_no_bearer (L : Lib) (env : Env.t) (o : Oracle.t)
    (authHeader : option string) (w : World) :
  (forall token, authHeader <> Some ("Bearer " ++ token)) ->
  run (authenticate L env o authHeader) w = (inl noToken, w).
Proof.
  intros Hno. unfold authenticate.
  destruct authHeader as [header|]; [| reflexivity].
  destruct (header =? "")%string; [reflexivity |].
  destruct (JS.startsWith header "Bearer ") eqn:Hp; [| reflexivity].
  apply startsWith_app in Hp. destruct Hp as [rest ->].
  elim (Hno rest). reflexivity.
Qed.

Lemma authenticate_bearer (L : Lib) (env : Env.t) (o : Oracle.t)
    (token : string) (w : World) :
  run (authenticate L env o (Some ("Bearer " ++ token))) w
  = (inl match verifyToken L env (Oracle.now o) token with
         | inr _ => Rejected (failure 401 (Text "Token is not valid."))
         | inl decoded =>
             if isObjectId L (Claims.userId decoded)
             then match find (fun d => (User._id d =? Claims.userId decoded)%string)
                          (users w) with
                  | Some stored => Next (User.selectPublic stored)
                  | None => Rejected (failure 401
                              (Text "Token is not valid - user not found."))
                  end
             else Rejected (failure 401 (Text "Token is not valid."))
         end, w).
Proof.
  unfold authenticate. destruct (bearer_token token) as [Hp Hs].
  assert (Hhead : ("Bearer " ++ token =? "")%string = false) by reflexivity.
  rewrite Hhead, Hp, Hs.
  destruct (verifyToken _ _ _ _) as [decoded|e]; [| reflexivity].
  simpl. unfold Db.findById.
  destruct (isObjectId L _); [| reflexivity].
  destruct (find _ _); reflexivity.
Qed.

(** X6.  The gate lets a request through only for a bearer token that
    verifies at the instant of the request and whose [userId] claim is the
    [_id] of a stored account; what it attaches is that account without its
    password hash and its code, and the world is as it was. *)
Theorem gate_passes_only_token_holders (L : Lib) (env : Env.t) (o : Oracle.t)
    (authHeader : option string) (w w' : World) (user : User.t) :
  run (authenticate L env o authHeader) w = (inl (Next user), w') ->
  exists token decoded stored,
    authHeader = Some ("Bearer " ++ token)
    /\ verifyToken L env (Oracle.now o) token = inl decoded
    /\ isObjectId L (Claims.userId decoded) = true
    /\ In stored (users w)
    /\ User._id stored = Claims.userId decoded
    /\ user = User.selectPublic stored
    /\ User.password user = None /\ User.otp user = None
    /\ User.otpExpiry user = None
    /\ w' = w.
Proof.
  intros Hrun.
  destruct authHeader as [header|]; [| discriminate Hrun].
  destruct (JS.startsWith header "Bearer ") eqn:Hp.
  - apply startsWith_app in Hp. destruct Hp as [token ->].
    rewrite authenticate_bearer in Hrun.
    destruct (verifyToken _ _ _ _) as [decoded|e] eqn:Hv; [| discriminate Hrun].
    destruct (isObjectId L _) eqn:Hid; [| discriminate Hrun].
    destruct (find _ _) as [stored|] eqn:Hf; [| discriminate Hrun].
    injection Hrun as <- <-.
    apply find_some in Hf. destruct Hf as [Hin Heq].
    apply String.eqb_eq in Heq.
    exists token, decoded, stored. repeat split; auto.
  - rewrite authenticate_no_bearer in Hrun; [discriminate Hrun |].
    intros token [= ->]. discriminate Hp.
Qed.

Lemma gate_passes_only_token_holders_witness :
  exists token decoded stored,
    Some ("Bearer " ++ Sample.aliceToken) = Some ("Bearer " ++ token)
    /\ verifyToken Toy.lib Toy.env (Oracle.now (Toy.oracle 6000 "u9" true)) token
       = inl decoded
    /\ isObjectId Toy.lib (Claims.userId decoded) = true
    /\ In stored (users Sample.world)
    /\ User._id stored = Claims.userId decoded
    /\ User.selectPublic Sample.alice = User.selectPublic stored
    /\ User.password (User.selectPublic Sample.alice) = None
    /\ User.otp (User.selectPublic Sample.alice) = None
    /\ User.otpExpiry (User.selectPublic Sample.alice) = None
    /\ Sample.world = Sample.world.
Proof.
  apply (gate_passes_only_token_holders Toy.lib Toy.env
           (Toy.oracle 6000 "u9" true) (Some ("Bearer " ++ Sample.aliceToken))
           Sample.world Sample.world (User.selectPublic Sample.alice)).
  reflexivity.
Defined.

(** X7.  The gate answers a request in one of two ways only: it lets it
    through, or it answers 401 (never 500), and in both cases it leaves the
    world as it was.  The answer is the one for a missing token exactly
    when the Authorization header is absent or does not start with
    [Bearer ]. *)
Theorem gate_answers (L : Lib) (env : Env.t) (o : Oracle.t)
    (authHeader : option string) (w : World) :
  exists g,
    run (authenticate L env o authHeader) w = (inl g, w)
    /\ (forall r, g = Rejected r -> Response.status r = 401)
    /\ (g = noToken <-> forall token, authHeader <> Some ("Bearer " ++ token)).
Proof.
  destruct authHeader as [header|].
  - destruct (JS.startsWith header "Bearer ") eqn:Hp.
    + apply startsWith_app in Hp. destruct Hp as [token ->].
      rewrite authenticate_bearer. eexists. split; [reflexivity |].
      split.
      * intros r.
        destruct (verifyToken _ _ _ _) as [decoded|e]; [| now intros [= <-]].
        destruct (isObjectId L _); [| now intros [= <-]].
        destruct (find _ _); [discriminate | now intros [= <-]].
      * split.
        -- intros Hg. exfalso.
           destruct (verifyToken _ _ _ _) as [decoded|e]; [| discriminate Hg].
           destruct (isObjectId L _); [| discriminate Hg].
           destruct (find _ _); discriminate Hg.
        -- intros Hno. elim (Hno token). reflexivity.
    + assert (Hno : forall token, Some header <> Some ("Bearer " ++ token)).
      { intros token [= ->]. discriminate Hp. }
      rewrite (authenticate_no_bearer L env o (Some header) w Hno).
      exists noToken. split; [reflexivity |]. split.
      * now intros r [= <-].
      * split; [intros _; exact Hno | reflexivity].
  - exists noToken. split; [reflexivity |]. split.
    + now intros r [= <-].
    + split; [intros _ token; discriminate | reflexivity].
Qed.

(** ** The signing secret *)

(** X8.  A token that was issued under one secret is refused under every
    secret that signs its claims differently: [verifyToken] throws
    'invalid signature' at every instant, and the gate answers 401.  So a
    process whose secret was changed honours no token of the old one. *)
Theorem rotated_secret_rejects (L : Lib) (env env' : Env.t) (user : User.t)
    (issued : Z) (token : string) :
  jwt_codec L ->
  generateToken L env issued user = Some token ->
  (forall c,
      hs256 L (JS.orElse (Env.JWT_SECRET env) "default-secret") c
      <> hs256 L (JS.orElse (Env.JWT_SECRET env') "default-secret") c) ->
  (forall t,
      verifyToken L env' t token
      = inr (JsonWebTokenError "invalid signature"))
  /\ (forall (o : Oracle.t) (w : World),
        run (authenticate L env' o (Some ("Bearer " ++ token))) w
        = (inl (Rejected (failure 401 (Text "Token is not valid."))), w)).
Proof.
  intros Hcodec Hgen Hdiff.
  assert (Hv : forall t,
             verifyToken L env' t token
             = inr (JsonWebTokenError "invalid signature")).
  { intros t. unfold generateToken, jsonwebtoken.sign in Hgen.
    destruct (ms L _) as [span|]; [| discriminate Hgen].
    injection Hgen as <-.
    unfold verifyToken, jsonwebtoken.verify.
    destruct (Hcodec (Jwt.mk
                (Claims.mk (User._id user) (User.email user) (issued / 1000)
                   (Some (issued / 1000 + span / 1000)))
                (hs256 L (JS.orElse (Env.JWT_SECRET env) "default-secret")
                   (Claims.mk (User._id user) (User.email user) (issued / 1000)
                      (Some (issued / 1000 + span / 1000))))))
      as [Hdec Hne].
    apply String.eqb_neq in Hne. rewrite Hne, Hdec. simpl.
    specialize (Hdiff (Claims.mk (User._id user) (User.email user) (issued / 1000)
                         (Some (issued / 1000 + span / 1000)))).
    apply String.eqb_neq in Hdiff. rewrite Hdiff. reflexivity. }
  split; [exact Hv |].
  intros o w. rewrite authenticate_bearer, Hv. reflexivity.
Qed.

Lemma rotated_secret_rejects_witness :
  (forall t,
      verifyToken Toy.lib (Env.mk (Some "rotated") None None None) t
        Sample.aliceToken
      = inr (JsonWebTokenError "invalid signature"))
  /\ (forall (o : Oracle.t) (w : World),
        run (authenticate Toy.lib (Env.mk (Some "rotated") None None None) o
               (Some ("Bearer " ++ Sample.aliceToken))) w
        = (inl (Rejected (failure 401 (Text "Token is not valid."))), w)).
Proof.
  apply (rotated_secret_rejects Toy.lib Toy.env
           (Env.mk (Some "rotated") None None None) Sample.alice 5000
           Sample.aliceToken).
  - exact toy_codec.
  - reflexivity.
  - intros c H. discriminate H.
Defined.

(** ** The life of a code *)

Lemma verifyOtp_200 (L : Lib) (env : Env.t) (o : Oracle.t) (body : Body.Otp)
    (w w' : World) (r : Response.t) :
  run (verifyOtp L env o body) w = (inl r, w') ->
  Response.status r = 200 ->
  exists email otp stored token,
    otpSchema L body = inl (email, otp)
    /\ find (pendingOtp email otp (Oracle.now o)) (users w) = Some stored
    /\ generateToken L env (Oracle.now o)
         (User.markVerified (User.selectOtp stored)) = Some token
    /\ r = Response.mk 200 true (Some (Text "Email verified successfully"))
             (Some (Session token
                      (profileOf (User.markVerified (User.selectOtp stored)))))
    /\ w' = mkWorld
              (map (fun d => if (User._id d =? User._id stored)%string
                             then User.markVerified d else d) (users w))
              (events w ++ [Updated (User._id stored)]).
Proof.
  unfold verifyOtp.
  destruct (otpSchema L body) as [[email otp]|m]; simpl;
    [| intros [= <- _]; discriminate].
  unfold Db.findOne.
  destruct (find _ (users w)) as [stored|] eqn:Hfind; simpl;
    [| intros [= <- _]; discriminate].
  unfold issue.
  destruct (generateToken L env (Oracle.now o) _) as [token|] eqn:Hgen; simpl;
    [| intros [= <- _]; discriminate].
  intros [= <- <-] _. exists email, otp, stored, token.
  repeat split; assumption || reflexivity.
Qed.

Lemma find_map_same {A : Type} (f : A -> bool) (g : A -> A) (l : list A) :
  (forall x, f (g x) = f x) ->
  find f (map g l) = option_map g (find f l).
Proof.
  intros Hfg. induction l as [|x l IH]; simpl; [reflexivity |].
  rewrite Hfg. destruct (f x); [reflexivity | exact IH].
Qed.

Lemma otpSchema_email (L : Lib) (body : Body.Otp) (email otp : string) :
  otpSchema L body = inl (email, otp) ->
  Body.o_email body = Some email /\ Body.o_otp body = Some otp.
Proof.
  unfold otpSchema, Joi.string.
  destruct (Body.o_email body) as [e|]; [| discriminate].
  destruct (e =? "")%string; [discriminate |].
  destruct (find _ _); [discriminate |].
  destruct (Body.o_otp body) as [c|]; [| discriminate].
  destruct (c =? "")%string; [discriminate |].
  destruct (find _ _); [discriminate |].
  intros [= <- <-]. split; reflexivity.
Qed.




Lemma signupSchema_accepts (L : Lib) (body : Body.Signup)
    (email password firstName lastName : string) :
  signupSchema L body = inl (email, password, firstName, lastName) ->
  Joi.string L [Joi.string_email] (Some email) = inl email
  /\ (6 <= String.length password)%nat.
Proof.
  intros H. unfold signupSchema in H.
  destruct (Joi.string L [Joi.string_email] (Body.s_email body)) as [e|]
    eqn:He; [| discriminate H].
  destruct (Joi.string L [Joi.string_min 6] (Body.s_password body)) as [p|]
    eqn:Hp; [| discriminate H].
  destruct (Joi.string L _ (Body.s_firstName body)) as [f|]; [| discriminate H].
  destruct (Joi.string L _ (Body.s_lastName body)) as [l|]; [| discriminate H].
  injection H as <- <- <- <-. split.
  - unfold Joi.string in *.
    destruct (Body.s_email body) as [e0|]; [| discriminate He].
    destruct (e0 =? "")%string eqn:He0; [discriminate He |].
    destruct (find _ _) eqn:Hf; [discriminate He |].
    injection He as <-. rewrite He0, Hf. reflexivity.
  - unfold Joi.string in Hp.
    destruct (Body.s_password body) as [p0|]; [| discriminate Hp].
    destruct (p0 =? "")%string; [discriminate Hp |].
    destruct (find _ _) eqn:Hf; [discriminate Hp |].
    injection Hp as <-. simpl in Hf.
    destruct (String.length p0 <? 6)%nat eqn:Hlen; [discriminate Hf |].
    apply Nat.ltb_ge in Hlen. exact Hlen.
Qed.






(** ** Password login *)

Lemma loginSchema_fields (L : Lib) (body : Body.Login) (email password : string) :
  loginSchema L body = inl (email, password) ->
  Body.l_email body = Some email /\ Body.l_password body = Some password.
Proof.
  unfold loginSchema, Joi.string.
  destruct (Body.l_email body) as [e|]; [| discriminate].
  destruct (e =? "")%string; [discriminate |].
  destruct (find _ _); [discriminate |].
  destruct (Body.l_password body) as [p|]; [| discriminate].
  destruct (p =? "")%string; [discriminate |].
  simpl. intros [= <- <-]. split; reflexivity.
Qed.

(** X11.  The login route hands out a session only for an account that is
    stored under the email of the request (in lower case), that is
    verified, and whose stored hash bcrypt accepts for the password of the
    request; the profile of the response is that account's, and the world
    is left as it was. *)
Theorem login_session_sound (L : Lib) (env : Env.t) (o : Oracle.t)
    (body : Body.Login) (w w' : World) (r : Response.t) :
  run (login L env o body) w = (inl r, w') ->
  Response.status r = 200 ->
  exists email password stored hash token,
    Body.l_email body = Some email
    /\ Body.l_password body = Some password
    /\ In stored (users w)
    /\ User.email stored = JS.toLowerCase email
    /\ User.isEmailVerified stored = true
    /\ User.password stored = Some hash
    /\ bcrypt_compare L password hash = true
    /\ r = Response.mk 200 true (Some (Text "Login successful"))
             (Some (Session token (profileOf stored)))
    /\ w' = w.
Proof.
  unfold login.
  destruct (loginSchema L body) as [[email password]|m] eqn:Hs; simpl;
    [| intros [= <- _]; discriminate].
  destruct (loginSchema_fields L body email password Hs) as [He Hp].
  unfold Db.findOne.
  destruct (find (byEmail email) (users w)) as [stored|] eqn:Hfind; simpl;
    [| intros [= <- _]; discriminate].
  destruct (User.isEmailVerified stored) eqn:Hv; simpl;
    [| intros [= <- _]; discriminate].
  unfold User.comparePassword. simpl.
  destruct (User.password stored) as [hash|] eqn:Hh; simpl;
    [| intros [= <- _]; discriminate].
  destruct (hash =? "")%string; simpl; [intros [= <- _]; discriminate |].
  destruct (bcrypt_compare L password hash) eqn:Hc; simpl;
    [| intros [= <- _]; discriminate].
  unfold issue.
  destruct (generateToken L env (Oracle.now o) _) as [token|]; simpl;
    [| intros [= <- _]; discriminate].
  intros [= <- <-] _.
  apply find_some in Hfind. destruct Hfind as [Hin Hb].
  apply byEmail_true in Hb.
  exists email, password, stored, hash, token.
  repeat split; assumption.
Qed.

Lemma login_session_sound_witness :
  exists email password stored hash token,
    Body.l_email (Body.mkLogin (Some "A@x.com") (Some "secret1")) = Some email
    /\ Body.l_password (Body.mkLogin (Some "A@x.com") (Some "secret1"))
       = Some password
    /\ In stored (users Sample.world)
    /\ User.email stored = JS.toLowerCase email
    /\ User.isEmailVerified stored = true
    /\ User.password stored = Some hash
    /\ bcrypt_compare Toy.lib password hash = true
    /\ Response.mk 200 true (Some (Text "Login successful"))
         (Some (Session Sample.aliceToken (profileOf Sample.alice)))
       = Response.mk 200 true (Some (Text "Login successful"))
           (Some (Session token (profileOf stored)))
    /\ Sample.world = Sample.world.
Proof.
  apply (login_session_sound Toy.lib Toy.env (Toy.oracle 5000 "u9" true)
           (Body.mkLogin (Some "A@x.com") (Some "secret1"))
           Sample.world Sample.world
           (Response.mk 200 true (Some (Text "Login successful"))
              (Some (Session Sample.aliceToken (profileOf Sample.alice)))));
    reflexivity.
Defined.

Lemma loginSchema_accepts (L : Lib) (email password : string) :
  Joi.string L [Joi.string_email] (Some email) = inl email ->
  password <> "" ->
  loginSchema L (Body.mkLogin (Some email) (Some password))
  = inl (email, password).
Proof.
  intros He Hp. unfold loginSchema. simpl Body.l_email. rewrite He.
  simpl Body.l_password. unfold Joi.string.
  apply String.eqb_neq in Hp. rewrite Hp. reflexivity.
Qed.

Lemma markVerified_byEmail (email id : string) (d : User.t) :
  byEmail email (if (User._id d =? id)%string then User.markVerified d else d)
  = byEmail email d.
Proof. destruct (_ =? _)%string; reflexivity. Qed.

(** X12.  Signup, verification and login compose.  After a signup that was
    answered 201 and a verify-otp for the same address (in any letter
    case) that was answered 200, a login with the address and the password
    of the signup is answered 200 with a session for the new account,
    verified, at every later instant, provided bcrypt accepts the password
    against the hash it made of it. *)
Theorem password_login_after_verification (L : Lib) (env : Env.t)
    (o o2 o3 : Oracle.t) (body : Body.Signup) (body2 : Body.Otp)
    (email password firstName lastName email2 : string)
    (w w1 w2 : World) (r r2 : Response.t) :
  run (signup L o body) w = (inl r, w1) ->
  Response.status r = 201 ->
  signupSchema L body = inl (email, password, firstName, lastName) ->
  run (verifyOtp L env o2 body2) w1 = (inl r2, w2) ->
  Response.status r2 = 200 ->
  Body.o_email body2 = Some email2 ->
  JS.toLowerCase email2 = JS.toLowerCase email ->
  bcrypt_hash L password (Oracle.salt o) <> "" ->
  bcrypt_compare L password (bcrypt_hash L password (Oracle.salt o)) = true ->
  exists token,
    run (login L env o3 (Body.mkLogin (Some email) (Some password))) w2
    = (inl (Response.mk 200 true (Some (Text "Login successful"))
              (Some (Session token
                       (Profile.mk (Oracle.objectId o) (JS.toLowerCase email)
                          (JS.trim firstName) (JS.trim lastName) "" true)))),
       w2).
Proof.
  intros Hrun Hstatus Hschema Hrun2 Hstatus2 Hbody2 Hcase Hne Hcmp.
  destruct (signup_201 L o body w w1 r Hrun Hstatus)
    as (e & p & f & l & Hs & Hfind & _ & Husers).
  rewrite Hschema in Hs. injection Hs as <- <- <- <-.
  destruct (signupSchema_accepts L body email password firstName lastName Hschema)
    as [Hjoi Hlen].
  assert (Hpw : password <> "").
  { intros ->. simpl in Hlen. lia. }
  set (new := User.preSave L (Oracle.salt o)
                (signupDocument o email password firstName lastName)) in *.
  destruct (verifyOtp_200 L env o2 body2 w1 w2 r2 Hrun2 Hstatus2)
    as (e2 & c2 & stored & token2 & Hs2 & Hfind2 & Hgen2 & _ & ->).
  destruct (otpSchema_email L body2 e2 c2 Hs2) as [He2 _].
  rewrite Hbody2 in He2. injection He2 as <-.
  (* The account that was verified is the new one. *)
  assert (Hstored : stored = new).
  { rewrite Husers in Hfind2. rewrite find_app_absent in Hfind2.
    - simpl in Hfind2. destruct (pendingOtp _ _ _ new); [| discriminate Hfind2].
      injection Hfind2 as <-. reflexivity.
    - intros d Hd. unfold pendingOtp.
      destruct (byEmail email2 d) eqn:Hb; [| reflexivity].
      apply byEmail_true in Hb. rewrite Hcase in Hb.
      elim (byEmail_absent email (users w) Hfind d Hd Hb). }
  subst stored.
  destruct (preSave_keeps L (Oracle.salt o)
              (signupDocument o email password firstName lastName))
    as (Hid & Hemail & _).
  fold new in Hid, Hemail.
  assert (Hnew : User.password new = Some (bcrypt_hash L password (Oracle.salt o))
                 /\ User.firstName new = JS.trim firstName
                 /\ User.lastName new = JS.trim lastName
                 /\ User.profilePicture new = "").
  { unfold new, User.preSave, signupDocument. simpl.
    apply String.eqb_neq in Hpw. rewrite Hpw. simpl. repeat split. }
  destruct Hnew as (Hpass & Hfirst & Hlast & Hpic).
  (* The login finds it, verified. *)
  assert (Hlogin : find (byEmail email)
                     (map (fun d => if (User._id d =? User._id new)%string
                                    then User.markVerified d else d) (users w1))
                   = Some (User.markVerified new)).
  { rewrite find_map_same; [| intros x; apply markVerified_byEmail].
    rewrite Husers. rewrite find_app_absent.
    - assert (Hb : byEmail email new = true).
      { apply byEmail_true. rewrite Hemail. reflexivity. }
      simpl. rewrite Hb. simpl. rewrite String.eqb_refl. reflexivity.
    - intros d Hd. destruct (byEmail email d) eqn:Hb; [| reflexivity].
      apply byEmail_true in Hb.
      elim (byEmail_absent email (users w) Hfind d Hd Hb). }
  unfold generateToken, jsonwebtoken.sign in Hgen2.
  destruct (ms L (JS.orElse (Env.JWT_EXPIRE env) "7d")) as [span|] eqn:Hms;
    [| discriminate Hgen2].
  destruct (generateToken_signs L env (Oracle.now o3) span
              (User.selectPassword (User.markVerified new)) Hms)
    as [token Hgen].
  exists token. unfold login.
  rewrite (loginSchema_accepts L email password Hjoi Hpw). simpl.
  unfold Db.findOne. simpl. rewrite Hlogin. simpl.
  unfold User.comparePassword. simpl. rewrite Hpass.
  apply String.eqb_neq in Hne. rewrite Hne, Hcmp. simpl.
  unfold issue. rewrite Hgen. simpl.
  unfold profileOf. simpl.
  rewrite Hid, Hemail, Hfirst, Hlast, Hpic. reflexivity.
Qed.

Lemma password_login_after_verification_witness :
  exists token,
    run (login Toy.lib Toy.env (Toy.oracle 3000 "u9" true)
           (Body.mkLogin (Some "c@x.com") (Some "secret3")))
      (snd (run (verifyOtp Toy.lib Toy.env (Toy.oracle 2000 "u9" true)
                   (Body.mkOtp (Some "C@X.com") (Some "550000")))
              (snd (run Scenario.firstSignup Toy.empty))))
    = (inl (Response.mk 200 true (Some (Text "Login successful"))
              (Some (Session token
                       (Profile.mk "u3" (JS.toLowerCase "c@x.com")
                          (JS.trim "Carol") (JS.trim "C") "" true)))),
       snd (run (verifyOtp Toy.lib Toy.env (Toy.oracle 2000 "u9" true)
                   (Body.mkOtp (Some "C@X.com") (Some "550000")))
              (snd (run Scenario.firstSignup Toy.empty)))).
Proof.
  eapply (password_login_after_verification Toy.lib Toy.env
            (Toy.oracle 1000 "u3" true) (Toy.oracle 2000 "u9" true)
            (Toy.oracle 3000 "u9" true) Scenario.carol
            (Body.mkOtp (Some "C@X.com") (Some "550000"))
            "c@x.com" "secret3" "Carol" "C" "C@X.com" Toy.empty
            (snd (run Scenario.firstSignup Toy.empty))).
  - reflexivity.
  - reflexivity.
  - reflexivity.
  - reflexivity.
  - reflexivity.
  - reflexivity.
  - reflexivity.
  - discriminate.
  - reflexivity.
Defined.

(** ** Sessions *)

Lemma linkOrCreate_stored (L : Lib) (o : Oracle.t)
    (googleId email firstName : string) (lastName picture : option string)
    (w w' : World) (user : User.t) :
  run (linkOrCreate L o googleId email firstName lastName picture) w
  = (inl user, w') ->
  exists stored,
    In stored (users w') /\ User._id stored = User._id user
    /\ profileOf stored = profileOf user.
Proof.
  unfold linkOrCreate. simpl. unfold Db.findOne.
  destruct (find _ (users w)) as [stored|] eqn:Hfind; simpl.
  - apply find_some in Hfind. destruct Hfind as [Hin _].
    destruct (JS.falsy (User.googleId stored)); simpl; intros [= <- <-].
    + exists (User.set_isEmailVerified true
                (User.set_googleId (Some googleId) stored)).
      split; [| split; reflexivity].
      apply (in_saveModified (User._id stored)
               (fun u => User.set_isEmailVerified true
                           (User.set_googleId (Some googleId) u))
               (users w) stored Hin eq_refl).
    + exists stored. repeat split. exact Hin.
  - unfold Db.saveNew. destruct (User.validate _); simpl; [discriminate |].
    unfold Db.insertOne.
    destruct (existsb _ (users w)); simpl; [discriminate |].
    destruct (existsb _ (users w)); simpl; [discriminate |].
    intros [= <- <-]. eexists. split; [| split; reflexivity].
    simpl. apply in_or_app. right. left. reflexivity.
Qed.

Lemma authenticate_rejection (L : Lib) (env : Env.t) (o : Oracle.t)
    (authHeader : option string) (w w' : World) (r : Response.t) :
  run (authenticate L env o authHeader) w = (inl (Rejected r), w') ->
  Response.data r = None.
Proof.
  destruct authHeader as [header|]; [| intros [= <- _]; reflexivity].
  destruct (JS.startsWith header "Bearer ") eqn:Hp.
  - apply startsWith_app in Hp. destruct Hp as [token ->].
    rewrite authenticate_bearer.
    destruct (verifyToken _ _ _ _) as [decoded|e]; [| intros [= <- _]; reflexivity].
    destruct (isObjectId L _); [| intros [= <- _]; reflexivity].
    destruct (find _ _); [discriminate | intros [= <- _]; reflexivity].
  - rewrite authenticate_no_bearer; [intros [= <- _]; reflexivity |].
    intros token [= ->]. discriminate Hp.
Qed.

Opaque linkOrCreate.

Lemma google_session (L : Lib) (env : Env.t) (o : Oracle.t)
    (body : Body.GoogleAuth) (w w' : World) (resp : Response.t)
    (token : string) (profile : Profile.t) :
  run (google L env o body) w = (inl resp, w') ->
  Response.data resp = Some (Session token profile) ->
  issuedFor L env o w' token profile.
Proof.
  unfold google. rewrite run_catch.
  destruct (googleAuthSchema L body) as [googleToken|m]; simpl;
    [| intros [= <- _]; discriminate].
  destruct (_ && _).
  - rewrite run_bind.
    destruct (run (linkOrCreate _ _ _ _ _ _ _) w) as [[user|e] w1] eqn:Hl;
      simpl; [| intros [= <- _]; discriminate].
    unfold issue.
    destruct (generateToken L env (Oracle.now o) user) as [t|] eqn:Hgen; simpl;
      [| intros [= <- _]; discriminate].
    intros [= <- <-] [= <- <-].
    destruct (linkOrCreate_stored _ _ _ _ _ _ _ _ _ _ Hl)
      as (stored & Hin & Hid & Hprofile).
    exists user, stored. repeat split; assumption.
  - simpl. destruct (Oracle.google o googleToken _) as [|[p|]]; simpl;
      try (intros [= <- _]; discriminate).
    destruct (_ || _); simpl; [intros [= <- _]; discriminate |].
    rewrite run_bind.
    destruct (run (linkOrCreate _ _ _ _ _ _ _) _) as [[user|e] w1] eqn:Hl;
      simpl; [| intros [= <- _]; discriminate].
    unfold issue.
    destruct (generateToken L env (Oracle.now o) user) as [t|] eqn:Hgen; simpl;
      [| intros [= <- _]; discriminate].
    intros [= <- <-] [= <- <-].
    destruct (linkOrCreate_stored _ _ _ _ _ _ _ _ _ _ Hl)
      as (stored & Hin & Hid & Hprofile).
    exists user, stored. repeat split; assumption.
Qed.

Transparent linkOrCreate.

Lemma session_issued (L : Lib) (env : Env.t) (o : Oracle.t) (r : Request)
    (w w' : World) (resp : Response.t) (token : string) (profile : Profile.t) :
  run (handle L env o r) w = (inl resp, w') ->
  Response.data resp = Some (Session token profile) ->
  issuedFor L env o w' token profile.
Proof.
  destruct r as [body|body|body|body|authHeader|body]; simpl.
  - (* signup *)
    unfold signup.
    destruct (signupSchema L body) as [[[[email password] firstName] lastName]|m];
      simpl; [| intros [= <- _]; discriminate].
    unfold Db.findOne.
    destruct (find (byEmail email) (users w)); simpl;
      [intros [= <- _]; discriminate |].
    unfold Db.saveNew.
    destruct (User.validate _); simpl; [intros [= <- _]; discriminate |].
    unfold Db.insertOne.
    destruct (existsb _ _); simpl; [intros [= <- _]; discriminate |].
    destruct (existsb _ _); simpl; [intros [= <- _]; discriminate |].
    unfold sendOTPEmail. destruct (Oracle.mail o); simpl;
      intros [= <- _]; discriminate.
  - (* verify-otp *)
    intros Hrun Hdata.
    assert (Hstatus : Response.status resp = 200).
    { revert Hrun Hdata. unfold verifyOtp.
      destruct (otpSchema L body) as [[email otp]|m]; simpl;
        [| intros [= <- _]; discriminate].
      unfold Db.findOne.
      destruct (find _ (users w)); simpl; [| intros [= <- _]; discriminate].
      unfold issue. destruct (generateToken _ _ _ _); simpl;
        intros [= <- _]; [reflexivity | discriminate]. }
    destruct (verifyOtp_200 L env o body w w' resp Hrun Hstatus)
      as (email & otp & stored & t & _ & Hfind & Hgen & -> & ->).
    injection Hdata as <- <-.
    apply find_some in Hfind. destruct Hfind as [Hin _].
    exists (User.markVerified (User.selectOtp stored)), (User.markVerified stored).
    repeat split; try assumption.
    apply (in_saveModified (User._id stored) User.markVerified (users w) stored
             Hin eq_refl).
  - (* login *)
    intros Hrun Hdata.
    assert (Hstatus : Response.status resp = 200).
    { revert Hrun Hdata. unfold login.
      destruct (loginSchema L body) as [[email password]|m]; simpl;
        [| intros [= <- _]; discriminate].
      unfold Db.findOne.
      destruct (find _ (users w)) as [stored|]; simpl;
        [| intros [= <- _]; discriminate].
      destruct (User.isEmailVerified stored); simpl;
        [| intros [= <- _]; discriminate].
      destruct (User.comparePassword _ _ _); simpl;
        [| intros [= <- _]; discriminate].
      unfold issue. destruct (generateToken _ _ _ _); simpl;
        intros [= <- _]; [reflexivity | discriminate]. }
    revert Hrun. unfold login.
    destruct (loginSchema L body) as [[email password]|m]; simpl;
      [| intros [= <- _]; discriminate].
    unfold Db.findOne.
    destruct (find _ (users w)) as [stored|] eqn:Hfind; simpl;
      [| intros [= <- _]; discriminate].
    destruct (User.isEmailVerified stored) eqn:Hv; simpl;
      [| intros [= <- _]; discriminate].
    destruct (User.comparePassword _ _ _); simpl;
      [| intros [= <- _]; discriminate].
    unfold issue.
    destruct (generateToken L env (Oracle.now o) _) as [t|] eqn:Hgen; simpl;
      [| intros [= <- _]; discriminate].
    intros [= <- <-]. injection Hdata as <- <-.
    apply find_some in Hfind. destruct Hfind as [Hin _].
    exists (User.selectPassword stored), stored.
    repeat split; assumption.
  - apply google_session.
  - (* me *)
    unfold me. rewrite run_bind.
    destruct (run (authenticate L env o authHeader) w) as [[[rej|user]|e] w1]
      eqn:Hauth; simpl.
    + intros [= <- _] Hdata.
      rewrite (authenticate_rejection _ _ _ _ _ _ _ Hauth) in Hdata.
      discriminate Hdata.
    + intros [= <- _]; discriminate.
    + discriminate.
  - (* resend-otp *)
    unfold resendOtp.
    destruct (JS.falsy (Body.r_email body)); simpl;
      [intros [= <- _]; discriminate |].
    unfold Db.findOne.
    destruct (find _ (users w)); simpl; [| intros [= <- _]; discriminate].
    unfold sendOTPEmail. destruct (Oracle.mail o); simpl;
      intros [= <- _]; discriminate.
Qed.

Lemma find_by_id (l : list User.t) (x : User.t) :
  NoDup (map User._id l) -> In x l ->
  find (fun d => (User._id d =? User._id x)%string) l = Some x.
Proof.
  induction l as [|d l IH]; simpl; intros Hnd Hin; [contradiction |].
  apply NoDup_cons_iff in Hnd. destruct Hnd as [Hnot Hnd].
  destruct Hin as [-> | Hin].
  - rewrite String.eqb_refl. reflexivity.
  - destruct (User._id d =? User._id x)%string eqn:Heq; [| exact (IH Hnd Hin)].
    apply String.eqb_eq in Heq. elim Hnot. rewrite Heq.
    apply in_map. exact Hin.
Qed.

(** X13.  The gate honours every session that the routes hand out.
    Whenever a request to the authentication routes is answered with a
    token and a profile, a GET /me that presents the token before its
    expiry, to the world as that request left it, is answered 200 with the
    same profile (given that ids are unique and are ObjectIds). *)
Theorem session_tokens_open_gate (L : Lib) (env : Env.t) (o o' : Oracle.t)
    (r : Request) (w w' : World) (resp : Response.t) (token : string)
    (profile : Profile.t) (span : Z) :
  jwt_codec L ->
  run (handle L env o r) w = (inl resp, w') ->
  Response.data resp = Some (Session token profile) ->
  NoDup (map User._id (users w')) ->
  isObjectId L (Profile.id profile) = true ->
  ms L (JS.orElse (Env.JWT_EXPIRE env) "7d") = Some span ->
  Oracle.now o' < 1000 * (Oracle.now o / 1000 + span / 1000) ->
  run (me L env o' (Some ("Bearer " ++ token))) w'
  = (inl (Response.mk 200 true None (Some (Identity profile))), w').
Proof.
  intros Hcodec Hrun Hdata Hids Hoid Hms Htime.
  destruct (session_issued L env o r w w' resp token profile Hrun Hdata)
    as (user & stored & Hgen & -> & Hin & Hid & Hprofile).
  unfold me. rewrite run_bind, authenticate_bearer.
  rewrite (issued_token_verifies L env user (Oracle.now o) span (Oracle.now o')
             token Hcodec Hms Hgen Htime).
  simpl Claims.userId. simpl in Hoid. rewrite Hoid, <- Hid.
  rewrite (find_by_id (users w') stored Hids Hin). simpl.
  rewrite <- Hprofile. reflexivity.
Qed.

Lemma session_tokens_open_gate_witness :
  run (me Toy.lib Toy.env (Toy.oracle 9000 "u9" true)
         (Some ("Bearer " ++ Sample.aliceToken))) Sample.world
  = (inl (Response.mk 200 true None
            (Some (Identity (profileOf Sample.alice)))), Sample.world).
Proof.
  apply (session_tokens_open_gate Toy.lib Toy.env (Toy.oracle 5000 "u9" true)
           (Toy.oracle 9000 "u9" true)
           (PostLogin (Body.mkLogin (Some "a@x.com") (Some "secret1")))
           Sample.world Sample.world
           (Response.mk 200 true (Some (Text "Login successful"))
              (Some (Session Sample.aliceToken (profileOf Sample.alice))))
           Sample.aliceToken (profileOf Sample.alice) 604800000).
  - exact toy_codec.
  - reflexivity.
  - reflexivity.
  - simpl. constructor.
    + intros [H | []]. discriminate H.
    + constructor; [intros [] | constructor].
  - reflexivity.
  - reflexivity.
  - reflexivity.
Defined.

(** ** Resending a code *)





(** ** Two verifications in flight *)



(** ** Signup, where the two validations disagree *)

Lemma validate_paths (u : User.t) (path : string) :
  User.validate u = Some path ->
  path = "email" \/ path = "password" \/ path = "firstName"
  \/ path = "lastName".
Proof.
  unfold User.validate.
  destruct (_ || _); [intros [= <-]; auto |].
  destruct (match User.password u with Some _ => _ | None => _ end);
    [intros [= <-]; auto |].
  destruct (_ || _); [intros [= <-]; auto |].
  destruct (_ || _); [intros [= <-]; auto | discriminate].
Qed.

(** X16.  Joi and the schema of the model do not accept the same bodies.
    When Joi accepts a signup for a free email and a validator of the model
    then rejects the document (an address that the pattern of the model
    does not match, a name that is only blanks), the route answers 500
    'Server error during signup': nothing is stored, no mail is attempted,
    and the failure is on the console.  The validator that fails is never
    the one of the password, which Joi has already bounded. *)
Theorem signup_rejected_by_model (L : Lib) (o : Oracle.t) (body : Body.Signup)
    (email password firstName lastName path : string) (w : World) :
  signupSchema L body = inl (email, password, firstName, lastName) ->
  find (byEmail email) (users w) = None ->
  User.validate (signupDocument o email password firstName lastName)
  = Some path ->
  run (signup L o body) w
  = (inl (failure 500 (Text "Server error during signup")),
     mkWorld (users w) (events w ++ [ConsoleError "Signup error:"]))
  /\ path <> "password".
Proof.
  intros Hs Hfind Hvalid. split.
  - unfold signup. rewrite Hs. simpl. unfold Db.findOne. rewrite Hfind. simpl.
    unfold Db.saveNew.
    change (User.create (Oracle.objectId o) email (Some password) firstName
              lastName false None "" (Some (generateOTP (Oracle.random o)))
              (Some (Oracle.now o + 600000)))
      with (signupDocument o email password firstName lastName).
    rewrite Hvalid. reflexivity.
  - destruct (signupSchema_accepts L body email password firstName lastName Hs)
      as [_ Hlen].
    intros ->. revert Hvalid. unfold User.validate.
    destruct (_ || _); [discriminate |].
    change (User.password (signupDocument o email password firstName lastName))
      with (Some password).
    cbv beta iota. apply Nat.ltb_ge in Hlen. rewrite Hlen.
    destruct (_ || _); [discriminate |].
    destruct (_ || _); discriminate.
Qed.

Lemma signup_rejected_by_model_witness :
  run (signup Toy.lib (Toy.oracle 1000 "u3" true)
         (Body.mkSignup (Some "c@x.info") (Some "secret3") (Some "  ")
            (Some "C"))) Sample.world
  = (inl (failure 500 (Text "Server error during signup")),
     mkWorld (users Sample.world)
       (events Sample.world ++ [ConsoleError "Signup error:"]))
  /\ "email" <> "password".
Proof.
  apply (signup_rejected_by_model Toy.lib (Toy.oracle 1000 "u3" true)
           (Body.mkSignup (Some "c@x.info") (Some "secret3") (Some "  ")
              (Some "C"))
           "c@x.info" "secret3" "  " "C" "email" Sample.world);
    reflexivity.
Defined.



(** ** A time span that is none *)



(** ** The Google route *)

Lemma falsy_false (v : option string) :
  JS.falsy v = false -> exists s, v = Some s /\ s <> "".
Proof.
  destruct v as [s|]; simpl; [| discriminate].
  intros H. exists s. split; [reflexivity |]. apply String.eqb_neq. exact H.
Qed.

Lemma googleAuthSchema_token (L : Lib) (body : Body.GoogleAuth) (token : string) :
  googleAuthSchema L body = inl token -> Body.g_token body = Some token.
Proof.
  unfold googleAuthSchema, Joi.string.
  destruct (Body.g_token body) as [t|]; [| discriminate].
  destruct (t =? "")%string; [discriminate |].
  simpl. intros [= <-]. reflexivity.
Qed.

Opaque linkOrCreate.

(** X19.  The Google route answers 200, or touches the users collection,
    only in two cases: the request carries the development token and
    NODE_ENV is 'development'; or Google has verified the token of the
    request for the configured audience, with a payload whose email, given
    name and family name are all present and not empty. *)
Theorem google_needs_verified_profile (L : Lib) (env : Env.t) (o : Oracle.t)
    (body : Body.GoogleAuth) (w w' : World) (r : Response.t) :
  run (google L env o body) w = (inl r, w') ->
  Response.status r = 200 \/ users w' <> users w ->
  exists token,
    Body.g_token body = Some token
    /\ ((token = mockToken /\ Env.NODE_ENV env = Some "development")
        \/ exists p email given family,
             Oracle.google o token (Env.GOOGLE_CLIENT_ID env)
             = Google.Verified (Some p)
             /\ Google.email p = Some email /\ email <> ""
             /\ Google.given_name p = Some given /\ given <> ""
             /\ Google.family_name p = Some family /\ family <> "").
Proof.
  unfold google. rewrite run_catch.
  destruct (googleAuthSchema L body) as [token|m] eqn:Hs; simpl.
  2:{ intros [= <- <-] [H | H]; [discriminate H | elim H; reflexivity]. }
  apply googleAuthSchema_token in Hs.
  destruct (_ && _) eqn:Hmock.
  - intros _ _. exists token. split; [exact Hs |]. left.
    apply andb_true_iff in Hmock. destruct Hmock as [Ht He].
    apply String.eqb_eq in Ht. apply strictEq_true in He. auto.
  - simpl.
    destruct (Oracle.google o token (Env.GOOGLE_CLIENT_ID env)) as [|[p|]]
      eqn:Hg; simpl.
    + intros [= <- <-] [H | H]; [discriminate H | elim H; reflexivity].
    + destruct (JS.falsy (Google.email p)) eqn:He; simpl.
      { intros [= <- <-] [H | H]; [discriminate H | elim H; reflexivity]. }
      destruct (JS.falsy (Google.given_name p)) eqn:Hgn; simpl.
      { intros [= <- <-] [H | H]; [discriminate H | elim H; reflexivity]. }
      destruct (JS.falsy (Google.family_name p)) eqn:Hfn; simpl.
      { intros [= <- <-] [H | H]; [discriminate H | elim H; reflexivity]. }
      intros _ _. exists token. split; [exact Hs |]. right.
      destruct (falsy_false _ He) as (email & He1 & He2).
      destruct (falsy_false _ Hgn) as (given & Hg1 & Hg2).
      destruct (falsy_false _ Hfn) as (family & Hf1 & Hf2).
      exists p, email, given, family. repeat split; assumption.
    + intros [= <- <-] [H | H]; [discriminate H | elim H; reflexivity].
Qed.

Transparent linkOrCreate.

Lemma google_needs_verified_profile_witness :
  exists token,
    Body.g_token (Body.mkGoogleAuth (Some "id-token")) = Some token
    /\ ((token = mockToken /\ Env.NODE_ENV Toy.env = Some "development")
        \/ exists p email given family,
             Oracle.google
               (Oracle.mk 2000 (1 # 2) "salt" "u4" true
                  (fun _ _ => Google.Verified (Some Scenario.g1_at_d)))
               token (Env.GOOGLE_CLIENT_ID Toy.env)
             = Google.Verified (Some p)
             /\ Google.email p = Some email /\ email <> ""
             /\ Google.given_name p = Some given /\ given <> ""
             /\ Google.family_name p = Some family /\ family <> "").
Proof.
  eapply (google_needs_verified_profile Toy.lib Toy.env
            (Oracle.mk 2000 (1 # 2) "salt" "u4" true
               (fun _ _ => Google.Verified (Some Scenario.g1_at_d)))
            (Body.mkGoogleAuth (Some "id-token")) Toy.empty).
  - reflexivity.
  - left. reflexivity.
Defined.





(** ** The notes routes behind the gate *)



(** ** Notes of other accounts *)




Lemma unique_id (l : list Note.t) (x n : Note.t) :
  NoDup (map Note._id l) -> In x l -> In n l -> Note._id n = Note._id x ->
  n = x.
Proof.
  induction l as [|d l IH]; simpl; intros Hnd Hx Hn Heq; [contradiction |].
  apply NoDup_cons_iff in Hnd. destruct Hnd as [Hnot Hnd].
  destruct Hx as [-> | Hx], Hn as [-> | Hn].
  - reflexivity.
  - elim Hnot. rewrite <- Heq. apply in_map. exact Hn.
  - elim Hnot. rewrite Heq. apply in_map. exact Hx.
  - exact (IH Hnd Hx Hn Heq).
Qed.


Lemma tagList_rejects (L : Lib) (v : option (list string)) (r : Notes.Response) :
  Notes.tagList L v = inr r -> exists key issue, r = Notes.rejected key issue.
Proof.
  unfold Notes.tagList. destruct v as [l|]; [| discriminate].
  destruct (Notes.items L _ 0 l) as [[i rule]|]; [| discriminate].
  intros [= <-]. eauto.
Qed.

Lemma color_rejects (L : Lib) (v : option string) (r : Notes.Response) :
  Notes.color L v = inr r -> exists key issue, r = Notes.rejected key issue.
Proof.
  unfold Notes.color.
  destruct (Notes.optional L [] v) as [[c|]|rule]; try discriminate.
  - destruct (Regex.test _ c); [discriminate | intros [= <-]; eauto].
  - intros [= <-]. eauto.
Qed.

Lemma createNoteSchema_rejects (L : Lib) (b : Notes.CreateBody)
    (r : Notes.Response) :
  Notes.createNoteSchema L b = inr r ->
  exists key issue, r = Notes.rejected key issue.
Proof.
  unfold Notes.createNoteSchema.
  destruct (Joi.string L _ (Notes.c_title b)); [| intros [= <-]; eauto].
  destruct (Joi.string L _ (Notes.c_content b)); [| intros [= <-]; eauto].
  destruct (Notes.tagList L _) eqn:Ht;
    [| intros [= <-]; exact (tagList_rejects _ _ _ Ht)].
  destruct (Notes.color L _) eqn:Hc;
    [discriminate | intros [= <-]; exact (color_rejects _ _ _ Hc)].
Qed.

Lemma updateNoteSchema_rejects (L : Lib) (b : Notes.UpdateBody)
    (r : Notes.Response) :
  Notes.updateNoteSchema L b = inr r ->
  exists key issue, r = Notes.rejected key issue.
Proof.
  unfold Notes.updateNoteSchema.
  destruct (Notes.optional L _ (Notes.p_title b)) as [title|];
    [| intros [= <-]; eauto].
  destruct (Notes.optional L _ (Notes.p_content b)) as [content|];
    [| intros [= <-]; eauto].
  destruct (Notes.tagList L _) as [tags|] eqn:Ht;
    [| intros [= <-]; exact (tagList_rejects _ _ _ Ht)].
  destruct (Notes.color L _) as [c|] eqn:Hc;
    [| intros [= <-]; exact (color_rejects _ _ _ Hc)].
  destruct title, content, tags, c, (Notes.p_isPinned b); try discriminate.
  intros [= <-]. eauto.
Qed.


Lemma desk_ids : NoDup (map Note._id (notes Desk.store)).
Proof.
  simpl. constructor.
  - intros [H | []]. discriminate H.
  - constructor; [intros [] | constructor].
Defined.





Lemma existsb_absent {A : Type} (f : A -> bool) (l : list A) :
  (forall x, In x l -> f x = false) -> existsb f l = false.
Proof.
  intros H. induction l as [|x l IH]; simpl; [reflexivity |].
  rewrite (H x (or_introl eq_refl)). apply IH. intros y Hy. apply H. right. exact Hy.
Qed.



(** ** The life of a note *)

Lemma createNote_201 (L : Lib) (o : Oracle.t) (user : User.t)
    (body : Notes.CreateBody) (s s' : Store) (r : Notes.Response) :
  Notes.createNote L o user body s = (r, s') ->
  Notes.status r = 201 ->
  exists title content tags color,
    Notes.createNoteSchema L body = inl (title, content, tags, color)
    /\ let note := Note.create (Oracle.objectId o) title content (User._id user)
                     tags color (Oracle.now o) in
       Note.validate note = None
       /\ (forall n, In n (notes s) -> Note._id n <> Oracle.objectId o)
       /\ r = Notes.mk 201 true (Some (Notes.Text "Note created successfully"))
                (Some note)
       /\ s' = mkStore (accounts s) (notes s ++ [note]).
Proof.
  unfold Notes.createNote.
  destruct (Notes.createNoteSchema L body)
    as [[[[title content] tags] color]|response] eqn:Hs.
  2:{ destruct (createNoteSchema_rejects L body response Hs) as (k & i & ->).
      intros [= <- _]. discriminate. }
  cbv zeta. unfold Notes.saveNew.
  destruct (Note.validate _) eqn:Hv; [intros [= <- _]; discriminate |].
  destruct (existsb _ (notes s)) eqn:Hdup; [intros [= <- _]; discriminate |].
  intros [= <- <-] _. exists title, content, tags, color.
  split; [reflexivity |]. cbv zeta. split; [exact Hv |].
  split; [| split; reflexivity].
  intros n Hn Heq.
  assert (Hex : existsb
                  (fun d => (Note._id d =? Oracle.objectId o)%string)
                  (notes s) = true).
  { apply existsb_exists. exists n. split; [exact Hn |].
    apply String.eqb_eq. exact Heq. }
  simpl in Hdup. rewrite Hex in Hdup. discriminate Hdup.
Qed.

(** X24.  A note that was created is served to its owner and to nobody
    else.  After a POST that was answered 201 with a note, a GET of its id
    by the same account is answered 200 with that very note; a GET of the
    same id by any other account is answered 404 'Note not found'.  The
    note belongs to the requester, is not pinned, and carries the instant
    of the request as both timestamps. *)
Theorem created_note_is_served (L : Lib) (o : Oracle.t) (user : User.t)
    (body : Notes.CreateBody) (s s' : Store) (r : Notes.Response) :
  Notes.createNote L o user body s = (r, s') ->
  Notes.status r = 201 ->
  isObjectId L (Oracle.objectId o) = true ->
  exists note,
    Notes.data r = Some note
    /\ Note._id note = Oracle.objectId o
    /\ Note.userId note = User._id user
    /\ Note.isPinned note = false
    /\ Note.createdAt note = Oracle.now o
    /\ Note.updatedAt note = Oracle.now o
    /\ Notes.getNote L user (Oracle.objectId o) s'
       = (Notes.mk 200 true None (Some note), s')
    /\ forall other,
         User._id other <> User._id user ->
         Notes.getNote L other (Oracle.objectId o) s' = (Notes.notFound, s').
Proof.
  intros Hrun Hstatus Hoid.
  destruct (createNote_201 L o user body s s' r Hrun Hstatus)
    as (title & content & tags & color & _ & Hv & Hfresh & -> & ->).
  eexists. split; [reflexivity |]. repeat (split; [reflexivity |]).
  assert (Habsent : forall uid n, In n (notes s) ->
                                  Notes.owned (Oracle.objectId o) uid n = false).
  { intros uid n Hn. unfold Notes.owned.
    destruct (Note._id n =? Oracle.objectId o)%string eqn:Heq; [| reflexivity].
    apply String.eqb_eq in Heq. elim (Hfresh n Hn Heq). }
  split.
  - unfold Notes.getNote, Notes.findOne. rewrite Hoid. simpl notes.
    rewrite find_app_absent; [| apply Habsent].
    simpl. unfold Notes.owned. simpl. rewrite !String.eqb_refl. reflexivity.
  - intros other Hother.
    unfold Notes.getNote, Notes.findOne. rewrite Hoid. simpl notes.
    rewrite find_app_absent; [| apply Habsent].
    simpl. unfold Notes.owned. simpl. rewrite String.eqb_refl.
    apply not_eq_sym in Hother. apply String.eqb_neq in Hother.
    rewrite Hother. reflexivity.
Qed.

Lemma created_note_is_served_witness :
  exists note,
    Notes.data
      (fst (Notes.createNote Toy.lib (Toy.oracle 5000 "n9" true) Sample.alice
              (Notes.mkCreateBody (Some " Read ") (Some "chapter 3")
                 (Some ["books "]) None) Desk.store))
    = Some note
    /\ Note._id note = "n9"
    /\ Note.userId note = "u1"
    /\ Note.isPinned note = false
    /\ Note.createdAt note = 5000
    /\ Note.updatedAt note = 5000
    /\ Notes.getNote Toy.lib Sample.alice "n9"
         (snd (Notes.createNote Toy.lib (Toy.oracle 5000 "n9" true) Sample.alice
                 (Notes.mkCreateBody (Some " Read ") (Some "chapter 3")
                    (Some ["books "]) None) Desk.store))
       = (Notes.mk 200 true None (Some note),
          snd (Notes.createNote Toy.lib (Toy.oracle 5000 "n9" true) Sample.alice
                 (Notes.mkCreateBody (Some " Read ") (Some "chapter 3")
                    (Some ["books "]) None) Desk.store))
    /\ forall other,
         User._id other <> "u1" ->
         Notes.getNote Toy.lib other "n9"
           (snd (Notes.createNote Toy.lib (Toy.oracle 5000 "n9" true)
                   Sample.alice
                   (Notes.mkCreateBody (Some " Read ") (Some "chapter 3")
                      (Some ["books "]) None) Desk.store))
         = (Notes.notFound,
            snd (Notes.createNote Toy.lib (Toy.oracle 5000 "n9" true)
                   Sample.alice
                   (Notes.mkCreateBody (Some " Read ") (Some "chapter 3")
                      (Some ["books "]) None) Desk.store)).
Proof.
  apply (created_note_is_served Toy.lib (Toy.oracle 5000 "n9" true)
           Sample.alice
           (Notes.mkCreateBody (Some " Read ") (Some "chapter 3")
              (Some ["books "]) None) Desk.store);
    reflexivity.
Defined.

Lemma find_updateFirst (f : Note.t -> bool) (g : Note.t -> Note.t)
    (l : list Note.t) (x : Note.t) :
  find f l = Some x -> f (g x) = true ->
  find f (Notes.updateFirst f g l) = Some (g x).
Proof.
  intros Hfind Hg. induction l as [|n l IH]; simpl in *; [discriminate |].
  destruct (f n) eqn:Hfn.
  - injection Hfind as ->. simpl. rewrite Hg. reflexivity.
  - simpl. rewrite Hfn. exact (IH Hfind).
Qed.

Lemma updateFirst_twice (f : Note.t -> bool) (g h : Note.t -> Note.t)
    (l : list Note.t) :
  (forall n, f n = true -> f (g n) = true) ->
  Notes.updateFirst f h (Notes.updateFirst f g l)
  = Notes.updateFirst f (fun n => h (g n)) l.
Proof.
  intros Hg. induction l as [|n l IH]; simpl; [reflexivity |].
  destruct (f n) eqn:Hfn; simpl.
  - rewrite (Hg n Hfn). reflexivity.
  - rewrite Hfn, IH. reflexivity.
Qed.

Lemma updateFirst_ext (f f' : Note.t -> bool) (g g' : Note.t -> Note.t)
    (l : list Note.t) :
  (forall n, In n l -> f n = f' n) ->
  (forall n, In n l -> f n = true -> g n = g' n) ->
  Notes.updateFirst f g l = Notes.updateFirst f' g' l.
Proof.
  intros Hf Hg. induction l as [|n l IH]; simpl; [reflexivity |].
  rewrite <- (Hf n (or_introl eq_refl)).
  destruct (f n) eqn:Hfn.
  - rewrite (Hg n (or_introl eq_refl) Hfn). reflexivity.
  - rewrite IH; [reflexivity | |]; intros m Hm; [apply Hf | apply Hg];
      right; exact Hm.
Qed.

Lemma in_updateFirst (f : Note.t -> bool) (g : Note.t -> Note.t)
    (l : list Note.t) (n : Note.t) :
  In n (Notes.updateFirst f g l) ->
  exists m, In m l /\ (n = m \/ n = g m).
Proof.
  induction l as [|d l IH]; simpl; [contradiction |].
  destruct (f d).
  - intros [<- | Hn]; [exists d; auto | exists n; auto].
  - intros [<- | Hn]; [exists d; auto |].
    destruct (IH Hn) as (m & Hm & H). exists m. auto.
Qed.

Lemma validate_toggle (now : Z) (n : Note.t) :
  Note.validate (Note.toggle now n) = Note.validate n.
Proof. reflexivity. Qed.

Lemma togglePin_200 (L : Lib) (o : Oracle.t) (user : User.t) (id : string)
    (s s' : Store) (r : Notes.Response) :
  Notes.togglePin L o user id s = (r, s') ->
  Notes.status r = 200 ->
  exists loaded,
    isObjectId L id = true
    /\ find (Notes.owned id (User._id user)) (notes s) = Some loaded
    /\ Note.validate loaded = None
    /\ r = Notes.mk 200 true
             (Some (Notes.Text
                      ("Note " ++ (if negb (Note.isPinned loaded) then "pinned"
                                   else "unpinned") ++ " successfully")))
             (Some (Note.toggle (Oracle.now o) loaded))
    /\ s' = mkStore (accounts s)
              (Notes.updateFirst
                 (fun d => (Note._id d =? Note._id loaded)%string)
                 (Note.toggle (Oracle.now o)) (notes s)).
Proof.
  unfold Notes.togglePin, Notes.findOne.
  destruct (isObjectId L id); [| intros [= <- _]; discriminate].
  destruct (find _ (notes s)) as [loaded|] eqn:Hf;
    [| intros [= <- _]; discriminate].
  cbv zeta. rewrite validate_toggle.
  destruct (Note.validate loaded) eqn:Hv; [intros [= <- _]; discriminate |].
  intros [= <- <-] _. exists loaded. repeat split; reflexivity || assumption.
Qed.

(** X25.  Pinning is an involution.  When a PATCH of the pin of a note is
    answered 200, a second PATCH of the same note by the same account is
    answered 200 as well, with the pin as it was at the start and the
    message of the opposite change; afterwards the collection is what it
    was at the start, except that the note carries the instant of the
    second request as [updatedAt]. *)
Theorem pin_twice_restores (L : Lib) (o1 o2 : Oracle.t) (user : User.t)
    (id : string) (s s1 : Store) (r1 : Notes.Response) :
  NoDup (map Note._id (notes s)) ->
  Notes.togglePin L o1 user id s = (r1, s1) ->
  Notes.status r1 = 200 ->
  exists loaded,
    find (Notes.owned id (User._id user)) (notes s) = Some loaded
    /\ Notes.data r1 = Some (Note.toggle (Oracle.now o1) loaded)
    /\ Notes.togglePin L o2 user id s1
       = (Notes.mk 200 true
            (Some (Notes.Text
                     ("Note " ++ (if Note.isPinned loaded then "pinned"
                                  else "unpinned") ++ " successfully")))
            (Some (touched (Oracle.now o2) loaded)),
          mkStore (accounts s)
            (Notes.updateFirst (Notes.owned id (User._id user))
               (touched (Oracle.now o2)) (notes s))).
Proof.
  intros Hids Hrun Hstatus.
  destruct (togglePin_200 L o1 user id s s1 r1 Hrun Hstatus)
    as (loaded & Hoid & Hfind & Hvalid & -> & ->).
  exists loaded. split; [exact Hfind |]. split; [reflexivity |].
  apply find_some in Hfind as Hl. destruct Hl as [Hin Howned].
  (* By its [_id] or by its [_id] and owner, the filter picks the same note. *)
  assert (Hsame : forall n, In n (notes s) ->
                    (Note._id n =? Note._id loaded)%string
                    = Notes.owned id (User._id user) n).
  { intros n Hn. unfold Notes.owned in *.
    apply andb_true_iff in Howned. destruct Howned as [H1 H2].
    apply String.eqb_eq in H1, H2.
    destruct (Note._id n =? Note._id loaded)%string eqn:Heq.
    - apply String.eqb_eq in Heq.
      rewrite (unique_id (notes s) loaded n Hids Hin Hn Heq).
      rewrite H1, H2, !String.eqb_refl. reflexivity.
    - rewrite H1 in Heq. rewrite Heq. reflexivity. }
  rewrite (updateFirst_ext _ (Notes.owned id (User._id user)) _
             (Note.toggle (Oracle.now o1)) (notes s) Hsame (fun _ _ _ => eq_refl)).
  unfold Notes.togglePin, Notes.findOne. rewrite Hoid. simpl notes.
  rewrite (find_updateFirst _ (Note.toggle (Oracle.now o1)) (notes s) loaded
             Hfind Howned).
  cbv zeta. rewrite !validate_toggle, Hvalid.
  assert (Htwice : Note.toggle (Oracle.now o2) (Note.toggle (Oracle.now o1) loaded)
                   = touched (Oracle.now o2) loaded).
  { unfold Note.toggle, touched. simpl. rewrite negb_involutive. reflexivity. }
  rewrite Htwice. simpl Note.isPinned. f_equal. f_equal.
  rewrite (updateFirst_ext
             (fun d => (Note._id d =? Note._id (touched (Oracle.now o2) loaded))%string)
             (Notes.owned id (User._id user))
             (Note.toggle (Oracle.now o2)) (Note.toggle (Oracle.now o2))
             (Notes.updateFirst (Notes.owned id (User._id user))
                (Note.toggle (Oracle.now o1)) (notes s))).
  - rewrite updateFirst_twice; [| intros n Hn; exact Hn].
    apply updateFirst_ext; [reflexivity |].
    intros n _ _. unfold Note.toggle, touched. simpl.
    rewrite negb_involutive. reflexivity.
  - intros n Hn. apply in_updateFirst in Hn. destruct Hn as (m & Hm & Hnm).
    assert (Hid : Note._id n = Note._id m /\ Note.userId n = Note.userId m).
    { destruct Hnm as [-> | ->]; split; reflexivity. }
    destruct Hid as [Hid Hu]. pose proof (Hsame m Hm) as Hm'.
    unfold Notes.owned in *. simpl. rewrite Hid, Hu. exact Hm'.
  - reflexivity.
Qed.

Lemma pin_twice_restores_witness :
  exists loaded,
    find (Notes.owned "n1" "u1") (notes Desk.store) = Some loaded
    /\ Notes.data
         (fst (Notes.togglePin Toy.lib (Toy.oracle 5000 "n9" true) Sample.alice
                 "n1" Desk.store))
       = Some (Note.toggle 5000 loaded)
    /\ Notes.togglePin Toy.lib (Toy.oracle 6000 "n9" true) Sample.alice "n1"
         (snd (Notes.togglePin Toy.lib (Toy.oracle 5000 "n9" true) Sample.alice
                 "n1" Desk.store))
       = (Notes.mk 200 true
            (Some (Notes.Text
                     ("Note " ++ (if Note.isPinned loaded then "pinned"
                                  else "unpinned") ++ " successfully")))
            (Some (touched 6000 loaded)),
          mkStore (accounts Desk.store)
            (Notes.updateFirst (Notes.owned "n1" "u1") (touched 6000)
               (notes Desk.store))).
Proof.
  apply (pin_twice_restores Toy.lib (Toy.oracle 5000 "n9" true)
           (Toy.oracle 6000 "n9" true) Sample.alice "n1" Desk.store).
  - exact desk_ids.
  - reflexivity.
  - reflexivity.
Defined.

Lemma find_removeFirst (f : Note.t -> bool) (l : list Note.t) :
  (forall n m, In n l -> In m l -> f n = true -> f m = true -> n = m) ->
  NoDup l ->
  find f (Notes.removeFirst f l) = None.
Proof.
  intros Honly Hnd. induction l as [|n l IH]; simpl; [reflexivity |].
  apply NoDup_cons_iff in Hnd. destruct Hnd as [Hnot Hnd].
  destruct (f n) eqn:Hfn.
  - apply find_absent. intros m Hm. destruct (f m) eqn:Hfm; [| reflexivity].
    elim Hnot. rewrite (Honly n m (or_introl eq_refl) (or_intror Hm) Hfn Hfm).
    exact Hm.
  - simpl. rewrite Hfn. apply IH; [| exact Hnd].
    intros a b Ha Hb. apply Honly; right; assumption.
Qed.

Lemma NoDup_of_ids (l : list Note.t) : NoDup (map Note._id l) -> NoDup l.
Proof.
  induction l as [|n l IH]; simpl; intros H; [constructor |].
  apply NoDup_cons_iff in H. destruct H as [Hnot Hnd].
  constructor; [| exact (IH Hnd)].
  intros Hin. apply Hnot. apply in_map. exact Hin.
Qed.

Lemma length_removeFirst (f : Note.t -> bool) (l : list Note.t) (x : Note.t) :
  find f l = Some x ->
  S (List.length (Notes.removeFirst f l)) = List.length l.
Proof.
  induction l as [|n l IH]; simpl; [discriminate |].
  destruct (f n); [reflexivity |].
  intros H. simpl. rewrite (IH H). reflexivity.
Qed.

Lemma in_removeFirst (f : Note.t -> bool) (l : list Note.t) (n : Note.t) :
  In n l -> f n = false -> In n (Notes.removeFirst f l).
Proof.
  induction l as [|d l IH]; simpl; [contradiction |].
  intros [-> | Hn] Hf.
  - rewrite Hf. left. reflexivity.
  - destruct (f d); [exact Hn | right; exact (IH Hn Hf)].
Qed.

(** X26.  A deleted note is gone, and only it.  After a DELETE that was
    answered 200, a GET and a second DELETE of the same id by the same
    account are answered 404 'Note not found'; the collection holds one
    note less, and still every note with another id or another owner. *)
Theorem deleted_note_is_gone (L : Lib) (user : User.t) (id : string)
    (s s' : Store) (r : Notes.Response) :
  NoDup (map Note._id (notes s)) ->
  Notes.deleteNote L user id s = (r, s') ->
  Notes.status r = 200 ->
  Notes.getNote L user id s' = (Notes.notFound, s')
  /\ Notes.deleteNote L user id s' = (Notes.notFound, s')
  /\ S (List.length (notes s')) = List.length (notes s)
  /\ forall n, In n (notes s) ->
               Notes.owned id (User._id user) n = false -> In n (notes s').
Proof.
  intros Hids. unfold Notes.deleteNote at 1, Notes.findOne.
  destruct (isObjectId L id) eqn:Hoid; [| intros [= <- _]; discriminate].
  destruct (find _ (notes s)) as [x|] eqn:Hf; [| intros [= <- _]; discriminate].
  intros [= <- <-] _.
  assert (Hgone : find (Notes.owned id (User._id user))
                    (Notes.removeFirst (Notes.owned id (User._id user)) (notes s))
                  = None).
  { apply find_removeFirst; [| exact (NoDup_of_ids _ Hids)].
    intros n m Hn Hm Hfn Hfm. apply (unique_id (notes s) m n Hids Hm Hn).
    unfold Notes.owned in *. apply andb_true_iff in Hfn, Hfm.
    destruct Hfn as [Hfn _], Hfm as [Hfm _].
    apply String.eqb_eq in Hfn, Hfm. congruence. }
  unfold Notes.getNote, Notes.deleteNote, Notes.findOne. simpl notes.
  rewrite Hoid, Hgone. repeat split.
  - exact (length_removeFirst _ _ x Hf).
  - intros n Hn Ho. exact (in_removeFirst _ _ n Hn Ho).
Qed.

Lemma deleted_note_is_gone_witness :
  Notes.getNote Toy.lib Sample.alice "n1"
    (snd (Notes.deleteNote Toy.lib Sample.alice "n1" Desk.store))
  = (Notes.notFound, snd (Notes.deleteNote Toy.lib Sample.alice "n1" Desk.store))
  /\ Notes.deleteNote Toy.lib Sample.alice "n1"
       (snd (Notes.deleteNote Toy.lib Sample.alice "n1" Desk.store))
     = (Notes.notFound,
        snd (Notes.deleteNote Toy.lib Sample.alice "n1" Desk.store))
  /\ S (List.length
          (notes (snd (Notes.deleteNote Toy.lib Sample.alice "n1" Desk.store))))
     = List.length (notes Desk.store)
  /\ forall n, In n (notes Desk.store) ->
               Notes.owned "n1" "u1" n = false ->
               In n (notes (snd (Notes.deleteNote Toy.lib Sample.alice "n1"
                                   Desk.store))).
Proof.
  eapply (deleted_note_is_gone Toy.lib Sample.alice "n1" Desk.store).
  - exact desk_ids.
  - reflexivity.
  - reflexivity.
Defined.

(** ** The two validations of a note *)

Lemma validate_none (n : Note.t) :
  Note.validate n = None <->
  Note.validTitle (Note.title n) = true
  /\ Note.validContent (Note.content n) = true
  /\ Note.validTags (Note.tags n) = true
  /\ Note.validColor (Note.backgroundColor n) = true.
Proof.
  unfold Note.validate.
  destruct (Note.validTitle _), (Note.validContent _), (Note.validTags _),
    (Note.validColor _); simpl; split; intros H;
    try discriminate H; try reflexivity; try tauto;
    destruct H as (H1 & H2 & H3 & H4); discriminate.
Qed.




Lemma revOnto_length (s acc : string) :
  String.length (JS.revOnto s acc) = (String.length s + String.length acc)%nat.
Proof.
  revert acc. induction s as [|c s IH]; intros acc; simpl; [reflexivity |].
  rewrite IH. simpl. lia.
Qed.

Lemma trimStart_length (s : string) :
  (String.length (JS.trimStart s) <= String.length s)%nat.
Proof.
  induction s as [|c s IH]; simpl; [lia |].
  destruct (JS.isSpace c); simpl; lia.
Qed.

Lemma trim_length (s : string) :
  (String.length (JS.trim s) <= String.length s)%nat.
Proof.
  unfold JS.trim. rewrite revOnto_length. simpl.
  pose proof (trimStart_length (JS.revOnto (JS.trimStart s) "")) as H1.
  rewrite revOnto_length in H1. simpl in H1.
  pose proof (trimStart_length s) as H2. lia.
Qed.

Lemma joi_bounded (L : Lib) (lo hi : nat) (v : option string) (s : string) :
  Joi.string L [Joi.string_min lo; Joi.string_max hi] v = inl s ->
  v = Some s /\ s <> "" /\ (String.length s <= hi)%nat.
Proof.
  unfold Joi.string. destruct v as [x|]; [| discriminate].
  destruct (x =? "")%string eqn:He; [discriminate |].
  simpl. destruct (String.length x <? lo)%nat; [discriminate |].
  destruct (hi <? String.length x)%nat eqn:Hhi; [discriminate |].
  intros [= <-]. apply String.eqb_neq in He. apply Nat.ltb_ge in Hhi. auto.
Qed.

Lemma items_bounded (L : Lib) (hi index : nat) (l : list string) :
  Notes.items L [Joi.string_max hi] index l = None ->
  forall x, In x l -> (String.length x <= hi)%nat.
Proof.
  revert index. induction l as [|y l IH]; intros index;
    [intros _ x [] |].
  cbn [Notes.items]. unfold Joi.string.
  destruct (y =? "")%string; [discriminate |].
  cbn [find Joi.violates].
  destruct (hi <? String.length y)%nat eqn:Hhi; [discriminate |].
  intros Hrest x [<- | Hx].
  - apply Nat.ltb_ge in Hhi. exact Hhi.
  - exact (IH (S index) Hrest x Hx).
Qed.

Lemma tagList_valid (L : Lib) (v : option (list string)) (tags : option (list string)) :
  Notes.tagList L v = inl tags ->
  Note.checks Note.validTags (option_map (map JS.trim) tags) = true.
Proof.
  unfold Notes.tagList. destruct v as [l|]; [| intros [= <-]; reflexivity].
  destruct (Notes.items L _ 0 l) as [[i r]|] eqn:Hitems; [discriminate |].
  intros [= <-]. simpl. unfold Note.validTags. apply forallb_forall.
  intros x Hx. apply in_map_iff in Hx. destruct Hx as (y & <- & Hy).
  apply Nat.leb_le.
  pose proof (items_bounded L 30 0 l Hitems y Hy) as Hlen.
  pose proof (trim_length y). lia.
Qed.

Lemma color_valid (L : Lib) (v c : option string) :
  Notes.color L v = inl c -> Note.checks Note.validColor c = true.
Proof.
  unfold Notes.color.
  destruct (Notes.optional L [] v) as [[s|]|r]; try discriminate.
  - destruct (Regex.test Note.colorPattern s) eqn:Ht; [| discriminate].
    intros [= <-]. simpl. unfold Note.validColor. rewrite Ht.
    apply orb_true_r.
  - intros [= <-]. reflexivity.
Qed.

Lemma white_valid : Note.validColor "#ffffff" = true.
Proof. reflexivity. Qed.

(** X27.  The request validation and the schema of the model disagree on
    one thing only.  For a body that Joi accepts, and an ObjectId that is
    not taken: if the title is blank (nothing is left of it once trimmed)
    the POST is answered 500 'Server error while creating note' and stores
    nothing; otherwise it is answered 201 and the note is stored, with the
    title and the tags trimmed.  No validator of the model other than
    [required] on the title ever refuses what Joi accepted. *)
Theorem blank_title_is_refused_late (L : Lib) (o : Oracle.t) (user : User.t)
    (body : Notes.CreateBody) (s : Store) (title content color : string)
    (tags : list string) :
  Notes.createNoteSchema L body = inl (title, content, tags, color) ->
  (forall n, In n (notes s) -> Note._id n <> Oracle.objectId o) ->
  let note := Note.create (Oracle.objectId o) title content (User._id user)
                tags color (Oracle.now o) in
  Notes.createNote L o user body s
  = if (JS.trim title =? "")%string
    then (Notes.failure 500 "Server error while creating note",
          Notes.log "Create note error:" s)
    else (Notes.mk 201 true (Some (Notes.Text "Note created successfully"))
            (Some note),
          mkStore (accounts s) (notes s ++ [note])).
Proof.
  intros Hs Hfresh note.
  assert (Hparts : Note.validContent content = true
                   /\ Note.validTags (map JS.trim tags) = true
                   /\ Note.validColor color = true
                   /\ (String.length (JS.trim title) <= 200)%nat).
  { revert Hs. unfold Notes.createNoteSchema.
    destruct (Joi.string L _ (Notes.c_title body)) as [t|] eqn:Ht;
      [| discriminate].
    destruct (Joi.string L _ (Notes.c_content body)) as [c|] eqn:Hc;
      [| discriminate].
    destruct (Notes.tagList L _) as [tg|] eqn:Htags; [| discriminate].
    destruct (Notes.color L _) as [col|] eqn:Hcol; [| discriminate].
    intros [= <- <- <- <-].
    apply joi_bounded in Ht, Hc.
    destruct Ht as (_ & _ & Ht), Hc as (_ & Hc1 & Hc2).
    apply tagList_valid in Htags. apply color_valid in Hcol.
    repeat split.
    - unfold Note.validContent. apply String.eqb_neq in Hc1. rewrite Hc1.
      simpl. apply Nat.leb_le. exact Hc2.
    - destruct tg; [exact Htags | reflexivity].
    - destruct col; [exact Hcol | exact white_valid].
    - pose proof (trim_length t). lia. }
  destruct Hparts as (Hc & Ht & Hcol & Hlen).
  unfold Notes.createNote. rewrite Hs. cbv zeta. fold note.
  unfold Notes.saveNew.
  destruct (JS.trim title =? "")%string eqn:Hblank.
  - assert (Hv : Note.validate note = Some "title").
    { unfold Note.validate, Note.validTitle. simpl. rewrite Hblank. reflexivity. }
    rewrite Hv. reflexivity.
  - assert (Hv : Note.validate note = None).
    { apply validate_none. simpl. repeat split; try assumption.
      unfold Note.validTitle. rewrite Hblank. simpl. apply Nat.leb_le. exact Hlen. }
    rewrite Hv.
    destruct (existsb _ (notes s)) eqn:Hdup; [| reflexivity].
    exfalso. apply existsb_exists in Hdup. destruct Hdup as (n & Hn & Heq).
    apply String.eqb_eq in Heq. exact (Hfresh n Hn Heq).
Qed.

Lemma blank_title_is_refused_late_witness :
  Notes.createNote Toy.lib (Toy.oracle 5000 "n9" true) Sample.alice
    (Notes.mkCreateBody (Some "   ") (Some "chapter 3") None (Some "#ABC"))
    Desk.store
  = if (JS.trim "   " =? "")%string
    then (Notes.failure 500 "Server error while creating note",
          Notes.log "Create note error:" Desk.store)
    else (Notes.mk 201 true (Some (Notes.Text "Note created successfully"))
            (Some (Note.create "n9" "   " "chapter 3" "u1" [] "#ABC" 5000)),
          mkStore (accounts Desk.store)
            (notes Desk.store
             ++ [Note.create "n9" "   " "chapter 3" "u1" [] "#ABC" 5000])).
Proof.
  apply (blank_title_is_refused_late Toy.lib (Toy.oracle 5000 "n9" true)
           Sample.alice
           (Notes.mkCreateBody (Some "   ") (Some "chapter 3") None (Some "#ABC"))
           Desk.store "   " "chapter 3" "#ABC" []).
  - reflexivity.
  - intros n [<- | [<- | []]]; discriminate.
Defined.








(** X29.  An update is read back.  When a PUT is answered 200, the note of
    the response is the stored note with the paths of the body assigned
    (title and tags trimmed) and [updatedAt] set to the instant of the
    request; its [_id], its owner and its [createdAt] are unchanged; and a
    GET of the id by the same account, right after, is answered with that
    very note. *)
Theorem updated_note_is_served (L : Lib) (o : Oracle.t) (user : User.t)
    (id : string) (body : Notes.UpdateBody) (s s' : Store)
    (r : Notes.Response) :
  Notes.updateNote L o user id body s = (r, s') ->
  Notes.status r = 200 ->
  exists value before,
    Notes.updateNoteSchema L body = inl value
    /\ find (Notes.owned id (User._id user)) (notes s) = Some before
    /\ Notes.data r = Some (Note.assign value (Oracle.now o) before)
    /\ Note._id (Note.assign value (Oracle.now o) before) = id
    /\ Note.userId (Note.assign value (Oracle.now o) before) = User._id user
    /\ Note.createdAt (Note.assign value (Oracle.now o) before)
       = Note.createdAt before
    /\ Note.updatedAt (Note.assign value (Oracle.now o) before) = Oracle.now o
    /\ Notes.getNote L user id s'
       = (Notes.mk 200 true None
            (Some (Note.assign value (Oracle.now o) before)), s').
Proof.
  unfold Notes.updateNote.
  destruct (Notes.updateNoteSchema L body) as [value|response] eqn:Hs.
  2:{ destruct (updateNoteSchema_rejects L body response Hs) as (k & i & ->).
      intros [= <- _]. discriminate. }
  cbv zeta.
  destruct (isObjectId L id) eqn:Hoid; simpl; [| intros [= <- _]; discriminate].
  destruct (Note.validateUpdate value); simpl; [intros [= <- _]; discriminate |].
  destruct (find _ (notes s)) as [before|] eqn:Hf; simpl;
    [| intros [= <- _]; discriminate].
  intros [= <- <-] _. exists value, before.
  apply find_some in Hf as Hb. destruct Hb as [_ Ho].
  assert (Ho' : Notes.owned id (User._id user)
                  (Note.assign value (Oracle.now o) before) = true) by exact Ho.
  unfold Notes.owned in Ho. apply andb_true_iff in Ho. destruct Ho as [H1 H2].
  apply String.eqb_eq in H1, H2.
  repeat (split; [first [reflexivity | assumption] |]).
  unfold Notes.getNote, Notes.findOne. rewrite Hoid. simpl notes.
  rewrite (find_updateFirst _ (Note.assign value (Oracle.now o)) (notes s) before
             Hf Ho').
  reflexivity.
Qed.

Lemma updated_note_is_served_witness :
  exists value before,
    Notes.updateNoteSchema Toy.lib
      (Notes.mkUpdateBody (Some " Plans, revised ") None None (Some "#00ff7F")
         None)
    = inl value
    /\ find (Notes.owned "n2" "u2") (notes Desk.store) = Some before
    /\ Notes.data
         (fst (Notes.updateNote Toy.lib (Toy.oracle 5000 "n9" true) Sample.bob
                 "n2"
                 (Notes.mkUpdateBody (Some " Plans, revised ") None None
                    (Some "#00ff7F") None) Desk.store))
       = Some (Note.assign value 5000 before)
    /\ Note._id (Note.assign value 5000 before) = "n2"
    /\ Note.userId (Note.assign value 5000 before) = "u2"
    /\ Note.createdAt (Note.assign value 5000 before) = Note.createdAt before
    /\ Note.updatedAt (Note.assign value 5000 before) = 5000
    /\ Notes.getNote Toy.lib Sample.bob "n2"
         (snd (Notes.updateNote Toy.lib (Toy.oracle 5000 "n9" true) Sample.bob
                 "n2"
                 (Notes.mkUpdateBody (Some " Plans, revised ") None None
                    (Some "#00ff7F") None) Desk.store))
       = (Notes.mk 200 true None (Some (Note.assign value 5000 before)),
          snd (Notes.updateNote Toy.lib (Toy.oracle 5000 "n9" true) Sample.bob
                 "n2"
                 (Notes.mkUpdateBody (Some " Plans, revised ") None None
                    (Some "#00ff7F") None) Desk.store)).
Proof.
  apply (updated_note_is_served Toy.lib (Toy.oracle 5000 "n9" true) Sample.bob
           "n2"
           (Notes.mkUpdateBody (Some " Plans, revised ") None None
              (Some "#00ff7F") None) Desk.store);
    reflexivity.
Defined.

(** ** The colour of a note *)

Lemma test_Nothing (s : string) : Regex.test Regex.Nothing s = false.
Proof. induction s as [|c s IH]; simpl; [reflexivity | exact IH]. Qed.

Opaque Note.isHex Regex.char.

Ltac regex_cbn :=
  cbn [Regex.test Regex.deriv Regex.nullable Regex.cat Regex.alt Note.hex
       andb orb].

Ltac hex_done :=
  intros _; cbn [allHex String.length];
  repeat match goal with H : Note.isHex _ = true |- _ => rewrite H; clear H end;
  split; [reflexivity | auto].

Ltac hex_step s :=
  destruct s as [|?c s];
  [first [discriminate | hex_done] |
   regex_cbn;
   match goal with
   | |- context [Note.isHex ?c] =>
       let H := fresh "Hhex" in
       destruct (Note.isHex c) eqn:H; regex_cbn;
       [| rewrite ?test_Nothing; discriminate]
   end].

Lemma colorPattern_digits (s : string) :
  Regex.test
    (Regex.Alt (Regex.Cat (Regex.Cat Note.hex (Regex.Cat Note.hex Note.hex))
                  (Regex.Cat Note.hex (Regex.Cat Note.hex Note.hex)))
       (Regex.Cat Note.hex (Regex.Cat Note.hex Note.hex))) s = true ->
  allHex s = true /\ (String.length s = 3 \/ String.length s = 6)%nat.
Proof.
  hex_step s. hex_step s. hex_step s. hex_step s. hex_step s. hex_step s.
  destruct s as [|c5 s]; [hex_done |].
  regex_cbn. rewrite test_Nothing. discriminate.
Qed.

Lemma digits_colorPattern (s : string) :
  allHex s = true -> (String.length s = 3 \/ String.length s = 6)%nat ->
  Regex.test
    (Regex.Alt (Regex.Cat (Regex.Cat Note.hex (Regex.Cat Note.hex Note.hex))
                  (Regex.Cat Note.hex (Regex.Cat Note.hex Note.hex)))
       (Regex.Cat Note.hex (Regex.Cat Note.hex Note.hex))) s = true.
Proof.
  intros Hall Hlen.
  destruct s as [|c0 [|c1 [|c2 s]]]; try (simpl in Hlen; lia).
  cbn [allHex] in Hall.
  apply andb_true_iff in Hall. destruct Hall as [H0 Hall].
  apply andb_true_iff in Hall. destruct Hall as [H1 Hall].
  apply andb_true_iff in Hall. destruct Hall as [H2 Hall].
  regex_cbn. rewrite H0. regex_cbn. rewrite H1. regex_cbn. rewrite H2. regex_cbn.
  destruct s as [|c3 [|c4 [|c5 [|c6 s]]]]; try (simpl in Hlen; lia);
    [reflexivity |].
  cbn [allHex] in Hall.
  apply andb_true_iff in Hall. destruct Hall as [H3 Hall].
  apply andb_true_iff in Hall. destruct Hall as [H4 Hall].
  apply andb_true_iff in Hall. destruct Hall as [H5 _].
  regex_cbn. rewrite H3. regex_cbn. rewrite H4. regex_cbn. rewrite H5.
  reflexivity.
Qed.

Transparent Regex.char.

(** X30.  The colours that the schema of the model and the two Joi schemas
    accept are the hex codes of three or of six digits: a string matches
    [/^#([A-Fa-f0-9]{6}|[A-Fa-f0-9]{3})$/] exactly when it is a [#]
    followed by three or by six characters, each a digit or a letter from
    [a] to [f] in either case. *)
Theorem colour_is_hex_code (s : string) :
  Regex.test Note.colorPattern s = true <->
  exists digits,
    s = String "#" digits
    /\ allHex digits = true
    /\ (String.length digits = 3 \/ String.length digits = 6)%nat.
Proof.
  unfold Note.colorPattern. split.
  - destruct s as [|c s]; [discriminate |].
    cbn [Regex.test Regex.deriv Regex.nullable].
    destruct (Regex.char "#" c) eqn:Hc.
    + unfold Regex.char in Hc. apply Ascii.eqb_eq in Hc. subst c.
      cbn [Regex.cat]. intros Ht.
      exists s. split; [reflexivity |]. exact (colorPattern_digits s Ht).
    + cbn [Regex.cat]. rewrite test_Nothing. discriminate.
  - intros (digits & -> & Hall & Hlen).
    cbn [Regex.test Regex.deriv Regex.nullable].
    assert (Hc : Regex.char "#" "#" = true) by reflexivity.
    rewrite Hc. cbn [Regex.cat].
    exact (digits_colorPattern digits Hall Hlen).
Qed.

Transparent Note.isHex.
